(** * Verification of the reporting scripts of trading_signal_ai

    Shallow embedding of
      - db_tests/db_stats.py       ([get_database_statistics]),
      - db_tests/analyze_db.py     ([analyze_database]),
      - db_tests/clean_database.py ([delete_ticker_data], [check_for_null_values]),
      - src/data_acquisition/fetch_data.py ([AlphaVantageAPI.get_daily_time_series]).

    The [ohlcv] table is a list of rows with nullable columns, SQL queries are
    list functions, Python exceptions are an error monad, Python floats are
    binary64 values held as rationals with explicit rounding. *)

From Stdlib Require Import ZArith QArith Qabs Qround List Bool Lia.
From Stdlib Require Import Strings.String Strings.Ascii.
From Stdlib Require Import Znumtheory.
From Stdlib Require Import Sorting.Sorted.
From Stdlib Require Floats.SpecFloat.
Import ListNotations.

Local Open Scope Z_scope.

(* ================================================================== *)
(** ** Python exceptions *)

Inductive exn : Type :=
| TypeError
| ValueError
| ZeroDivisionError
| OverflowError
| RequestException
| JSONDecodeError
| OperationalError.

Inductive result (A : Type) : Type :=
| Ok (a : A)
| Raise (e : exn).

Arguments Ok {A} a.
Arguments Raise {A} e.

Definition bind {A B : Type} (r : result A) (k : A -> result B) : result B :=
  match r with
  | Ok a => k a
  | Raise e => Raise e
  end.

Notation "x <- r ;; k" := (bind r (fun x => k))
  (at level 61, r at next level, right associativity).

Definition is_ok {A : Type} (r : result A) : bool :=
  match r with Ok _ => true | Raise _ => false end.

(* ================================================================== *)
(** ** Python floats

    A finite binary64 value is a dyadic rational; it is held as a [Q].  Every
    arithmetic operation rounds its exact result to 53 significant bits, to
    nearest, ties to even.  The exponent range of binary64 (2^-1022 .. 2^1023)
    is not represented: the magnitudes this program computes are day counts and
    ratios of row counts. *)

Module Float64.

(** Nearest integer to [n / m], ties to even ([0 <= n], [0 < m]). *)
Definition rnd_even (n m : Z) : Z :=
  let q := n / m in
  let r := n mod m in
  if 2 * r <? m then q
  else if m <? 2 * r then q + 1
  else if Z.even q then q else q + 1.

(** [floor (log2 (n / m))] for [0 < n], [0 < m]. *)
Definition flog2 (n m : Z) : Z :=
  if m <=? n then Z.log2 (n / m) else - Z.log2_up ((m + n - 1) / n).

(** [k * 2 ^ e]. *)
Definition scale2 (k e : Z) : Q :=
  if 0 <=? e then (k * 2 ^ e) # 1 else k # Z.to_pos (2 ^ (- e)).

(** Rounding of the positive rational [n / m]: the exponent [e] puts the
    significand [n / (m * 2 ^ e)] in [2^52, 2^53). *)
Definition round_pos (n m : Z) : Q :=
  let e := flog2 n m - 52 in
  let k := if 0 <=? e then rnd_even n (m * 2 ^ e)
           else rnd_even (n * 2 ^ (- e)) m in
  scale2 k e.

Definition round64 (x : Q) : Q :=
  match Qnum x with
  | Z0 => 0%Q
  | Zpos p => round_pos (Zpos p) (Zpos (Qden x))
  | Zneg p => (- round_pos (Zpos p) (Zpos (Qden x)))%Q
  end.

(** [float(z)] *)
Definition float_of_int (z : Z) : Q := round64 (inject_Z z).

(** [a / b] on floats *)
Definition fdiv (a b : Q) : result Q :=
  if Qeq_bool b 0 then Raise ZeroDivisionError else Ok (round64 (a / b)).

(** [a * b] on floats *)
Definition fmul (a b : Q) : Q := round64 (a * b).

(** [a / b] on ints: the correctly rounded quotient. *)
Definition int_truediv (a b : Z) : result Q :=
  if b =? 0 then Raise ZeroDivisionError
  else Ok (round64 (inject_Z a / inject_Z b)).

(** [int(x)]: truncation toward zero. *)
Definition int_of_float (x : Q) : Z := Z.quot (Qnum x) (Zpos (Qden x)).

(** The unit roundoff [2^-53]. *)
Definition u : Q := 1 # 9007199254740992.

(** Value of a finite float of the Standard Library's IEEE 754 specification,
    used to cross-check [round64] on samples. *)
Definition SF2Q (f : SpecFloat.spec_float) : option Q :=
  match f with
  | SpecFloat.S754_zero _ => Some 0%Q
  | SpecFloat.S754_finite s m e =>
      Some (scale2 (if s then Zneg m else Zpos m) e)
  | _ => None
  end.

Definition SF_of_int (z : Z) : SpecFloat.spec_float :=
  SpecFloat.binary_normalize 53 1024 z 0 false.

(** [d / 365.0 * 252] computed by the Standard Library's binary64 operations
    and by [round64] give the same value. *)
Definition agrees_with_SpecFloat (d : Z) : bool :=
  match SF2Q (SpecFloat.SFmul 53 1024
                (SpecFloat.SFdiv 53 1024 (SF_of_int d) (SF_of_int 365))
                (SF_of_int 252)) with
  | Some q =>
      Qeq_bool q (round64 (round64 (float_of_int d / (365 # 1)) * float_of_int 252))
  | None => false
  end.

End Float64.

(* ================================================================== *)
(** ** Python's [datetime]: proleptic Gregorian calendar

    Transcribed from CPython's [Lib/_pydatetime.py] and [Lib/_strptime.py].
    Both scripts only ever use the date part of a [datetime] (a parsed
    ['%Y-%m-%d'] string is at midnight, and [datetime.now()] is only used
    through [.year], [strftime('%Y-%m-%d')] and a difference in whole days). *)

Module Datetime.

Record datetime : Type := mkDate { year : Z; month : Z; day : Z }.

Definition MINYEAR : Z := 1.
Definition MAXYEAR : Z := 9999.
Definition MAXORDINAL : Z := 3652059.

Definition DAYS_IN_MONTH (m : Z) : Z :=
  match m with
  | 1 => 31 | 2 => 28 | 3 => 31 | 4 => 30 | 5 => 31 | 6 => 30
  | 7 => 31 | 8 => 31 | 9 => 30 | 10 => 31 | 11 => 30 | 12 => 31
  | _ => -1
  end.

Definition DAYS_BEFORE_MONTH (m : Z) : Z :=
  match m with
  | 1 => 0 | 2 => 31 | 3 => 59 | 4 => 90 | 5 => 120 | 6 => 151
  | 7 => 181 | 8 => 212 | 9 => 243 | 10 => 273 | 11 => 304 | 12 => 334
  | _ => -1
  end.

Definition is_leap (y : Z) : bool :=
  (y mod 4 =? 0) && (negb (y mod 100 =? 0) || (y mod 400 =? 0)).

Definition days_before_year (y : Z) : Z :=
  let y' := y - 1 in y' * 365 + y' / 4 - y' / 100 + y' / 400.

Definition days_in_month (y m : Z) : Z :=
  if (m =? 2) && is_leap y then 29 else DAYS_IN_MONTH m.

Definition days_before_month (y m : Z) : Z :=
  DAYS_BEFORE_MONTH m + (if (2 <? m) && is_leap y then 1 else 0).

Definition ymd2ord (y m d : Z) : Z :=
  days_before_year y + days_before_month y m + d.

Definition toordinal (dt : datetime) : Z :=
  ymd2ord (year dt) (month dt) (day dt).

Definition DI400Y : Z := 146097.
Definition DI100Y : Z := 36524.
Definition DI4Y : Z := 1461.

Definition ord2ymd (n0 : Z) : datetime :=
  let n := n0 - 1 in
  let n400 := n / DI400Y in
  let n := n mod DI400Y in
  let y := n400 * 400 + 1 in
  let n100 := n / DI100Y in
  let n := n mod DI100Y in
  let n4 := n / DI4Y in
  let n := n mod DI4Y in
  let n1 := n / 365 in
  let n := n mod 365 in
  let y := y + n100 * 100 + n4 * 4 + n1 in
  if (n1 =? 4) || (n100 =? 4) then mkDate (y - 1) 12 31
  else
    let leapyear := (n1 =? 3) && (negb (n4 =? 24) || (n100 =? 3)) in
    let m := Z.shiftr (n + 50) 5 in
    let preceding := DAYS_BEFORE_MONTH m + (if (2 <? m) && leapyear then 1 else 0) in
    if n <? preceding then
      let m' := m - 1 in
      let preceding' :=
        preceding - (DAYS_IN_MONTH m' + (if (m' =? 2) && leapyear then 1 else 0)) in
      mkDate y m' (n - preceding' + 1)
    else mkDate y m (n - preceding + 1).

(** The constructor [date(year, month, day)] with its range checks. *)
Definition check_date_fields (y m d : Z) : result datetime :=
  if (MINYEAR <=? y) && (y <=? MAXYEAR) && (1 <=? m) && (m <=? 12)
     && (1 <=? d) && (d <=? days_in_month y m)
  then Ok (mkDate y m d) else Raise ValueError.

Definition valid_date (dt : datetime) : bool :=
  is_ok (check_date_fields (year dt) (month dt) (day dt)).

(** Comparison of two dates: by year, then month, then day. *)
Definition cmp (a b : datetime) : comparison :=
  match year a ?= year b with
  | Eq => match month a ?= month b with
          | Eq => day a ?= day b
          | c => c
          end
  | c => c
  end.

(** [date.fromordinal(o)] gives a valid date whose ordinal is [o]. *)
Definition roundtrip_ok (o : Z) : bool :=
  valid_date (ord2ymd o) && (toordinal (ord2ymd o) =? o).

(** [(a - b).days] for two datetimes at the same time of day. *)
Definition sub_days (a b : datetime) : Z := toordinal a - toordinal b.

(** [dt - timedelta(days=n)] *)
Definition minus_timedelta (dt : datetime) (n : Z) : result datetime :=
  let o := toordinal dt - n in
  if (1 <=? o) && (o <=? MAXORDINAL) then Ok (ord2ymd o) else Raise OverflowError.

(** *** Decimal digits *)

Definition digit_of (c : ascii) : option Z :=
  let n := Z.of_N (N_of_ascii c) in
  if (48 <=? n) && (n <=? 57) then Some (n - 48) else None.

Definition digit_char (d : Z) : ascii := ascii_of_N (Z.to_N (48 + d)).

Definition range_digit (lo hi : Z) (c : ascii) : option Z :=
  match digit_of c with
  | Some d => if (lo <=? d) && (d <=? hi) then Some d else None
  | None => None
  end.

(** *** [date.isoformat()]: [YYYY-MM-DD], zero padded *)

Definition digits2 (n : Z) (k : string) : string :=
  String (digit_char (n / 10 mod 10)) (String (digit_char (n mod 10)) k).

Definition digits4 (n : Z) (k : string) : string :=
  String (digit_char (n / 1000 mod 10))
    (String (digit_char (n / 100 mod 10)) (digits2 n k)).

Definition dash : ascii := "-"%char.

Definition isoformat (dt : datetime) : string :=
  digits4 (year dt)
    (String dash (digits2 (month dt) (String dash (digits2 (day dt) EmptyString)))).

(** [strftime('%Y-%m-%d')].  For years 1000 to 9999 this is the ISO form; for
    earlier years the C library and the Python version decide whether [%Y] is
    padded to four digits (glibc alone does not pad), a case the clock of
    these scripts never presents.  The padded form is taken here; what is
    proved of the text of a cut-off date assumes a year from 1000 on. *)
Definition strftime (dt : datetime) : string := isoformat dt.

(** *** [strptime(s, '%Y-%m-%d')]

    [_strptime] compiles the format to the regular expression
    [(?P<Y>\d\d\d\d)-(?P<m>1[0-2]|0[1-9]|[1-9])-(?P<d>3[0-1]|[1-2]\d|0[1-9]|[1-9]| [1-9])],
    matches it at the start of the string, and rejects the string when the
    match does not reach its end. *)

Definition re_Y (s : string) : option (Z * string) :=
  match s with
  | String a (String b (String c (String d rest))) =>
      match digit_of a, digit_of b, digit_of c, digit_of d with
      | Some a, Some b, Some c, Some d =>
          Some (1000 * a + 100 * b + 10 * c + d, rest)
      | _, _, _, _ => None
      end
  | _ => None
  end.

Definition re_lit (ch : ascii) (s : string) : option string :=
  match s with
  | String c rest => if Ascii.eqb c ch then Some rest else None
  | EmptyString => None
  end.

(** Two characters in the given digit ranges, read as a two-digit number. *)
Definition alt2 (lo1 hi1 lo2 hi2 : Z) (s : string) : list (Z * string) :=
  match s with
  | String c1 (String c2 rest) =>
      match range_digit lo1 hi1 c1, range_digit lo2 hi2 c2 with
      | Some a, Some b => [(10 * a + b, rest)]
      | _, _ => []
      end
  | _ => []
  end.

Definition alt1 (lo hi : Z) (s : string) : list (Z * string) :=
  match s with
  | String c rest =>
      match range_digit lo hi c with
      | Some a => [(a, rest)]
      | None => []
      end
  | EmptyString => []
  end.

(** The alternatives of [%m], in the order the regular expression tries them. *)
Definition re_m (s : string) : list (Z * string) :=
  alt2 1 1 0 2 s ++ alt2 0 0 1 9 s ++ alt1 1 9 s.

(** The alternatives of [%d]; the last one is a blank followed by a digit. *)
Definition re_d (s : string) : list (Z * string) :=
  alt2 3 3 0 1 s ++ alt2 1 2 0 9 s ++ alt2 0 0 1 9 s ++ alt1 1 9 s
  ++ match re_lit " "%char s with
     | Some s' => alt1 1 9 s'
     | None => []
     end.

(** First alternative whose continuation matches (backtracking). *)
Fixpoint first_match {A B : Type} (alts : list A) (k : A -> option B) : option B :=
  match alts with
  | [] => None
  | a :: rest =>
      match k a with
      | Some b => Some b
      | None => first_match rest k
      end
  end.

Definition re_ymd (s : string) : option (Z * Z * Z * string) :=
  match re_Y s with
  | None => None
  | Some (y, s1) =>
      match re_lit dash s1 with
      | None => None
      | Some s2 =>
          first_match (re_m s2) (fun ms =>
            match re_lit dash (snd ms) with
            | None => None
            | Some s4 =>
                match re_d s4 with
                | (d, s5) :: _ => Some (y, fst ms, d, s5)
                | [] => None
                end
            end)
      end
  end.

(** [datetime.strptime(arg, '%Y-%m-%d')]; [arg] is [None] when SQL gave NULL.
    Strings are byte strings and a digit is an ASCII digit: text with other
    Unicode decimal digits, which Python's [\d] accepts too, is not
    represented. *)
Definition strptime (arg : option string) : result datetime :=
  match arg with
  | None => Raise TypeError
  | Some s =>
      match re_ymd s with
      | None => Raise ValueError
      | Some (y, m, d, rest) =>
          match rest with
          | EmptyString => check_date_fields y m d
          | String _ _ => Raise ValueError
          end
      end
  end.

(** A string is an ISO 8601 calendar date ([YYYY-MM-DD]) when it parses and
    prints back to itself. *)
Definition iso_date (s : string) : bool :=
  match strptime (Some s) with
  | Ok dt => String.eqb (isoformat dt) s
  | Raise _ => false
  end.

End Datetime.

(* ================================================================== *)
(** ** The [ohlcv] table and the SQL the scripts run on it *)

Module Sql.

(** One row; [None] is SQL NULL.  Dates are TEXT. *)
Record row : Type := mkRow {
  ticker : option string;
  date : option string;
  open : option Q;
  high : option Q;
  low : option Q;
  close : option Q;
  volume : option Z
}.

Definition table : Type := list row.

(** Modelled from the spec: [get_db_connection] and [DB_PATH] are imported from
    [src.utils.file_io] and [src.data_acquisition.create_database], which the
    sources do not contain.  Per the spec the store is reached through a
    short-lived connection whose acquisition can fail (StoreAccessError); a
    connection is the outcome of that call: the table it gives access to, or
    the exception raised. *)
Definition connection : Type := result table.

Definition is_null {A : Type} (v : option A) : bool :=
  match v with None => true | Some _ => false end.

(** [a = b]: unknown (so not selected) as soon as one side is NULL. *)
Definition sql_eq (a b : option string) : bool :=
  match a, b with
  | Some x, Some y => String.eqb x y
  | _, _ => false
  end.

(** [a >= b], same treatment of NULL; TEXT compares bytewise. *)
Definition sql_ge (a b : option string) : bool :=
  match a, b with
  | Some x, Some y => String.leb y x
  | _, _ => false
  end.

(** Order used by ORDER BY, DISTINCT and GROUP BY: NULL first, then TEXT. *)
Definition sql_compare (a b : option string) : comparison :=
  match a, b with
  | None, None => Eq
  | None, Some _ => Lt
  | Some _, None => Gt
  | Some x, Some y => String.compare x y
  end.

Definition sql_le (a b : option string) : bool :=
  match sql_compare a b with Gt => false | _ => true end.

(** [COUNT( * )] *)
Definition count (rows : table) : Z := Z.of_nat (List.length rows).

(** [... WHERE ticker = ?] *)
Definition where_ticker (t : option string) (db : table) : table :=
  filter (fun r => sql_eq (ticker r) t) db.

(** [... WHERE ticker = ? AND date >= ?] *)
Definition where_ticker_since (t since : option string) (db : table) : table :=
  filter (fun r => sql_eq (ticker r) t && sql_ge (date r) since) db.

(** [MIN(col)] and [MAX(col)] on TEXT: NULLs are skipped, NULL if none is left.
    [pick le] keeps the accumulated value unless the next one is strictly
    before it in the order [le]. *)
Definition pick (le : string -> string -> bool) (acc : option string)
  (b : string) : option string :=
  match acc with
  | None => Some b
  | Some x => if le x b then Some x else Some b
  end.

Fixpoint agg_text (f : option string -> string -> option string)
  (acc : option string) (vals : list (option string)) : option string :=
  match vals with
  | [] => acc
  | None :: rest => agg_text f acc rest
  | Some v :: rest => agg_text f (f acc v) rest
  end.

Definition MIN_date (rows : table) : option string :=
  agg_text (pick String.leb) None (map date rows).

Definition MAX_date (rows : table) : option string :=
  agg_text (pick (fun a b => String.leb b a)) None (map date rows).

(** [AVG], [MAX], [MIN] and [SUM] of a numeric column are NULL exactly when the
    column has no non-NULL value among the rows; of the first three only that
    is needed below. *)
Definition agg_is_null {A : Type} (col : row -> option A) (rows : table) : bool :=
  forallb (fun r => is_null (col r)) rows.

(** The range of an SQLite INTEGER. *)
Definition INT64_MIN : Z := -9223372036854775808.
Definition INT64_MAX : Z := 9223372036854775807.

Definition fits_int64 (x : Z) : bool := (INT64_MIN <=? x) && (x <=? INT64_MAX).

(** [SUM(volume)]: NULLs are skipped and the running sum is a 64-bit integer;
    as soon as one addition leaves that range the query fails with
    [OperationalError: integer overflow].  The rows are added in the order of
    the table. *)
Fixpoint sum_from (acc : Z) (vals : list (option Z)) : result Z :=
  match vals with
  | [] => Ok acc
  | None :: rest => sum_from acc rest
  | Some v :: rest =>
      if fits_int64 (acc + v) then sum_from (acc + v) rest
      else Raise OperationalError
  end.

Definition SUM_volume (rows : table) : result (option Z) :=
  total <- sum_from 0 (map volume rows) ;;
  Ok (if agg_is_null volume rows then None else Some total).

(** [ORDER BY date ASC] and [ORDER BY date DESC] (stable insertion sort). *)
Fixpoint insert_by (le : option string -> option string -> bool)
  (r : row) (sorted : table) : table :=
  match sorted with
  | [] => [r]
  | h :: rest =>
      if le (date r) (date h) then r :: sorted else h :: insert_by le r rest
  end.

Definition order_by_date (le : option string -> option string -> bool)
  (rows : table) : table :=
  fold_right (insert_by le) [] rows.

Definition ASC : option string -> option string -> bool := sql_le.
Definition DESC : option string -> option string -> bool := fun a b => sql_le b a.

(** [LIMIT 1] followed by [cursor.fetchone()]: the first row, or [None]. *)
Definition fetchone (rows : table) : option row := hd_error rows.

(** [SELECT DISTINCT ticker FROM ohlcv ORDER BY ticker] *)
Fixpoint insert_distinct (t : option string) (l : list (option string))
  : list (option string) :=
  match l with
  | [] => [t]
  | h :: rest =>
      match sql_compare t h with
      | Lt => t :: l
      | Eq => l
      | Gt => h :: insert_distinct t rest
      end
  end.

Definition distinct_tickers (db : table) : list (option string) :=
  fold_right (fun r acc => insert_distinct (ticker r) acc) [] db.

(** [DELETE FROM ohlcv WHERE ticker = ?] *)
Definition delete_where_ticker (t : option string) (db : table) : table :=
  filter (fun r => negb (sql_eq (ticker r) t)) db.

(** The WHERE clause of the NULL check. *)
Definition has_null (r : row) : bool :=
  is_null (ticker r) || is_null (date r) || is_null (open r)
  || is_null (high r) || is_null (low r) || is_null (close r)
  || is_null (volume r).

(** A record with all seven required fields present. *)
Definition all_fields_populated (r : row) : Prop :=
  ticker r <> None /\ date r <> None /\ open r <> None /\ high r <> None
  /\ low r <> None /\ close r <> None /\ volume r <> None.

(** A valid price record: no field is NULL and the date is an ISO 8601 day. *)
Definition valid_row (r : row) : bool :=
  negb (has_null r)
  && match date r with
     | Some s => Datetime.iso_date s
     | None => false
     end.

(** [GROUP BY ticker, date] with [COUNT( * )]: NULLs fall in one group.  Groups
    come out in order of first appearance; SQL leaves their order open. *)
Definition group_key : Type := (option string * option string)%type.

Definition key_of (r : row) : group_key := (ticker r, date r).

Definition opt_eqb (a b : option string) : bool :=
  match a, b with
  | None, None => true
  | Some x, Some y => String.eqb x y
  | _, _ => false
  end.

Definition key_eqb (a b : group_key) : bool :=
  opt_eqb (fst a) (fst b) && opt_eqb (snd a) (snd b).

Fixpoint bump (k : group_key) (groups : list (group_key * Z))
  : list (group_key * Z) :=
  match groups with
  | [] => [(k, 1)]
  | (k', c) :: rest =>
      if key_eqb k k' then (k', c + 1) :: rest else (k', c) :: bump k rest
  end.

Definition group_count (rows : table) : list (group_key * Z) :=
  fold_left (fun groups r => bump (key_of r) groups) rows [].

(** The count reported for a key, [0] when the key has no group. *)
Fixpoint group_get (k : group_key) (groups : list (group_key * Z)) : Z :=
  match groups with
  | [] => 0
  | (k', c) :: rest => if key_eqb k k' then c else group_get k rest
  end.

(** Groups are well formed when no key occurs twice and every count is
    positive. *)
Definition well_grouped (g : list (group_key * Z)) : Prop :=
  NoDup (map fst g) /\ Forall (fun kc => 0 < snd kc) g.

(** The rows of one [(ticker, date)] group. *)
Definition rows_in_group (k : group_key) (rows : table) : table :=
  filter (fun r => key_eqb (key_of r) k) rows.

End Sql.

(* ================================================================== *)
(** ** db_tests/db_stats.py *)

Module DbStats.
Import Float64 Datetime Sql.

(** The values one iteration of the per-ticker loop computes: the entries of
    the dictionary appended to [ticker_stats], before formatting, together
    with the local [expected_trading_days]. *)
Record ticker_entry : Type := mkEntry {
  Ticker : option string;
  first_date : string;
  last_date : string;
  date_range_days : Z;
  years : Q;
  record_count : Z;
  expected_trading_days : Z;
  completeness : Q;
  recent_count : Z;
  ytd_count : Z
}.

(** The records of a ticker form a valid history: there is at least one, and
    each is a valid price record. *)
Definition valid_history (ticker : option string) (db : table) : bool :=
  match where_ticker ticker db with
  | [] => false
  | rows => forallb valid_row rows
  end.

(** The extremal dates of a history: [f] and [l] are what [MIN(date)] and
    [MAX(date)] return, they occur in the history, bound every date of it as
    strings and as days, and parse to [df] and [dl]. *)
Record history_dates (rows : table) (f l : string) (df dl : datetime) : Prop := {
  hd_min : MIN_date rows = Some f;
  hd_max : MAX_date rows = Some l;
  hd_first_in : In (Some f) (map date rows);
  hd_last_in : In (Some l) (map date rows);
  hd_first_le : forall s, In (Some s) (map date rows) -> String.leb f s = true;
  hd_last_ge : forall s, In (Some s) (map date rows) -> String.leb s l = true;
  hd_first_parse : strptime (Some f) = Ok df;
  hd_last_parse : strptime (Some l) = Ok dl;
  hd_between : forall s ds, In (Some s) (map date rows) ->
      strptime (Some s) = Ok ds -> toordinal df <= toordinal ds <= toordinal dl;
  hd_span : 0 <= sub_days dl df <= 3652058
}.

(** The total of the volumes present. *)
Definition volume_total (rows : table) : Z :=
  fold_right (fun r acc => match volume r with
                           | Some v => v + acc
                           | None => acc
                           end) 0 rows.

(** The volumes of a ticker's records can be summed: none is negative and
    their total is an SQLite INTEGER. *)
Definition volumes_fit (ticker : option string) (db : table) : bool :=
  let rows := where_ticker ticker db in
  forallb (fun r => match volume r with
                    | Some v => 0 <=? v
                    | None => true
                    end) rows
  && (volume_total rows <=? INT64_MAX).

(** A current date from which three years can be taken off. *)
Definition valid_now (now : datetime) : bool :=
  valid_date now && (3 * 365 <? toordinal now).

(** [stats['record_count'] / expected_trading_days if expected_trading_days > 0 else 0] *)
Definition completeness_of (record_count expected_trading_days : Z) : result Q :=
  if 0 <? expected_trading_days
  then int_truediv record_count expected_trading_days
  else Ok 0%Q.

(** The expected number of trading days as the specification words it:
    [floor ((span_days / 365.0) * 252)], over the rationals. *)
Definition expected_trading_days_spec (span_days : Z) : Z :=
  Qfloor (inject_Z span_days / (365 # 1) * (252 # 1)).

(** [int(years * 252)] *)
Definition expected_of (years : Q) : Z :=
  int_of_float (fmul years (float_of_int 252)).

(** [(datetime.now() - timedelta(days=3*365)).strftime('%Y-%m-%d')] *)
Definition three_years_ago (now : datetime) : result string :=
  t <- minus_timedelta now (3 * 365) ;; Ok (strftime t).

(** [datetime(datetime.now().year, 1, 1).strftime('%Y-%m-%d')] *)
Definition ytd (now : datetime) : result string :=
  t <- check_date_fields (year now) 1 1 ;; Ok (strftime t).

(** Formatting an aggregate with [:.2f] or [:,.0f] raises on [None]. *)
Definition format_float {A : Type} (col : row -> option A) (rows : table)
  : result unit :=
  if agg_is_null col rows then Raise TypeError else Ok tt.

(** Body of [for ticker in tickers:] (lines 56-118).  The query of lines
    57-70 is evaluated as a whole by [cursor.execute]: an overflow of
    [SUM(volume)] is raised there, before the dates are parsed. *)
Definition ticker_statistics (db : table) (now : datetime)
  (ticker : option string) : result ticker_entry :=
  let stats := where_ticker ticker db in
  _ <- SUM_volume stats ;;
  first <- strptime (MIN_date stats) ;;
  last <- strptime (MAX_date stats) ;;
  let date_range_days := sub_days last first in
  years <- fdiv (float_of_int date_range_days) (365 # 1) ;;
  let expected_trading_days := expected_of years in
  completeness <- completeness_of (count stats) expected_trading_days ;;
  since <- three_years_ago now ;;
  let recent_count := count (where_ticker_since ticker (Some since) db) in
  jan1 <- ytd now ;;
  let ytd_count := count (where_ticker_since ticker (Some jan1) db) in
  _ <- format_float close stats ;;
  _ <- format_float high stats ;;
  _ <- format_float low stats ;;
  _ <- format_float volume stats ;;
  Ok {| Ticker := ticker;
        first_date := match MIN_date stats with Some s => s | None => EmptyString end;
        last_date := match MAX_date stats with Some s => s | None => EmptyString end;
        date_range_days := date_range_days;
        years := years;
        record_count := count stats;
        expected_trading_days := expected_trading_days;
        completeness := completeness;
        recent_count := recent_count;
        ytd_count := ytd_count |}.

Fixpoint for_each {A B : Type} (f : A -> result B) (l : list A) : result (list B) :=
  match l with
  | [] => Ok []
  | a :: rest => b <- f a ;; bs <- for_each f rest ;; Ok (b :: bs)
  end.

(** The summary printed before the loop (lines 28-51): the total count,
    [COUNT(DISTINCT ticker)], which does not count NULL, and the age of the
    oldest row, computed from [MIN(date)] over the whole table. *)
Definition database_summary (db : table) (now : datetime) : result (Z * Z * Z) :=
  oldest <- strptime (MIN_date db) ;;
  Ok (count db,
      Z.of_nat (List.length (filter (fun t => negb (is_null t))
                               (distinct_tickers db))),
      sub_days now oldest).

(** The [try] block of [get_database_statistics]. *)
Definition statistics_body (conn : connection) (now : datetime)
  : result (list ticker_entry) :=
  db <- conn ;;
  _ <- database_summary db now ;;
  for_each (ticker_statistics db now) (distinct_tickers db).

(** [get_database_statistics()]: [True], or [False] from the [except] clause. *)
Definition get_database_statistics (conn : connection) (now : datetime) : bool :=
  is_ok (statistics_body conn now).

End DbStats.

(* ================================================================== *)
(** ** db_tests/analyze_db.py *)

Module AnalyzeDb.
Import Float64 Datetime Sql.

Record ticker_entry : Type := mkEntry {
  Ticker : option string;
  earliest_date : string;
  latest_date : string;
  record_count : Z;
  date_range_days : Z;
  expected_records : Z;
  completeness : Q;
  recent_count : Z
}.

(** [cursor.fetchone()['date']]: subscripting [None] raises [TypeError]. *)
Definition fetchone_date (rows : table) : result (option string) :=
  match fetchone rows with
  | None => Raise TypeError
  | Some r => Ok (date r)
  end.

(** Body of [for ticker in tickers:] (lines 37-86). *)
Definition ticker_analysis (db : table) (now : datetime)
  (ticker : option string) : result ticker_entry :=
  let rows := where_ticker ticker db in
  earliest_date <- fetchone_date (order_by_date ASC rows) ;;
  latest_date <- fetchone_date (order_by_date DESC rows) ;;
  let record_count := count rows in
  start_date <- strptime earliest_date ;;
  end_date <- strptime latest_date ;;
  let date_range_days := sub_days end_date start_date in
  years <- fdiv (float_of_int date_range_days) (365 # 1) ;;
  let expected_records := DbStats.expected_of years in
  completeness <- DbStats.completeness_of record_count expected_records ;;
  since <- DbStats.three_years_ago now ;;
  let recent_count := count (where_ticker_since ticker (Some since) db) in
  Ok {| Ticker := ticker;
        earliest_date := match earliest_date with Some s => s | None => EmptyString end;
        latest_date := match latest_date with Some s => s | None => EmptyString end;
        record_count := record_count;
        date_range_days := date_range_days;
        expected_records := expected_records;
        completeness := completeness;
        recent_count := recent_count |}.

Definition analysis_body (conn : connection) (now : datetime)
  : result (list ticker_entry) :=
  db <- conn ;;
  DbStats.for_each (ticker_analysis db now) (distinct_tickers db).

(** [analyze_database()] *)
Definition analyze_database (conn : connection) (now : datetime) : bool :=
  is_ok (analysis_body conn now).

End AnalyzeDb.

(* ================================================================== *)
(** ** db_tests/clean_database.py *)

Module CleanDatabase.
Import Sql.

(** The [try] block of [delete_ticker_data]: the count it returns and the
    table left behind after [conn.commit()]. *)
Definition delete_body (conn : connection) (ticker : option string)
  : result (Z * table) :=
  db <- conn ;;
  let count_before := count (where_ticker ticker db) in
  let db' := delete_where_ticker ticker db in
  let count_after := count (where_ticker ticker db') in
  let deleted_count := count_before - count_after in
  Ok (deleted_count, db').

(** [delete_ticker_data(ticker)]: the returned count, and what the next
    [get_db_connection] will give. *)
Definition delete_ticker_data (conn : connection) (ticker : option string)
  : Z * connection :=
  match delete_body conn ticker with
  | Ok (deleted_count, db') => (deleted_count, Ok db')
  | Raise _ => (0, conn)
  end.

(** The rows [cursor.fetchall()] returns for the NULL check:
    [(ticker, date, count)] per group. *)
Definition null_records (db : table) : list (group_key * Z) :=
  group_count (filter has_null db).

Definition check_body (conn : connection) : result bool :=
  db <- conn ;;
  Ok (match null_records db with
      | _ :: _ => false
      | [] => true
      end).

(** [check_for_null_values()] *)
Definition check_for_null_values (conn : connection) : bool :=
  match check_body conn with
  | Ok b => b
  | Raise _ => false
  end.

End CleanDatabase.

(* ================================================================== *)
(** ** src/data_acquisition/fetch_data.py *)

Module FetchData.

(** A decoded JSON document, as [response.json()] returns it. *)
#[local] Unset Elimination Schemes.
Inductive json : Type :=
| JNull
| JBool (b : bool)
| JNumber (q : Q)
| JString (s : string)
| JArray (items : list json)
| JObject (members : list (string * json)).
#[local] Set Elimination Schemes.

Record AlphaVantageAPI : Type := mkClient {
  api_key : string;
  base_url : string;
  output_format : string;
  rate_limit : Z
}.

(** The GET request: URL and query parameters. *)
Record request : Type := mkRequest {
  url : string;
  param_function : string;
  param_symbol : string;
  param_outputsize : string;
  param_apikey : string;
  param_datatype : string
}.

(** What [requests.get] meets: no response at all, or a status code and a
    body, which is a JSON document or not ([None]). *)
Inductive reply : Type :=
| NoResponse
| Response (status_code : Z) (body : option json).

Definition network : Type := request -> reply.

Definition requests_get (net : network) (req : request) : result (Z * option json) :=
  match net req with
  | NoResponse => Raise RequestException
  | Response status body => Ok (status, body)
  end.

(** [response.raise_for_status()]: [HTTPError], a [RequestException], on 4xx and 5xx. *)
Definition raise_for_status (status : Z) : result unit :=
  if (400 <=? status) && (status <? 600) then Raise RequestException else Ok tt.

(** [response.json()] *)
Definition response_json (body : option json) : result json :=
  match body with
  | Some data => Ok data
  | None => Raise JSONDecodeError
  end.

Definition Error_Message : string := "Error Message".

Definition is_string (s : string) (v : json) : bool :=
  match v with
  | JString s' => String.eqb s s'
  | _ => false
  end.

(** [key in data] for the Python value of a JSON document. *)
Definition py_in (key : string) (data : json) : result bool :=
  match data with
  | JObject members => Ok (existsb (fun kv => String.eqb key (fst kv)) members)
  | JArray items => Ok (existsb (is_string key) items)
  | JString s =>
      Ok (match String.index 0 key s with Some _ => true | None => false end)
  | JNull | JBool _ | JNumber _ => Raise TypeError
  end.

(** [data[key]], evaluated after [key in data] held. *)
Definition py_getitem (key : string) (data : json) : result json :=
  match data with
  | JObject members =>
      match find (fun kv => String.eqb key (fst kv)) members with
      | Some kv => Ok (snd kv)
      | None => Raise TypeError
      end
  | _ => Raise TypeError
  end.

Definition build_request (self : AlphaVantageAPI) (symbol outputsize : string)
  : request :=
  {| url := base_url self;
     param_function := "TIME_SERIES_DAILY";
     param_symbol := symbol;
     param_outputsize := outputsize;
     param_apikey := api_key self;
     param_datatype := output_format self |}.

(** The [try] block of [get_daily_time_series]; [None] is Python's [None]. *)
Definition fetch_body (net : network) (self : AlphaVantageAPI)
  (symbol outputsize : string) : result (option json) :=
  resp <- requests_get net (build_request self symbol outputsize) ;;
  _ <- raise_for_status (fst resp) ;;
  data <- response_json (snd resp) ;;
  has_error <- py_in Error_Message data ;;
  if has_error : bool then
    _ <- py_getitem Error_Message data ;;
    Ok None
  else Ok (Some data).

(** [get_daily_time_series(symbol, outputsize)] with its three [except]
    clauses; a [Raise] here is an exception leaving the method. *)
Definition get_daily_time_series (net : network) (self : AlphaVantageAPI)
  (symbol outputsize : string) : result (option json) :=
  match fetch_body net self symbol outputsize with
  | Ok data => Ok data
  | Raise RequestException => Ok None
  | Raise JSONDecodeError => Ok None
  | Raise _ => Ok None
  end.

(** The four ways a fetch fails, as the interface description lists them. *)
Inductive fetch_failure : reply -> Prop :=
| network_failure : fetch_failure NoResponse
| http_error_status status body :
    400 <= status < 600 -> fetch_failure (Response status body)
| malformed_json status : fetch_failure (Response status None)
| api_error_message status members :
    In Error_Message (map fst members) ->
    fetch_failure (Response status (Some (JObject members))).

End FetchData.

(* ================================================================== *)
(** ** db_tests/db_stats.py: the display in batches of seven tickers *)

Module Batches.
Import Sql.

Definition batch_size : Z := 7.

(** [len(range(lo, hi, step))] for a positive step, as CPython computes it. *)
Definition range_len (lo hi step : Z) : Z :=
  if lo <? hi then 1 + (hi - 1 - lo) / step else 0.

(** [range(lo, hi, step)] *)
Definition py_range (lo hi step : Z) : list Z :=
  map (fun k => lo + Z.of_nat k * step) (seq 0 (Z.to_nat (range_len lo hi step))).

(** [l[a:b]] for [0 <= a <= b]: the bounds are clipped to the list. *)
Definition slice {A : Type} (l : list A) (a b : Z) : list A :=
  firstn (Z.to_nat (b - a)) (skipn (Z.to_nat a) l).

(** [series.isin(values)] on the ticker column. *)
Definition isin (t : option string) (values : list (option string)) : bool :=
  existsb (opt_eqb t) values.

(** What one turn of the display loop shows: the two numbers of the title
    [BATCH n/of], the tickers of the batch, the rows selected for the two
    tables, and whether the separator line follows. *)
Record batch (entry : Type) : Type := mkBatch {
  batch_no : Z;
  batch_of : Z;
  batch_tickers : list (option string);
  batch_df : list entry;
  separator : bool
}.

Arguments mkBatch {entry}.
Arguments batch_no {entry}.
Arguments batch_of {entry}.
Arguments batch_tickers {entry}.
Arguments batch_df {entry}.
Arguments separator {entry}.

(** The loop [for i in range(0, len(tickers), batch_size)] (lines 126-152);
    [df] is the data frame built from [ticker_stats], [Ticker] its column. *)
Definition display_batches {entry : Type} (Ticker : entry -> option string)
  (tickers : list (option string)) (df : list entry) : list (batch entry) :=
  let n := Z.of_nat (List.length tickers) in
  map (fun i =>
         let batch_tickers := slice tickers i (i + batch_size) in
         {| batch_no := i / batch_size + 1;
            batch_of := (n - 1) / batch_size + 1;
            batch_tickers := batch_tickers;
            batch_df := filter (fun e => isin (Ticker e) batch_tickers) df;
            separator := i + batch_size <? n |})
      (py_range 0 n batch_size).

End Batches.

(* ================================================================== *)
(** ** Orders on ticker lists *)

Module TickerOrder.
Import Sql.

(** Strictly ascending in the order of [ORDER BY ticker]: NULL first, then
    TEXT bytewise; in particular without repetition. *)
Definition ascending (l : list (option string)) : Prop :=
  StronglySorted (fun a b => sql_compare a b = Lt) l.

End TickerOrder.

(* ================================================================== *)
(** ** Documents that [get_daily_time_series] hands back *)

Module FetchAccept.
Import FetchData.

(** The Python test ['Error Message' in data] is defined and false: a dict
    without that key, a list without that string, or a string that does not
    contain it. *)
Definition accepted (data : json) : Prop :=
  match data with
  | JObject members => ~ In Error_Message (map fst members)
  | JArray items => ~ In (JString Error_Message) items
  | JString s => String.index 0 Error_Message s = None
  | JNull | JBool _ | JNumber _ => False
  end.

End FetchAccept.

(* ================================================================== *)
(** ** db_tests/clean_database.py: [analyze_tickers] and the script body *)

Module CleanupScript.
Import Sql CleanDatabase.

(** One dictionary of [ticker_data]. *)
Record ticker_line : Type := mkLine {
  Ticker : option string;
  First_Date : option string;
  Last_Date : option string;
  Total_Records : Z
}.

(** Body of [for ticker in tickers:] (lines 124-152). *)
Definition ticker_line_of (db : table) (ticker : option string)
  : result ticker_line :=
  let rows := where_ticker ticker db in
  earliest_date <- AnalyzeDb.fetchone_date (order_by_date ASC rows) ;;
  latest_date <- AnalyzeDb.fetchone_date (order_by_date DESC rows) ;;
  Ok {| Ticker := ticker;
        First_Date := earliest_date;
        Last_Date := latest_date;
        Total_Records := count rows |}.

Definition AAPL : option string := Some "AAPL"%string.

(** [x in tickers] on a Python list. *)
Definition py_in_list (x : option string) (l : list (option string)) : bool :=
  existsb (opt_eqb x) l.

(** The [try] block of [analyze_tickers]: the lines of the table and the
    value returned, [len(tickers)]. *)
Definition analyze_tickers_body (conn : connection)
  : result (list ticker_line * Z) :=
  db <- conn ;;
  let tickers := distinct_tickers db in
  ticker_data <- DbStats.for_each (ticker_line_of db) tickers ;;
  Ok (ticker_data, Z.of_nat (List.length tickers)).

(** [analyze_tickers()] *)
Definition analyze_tickers (conn : connection) : Z :=
  match analyze_tickers_body conn with
  | Ok (_, n) => n
  | Raise _ => 0
  end.

(** Which of the two AAPL messages [analyze_tickers] prints, if it gets that
    far: [Some true] for the warning that AAPL is still in the database. *)
Definition aapl_warning (conn : connection) : option bool :=
  match conn with
  | Ok db => Some (py_in_list AAPL (distinct_tickers db))
  | Raise _ => None
  end.

(** What the script body (lines 168-192) computes. *)
Record cleanup : Type := mkCleanup {
  deleted_count : Z;
  no_nulls : bool;
  ticker_count : Z;
  warning : option bool;
  successful : bool
}.

Definition main (conn : connection) : cleanup :=
  let deleted := delete_ticker_data conn AAPL in
  let conn1 := snd deleted in
  let no_nulls := check_for_null_values conn1 in
  let ticker_count := analyze_tickers conn1 in
  {| deleted_count := fst deleted;
     no_nulls := no_nulls;
     ticker_count := ticker_count;
     warning := aapl_warning conn1;
     successful := (ticker_count =? 21) && no_nulls |}.

(** Sum of the counts of the groups a grouped query returns. *)
Definition total_of (groups : list (group_key * Z)) : Z :=
  fold_right Z.add 0 (map snd groups).

End CleanupScript.

(* ================================================================== *)
(** ** Whole-store reports *)

Module StoreReports.
Import Datetime Sql DbStats Batches.

(** A store that holds at least one record and only valid price records. *)
Definition valid_store (db : table) : bool :=
  match db with
  | [] => false
  | _ => forallb valid_row db
  end.

(** The volumes of every ticker listed can be summed. *)
Definition volumes_fit_store (db : table) : bool :=
  forallb (fun t => volumes_fit t db) (distinct_tickers db).

Definition sum_Z (l : list Z) : Z := fold_right Z.add 0 l.

(** What [get_database_statistics] needs of a ticker's records: some record
    has a date, the dates present are ISO 8601 days, and each of the columns
    whose aggregate is formatted has a value in some record. *)
Definition dated_history (ticker : option string) (db : table) : bool :=
  let rows := where_ticker ticker db in
  existsb (fun r => negb (is_null (date r))) rows
  && forallb (fun r => match date r with
                       | Some s => iso_date s
                       | None => true
                       end) rows
  && negb (agg_is_null close rows) && negb (agg_is_null high rows)
  && negb (agg_is_null low rows) && negb (agg_is_null volume rows).

(** The [try] block of [get_database_statistics] through its display loop
    (lines 24-152): the batches of tables printed. *)
Definition statistics_display (conn : connection) (now : datetime)
  : result (list (batch ticker_entry)) :=
  db <- conn ;;
  ticker_stats <- statistics_body conn now ;;
  Ok (display_batches DbStats.Ticker (distinct_tickers db) ticker_stats).

End StoreReports.

(* ================================================================== *)
(** ** Days as the filters of the reports see them *)

Module Calendar.
Import Datetime Sql.

(** [p] holds of the [n] integers from [o] on. *)
Fixpoint all_from (n : nat) (o : Z) (p : Z -> bool) : bool :=
  match n with
  | O => true
  | S k => p o && all_from k (o + 1) p
  end.

(** The record's date parses to a day numbered [o] or later. *)
Definition dated_from (o : Z) (r : row) : bool :=
  match strptime (date r) with
  | Ok d => o <=? toordinal d
  | Raise _ => false
  end.

End Calendar.

(* ================================================================== *)
(** ** src/utils/file_io.py and the client of fetch_data.py:
    [load_yaml_config], [AlphaVantageAPI.__init__], [test_alpha_vantage_api] *)

Module ApiClient.
Import FetchData.

(** The exceptions these functions can meet. *)
Inductive error : Type :=
| E_Exception        (* raised by [load_yaml_config] for any failure *)
| E_KeyError
| E_TypeError
| E_AttributeError
| E_IndexError
| E_OSError.

Inductive outcome (A : Type) : Type :=
| Returns (a : A)
| Raises (e : error).

Arguments Returns {A} a.
Arguments Raises {A} e.

Definition and_then {A B : Type} (o : outcome A) (k : A -> outcome B) : outcome B :=
  match o with
  | Returns a => k a
  | Raises e => Raises e
  end.

Notation "x <-- o ;; k" := (and_then o (fun x => k))
  (at level 61, o at next level, right associativity).

(** A decoded YAML document: the same Python values as a JSON document. *)
Definition yaml : Type := json.

(** Opening a path and parsing it with [yaml.safe_load]: [None] when either
    fails.  An empty file parses to Python's [None], here [JNull]. *)
Definition filesystem : Type := string -> option yaml.

(** [load_yaml_config(config_path)]: every failure becomes a plain
    [Exception]. *)
Definition load_yaml_config (fs : filesystem) (config_path : string)
  : outcome yaml :=
  match fs config_path with
  | Some doc => Returns doc
  | None => Raises E_Exception
  end.

(** [d[key]] on a Python dict built from [members]: a later pair with the
    same key replaces an earlier one. *)
Fixpoint dict_get (key : string) (members : list (string * json)) : option json :=
  match members with
  | [] => None
  | (k, v) :: rest =>
      match dict_get key rest with
      | Some v' => Some v'
      | None => if String.eqb key k then Some v else None
      end
  end.

(** [v[key]] for a string [key]. *)
Definition subscript (v : json) (key : string) : outcome json :=
  match v with
  | JObject members =>
      match dict_get key members with
      | Some x => Returns x
      | None => Raises E_KeyError
      end
  | _ => Raises E_TypeError
  end.

(** The attributes [__init__] sets, as the Python values they are. *)
Record instance : Type := mkInstance {
  self_api_key : json;
  self_base_url : json;
  self_output_format : json;
  self_rate_limit : json
}.

Definition default_config_path : string := "configs/data_sources.yaml".

(** [AlphaVantageAPI.__init__(api_key, config_path)] (lines 16-41); the
    [except] clause logs and raises the exception again. *)
Definition init (fs : filesystem) (api_key config_path : option string)
  : outcome instance :=
  let config_path :=
    match config_path with
    | None => default_config_path
    | Some p => p
    end in
  match api_key with
  | None =>
      config <-- load_yaml_config fs config_path ;;
      api_keys <-- subscript config "api_keys" ;;
      key <-- subscript api_keys "alpha_vantage" ;;
      section1 <-- subscript config "alpha_vantage" ;;
      base_url <-- subscript section1 "base_url" ;;
      section2 <-- subscript config "alpha_vantage" ;;
      output_format <-- subscript section2 "output_format" ;;
      section3 <-- subscript config "alpha_vantage" ;;
      rate_limit <-- subscript section3 "max_calls_per_minute" ;;
      Returns (mkInstance key base_url output_format rate_limit)
  | Some k =>
      Returns (mkInstance (JString k)
                 (JString "https://www.alphavantage.co/query")
                 (JString "json") (JNumber (5 # 1)))
  end.

(** The request [get_daily_time_series] sends for an instance whose
    attributes are strings. *)
Definition request_of (self : instance) (symbol outputsize : string)
  : option request :=
  match self_api_key self, self_base_url self, self_output_format self with
  | JString k, JString u, JString f =>
      Some (build_request (mkClient k u f 0) symbol outputsize)
  | _, _, _ => None
  end.

Definition Time_Series : string := "Time Series (Daily)".

(** [key in data], with the exception Python raises on a non-container. *)
Definition contains (key : string) (data : json) : outcome bool :=
  match py_in key data with
  | Ok b => Returns b
  | Raise _ => Raises E_TypeError
  end.

(** [list(v.keys())[0]] *)
Definition first_key (v : json) : outcome string :=
  match v with
  | JObject [] => Raises E_IndexError
  | JObject ((k, _) :: _) => Returns k
  | _ => Raises E_AttributeError
  end.

(** The [try] block of [test_alpha_vantage_api] (lines 96-136).  [fetch] is
    what [client.get_daily_time_series(ticker)] returns ([None] also stands
    for an exception leaving the call: the test answers both with [False]),
    [save] the outcome of creating [data/raw] and writing the sample file. *)
Definition test_body (fs : filesystem)
  (fetch : instance -> string -> option json)
  (save : json -> outcome unit) (ticker : string) : outcome bool :=
  client <-- init fs None None ;;
  match fetch client ticker with
  | None => Returns false
  | Some data =>
      present <-- contains Time_Series data ;;
      if negb present then Returns false
      else
        time_series <-- subscript data Time_Series ;;
        latest_date <-- first_key time_series ;;
        latest_data <-- subscript time_series latest_date ;;
        _ <-- subscript latest_data "1. open" ;;
        _ <-- subscript latest_data "2. high" ;;
        _ <-- subscript latest_data "3. low" ;;
        _ <-- subscript latest_data "4. close" ;;
        _ <-- subscript latest_data "5. volume" ;;
        _ <-- save data ;;
        Returns true
  end.

(** [test_alpha_vantage_api(ticker)] *)
Definition test_alpha_vantage_api (fs : filesystem)
  (fetch : instance -> string -> option json)
  (save : json -> outcome unit) (ticker : string) : bool :=
  match test_body fs fetch save ticker with
  | Returns b => b
  | Raises _ => false
  end.

(** The method call of the test, for a network [net]: defined for instances
    whose attributes are strings. *)
Definition fetch_over (net : network) (self : instance) (ticker : string)
  : option (option json) :=
  match self_api_key self, self_base_url self, self_output_format self with
  | JString k, JString u, JString f =>
      match get_daily_time_series net (mkClient k u f 0) ticker "compact" with
      | Ok v => Some v
      | Raise _ => None
      end
  | _, _, _ => None
  end.

(** The five fields of a day that the test logs. *)
Definition day_fields : list string :=
  ["1. open"; "2. high"; "3. low"; "4. close"; "5. volume"]%string.

End ApiClient.

(* ================================================================== *)
(** ** A sample configuration and reply for the client *)

Module ClientSamples.
Import FetchData ApiClient.

Definition demo_config : yaml :=
  JObject
    [("api_keys", JObject [("alpha_vantage", JString "KEY")]);
     ("alpha_vantage",
      JObject [("base_url", JString "https://www.alphavantage.co/query");
               ("output_format", JString "json");
               ("max_calls_per_minute", JNumber (5 # 1))])]%string.

Definition demo_fs : filesystem :=
  fun path => if String.eqb path default_config_path then Some demo_config else None.

Definition demo_day : json :=
  JObject
    [("1. open", JString "189.61"); ("2. high", JString "192.57");
     ("3. low", JString "189.12"); ("4. close", JString "192.25");
     ("5. volume", JString "75158277")]%string.

Definition demo_members : list (string * json) :=
  [("Meta Data", JObject [("2. Symbol", JString "AAPL")]);
   ("Time Series (Daily)", JObject [("2024-05-31", demo_day)])]%string.

Definition demo_net : network :=
  fun _ => Response 200 (Some (JObject demo_members)).

Definition demo_fetch (self : instance) (ticker : string) : option json :=
  match fetch_over demo_net self ticker with
  | Some v => v
  | None => None
  end.

Definition demo_save (data : json) : outcome unit := Returns tt.

End ClientSamples.

(* ================================================================== *)
(** ** src/utils/logger.py: [setup_logger] *)

Module Logger.

(** The handlers the function creates, with the format string of their
    formatter.  Two calls create distinct handler objects, so a list may hold
    the same description more than once. *)
Inductive handler : Type :=
| FileHandler (filename fmt : string)
| StreamHandler (fmt : string).

Record logger_state : Type := mkLogger {
  level : Z;
  handlers : list handler
}.

(** The loggers of the [logging] module by name; [getLogger] creates a logger
    on first use, with level [NOTSET] and no handler. *)
Definition registry : Type := string -> logger_state.

Definition NOTSET : Z := 0.
Definition INFO : Z := 20.
Definition WARNING : Z := 30.

Definition root : string := "root".

(** [logging.getLogger(name)]: the empty name is the root logger. *)
Definition getLogger (name : string) : string :=
  if String.eqb name "" then root else name.

Definition initial : registry :=
  fun key => if String.eqb key root then mkLogger WARNING [] else mkLogger NOTSET [].

Definition update (reg : registry) (key : string) (st : logger_state) : registry :=
  fun k => if String.eqb k key then st else reg k.

Definition setLevel (reg : registry) (key : string) (lvl : Z) : registry :=
  update reg key (mkLogger lvl (handlers (reg key))).

Definition addHandler (reg : registry) (key : string) (h : handler) : registry :=
  update reg key (mkLogger (level (reg key)) (handlers (reg key) ++ [h])).

(** [os.path.dirname] of [posixpath]: the path up to its last separator,
    without trailing separators unless it consists of separators only. *)
Definition sep : ascii := "/"%char.

Fixpoint cut (p : string) : option string :=
  match p with
  | EmptyString => None
  | String c r =>
      match cut r with
      | Some h => Some (String c h)
      | None => if Ascii.eqb c sep then Some (String c EmptyString) else None
      end
  end.

Fixpoint all_sep (s : string) : bool :=
  match s with
  | EmptyString => true
  | String c r => Ascii.eqb c sep && all_sep r
  end.

Fixpoint rstrip (s : string) : string :=
  match s with
  | EmptyString => EmptyString
  | String c r =>
      match rstrip r with
      | EmptyString => if Ascii.eqb c sep then EmptyString else String c EmptyString
      | r' => String c r'
      end
  end.

Definition dirname (p : string) : string :=
  let head := match cut p with Some h => h | None => EmptyString end in
  if negb (String.eqb head "") && negb (all_sep head) then rstrip head else head.

Fixpoint has_sep (p : string) : bool :=
  match p with
  | EmptyString => false
  | String c r => Ascii.eqb c sep || has_sep r
  end.

(** What the operating system answers: whether the directory can be created
    or exists, and whether the file can be opened for appending. *)
Record os_answers : Type := mkOs {
  makedirs_ok : string -> bool;
  open_ok : string -> bool
}.

Inductive raised : Type :=
| FileNotFoundError
| OSError.

(** [os.makedirs(dir, exist_ok=True)]; the empty path names no directory. *)
Definition makedirs (os : os_answers) (dir : string) : option raised :=
  if String.eqb dir "" then Some FileNotFoundError
  else if makedirs_ok os dir then None
  else Some OSError.

(** [logging.FileHandler(log_file)] opens the file at once. *)
Definition open_log (os : os_answers) (log_file : string) : option raised :=
  if open_ok os log_file then None else Some OSError.

Definition FORMAT : string :=
  "%(asctime)s - %(name)s - %(levelname)s - %(message)s".

(** [setup_logger(name, log_file, level)]: the registry afterwards and the
    logger returned, by its name, or the exception raised. *)
Definition setup_logger (os : os_answers) (reg : registry)
  (name log_file : string) (lvl : Z) : registry * (string + raised) :=
  let logger := getLogger name in
  let reg := setLevel reg logger lvl in
  match makedirs os (dirname log_file) with
  | Some e => (reg, inr e)
  | None =>
      match open_log os log_file with
      | Some e => (reg, inr e)
      | None =>
          let file_handler := FileHandler log_file FORMAT in
          let console_handler := StreamHandler FORMAT in
          let reg := addHandler reg logger file_handler in
          let reg := addHandler reg logger console_handler in
          (reg, inl logger)
      end
  end.

(** [n] calls in a row with the same arguments. *)
Fixpoint setup_again (n : nat) (os : os_answers) (reg : registry)
  (name log_file : string) (lvl : Z) : registry :=
  match n with
  | O => reg
  | S m => setup_again m os (fst (setup_logger os reg name log_file lvl))
             name log_file lvl
  end.

(** The module's own call: [logger = setup_logger()]. *)
Definition default_name : string := "trading_signal_ai".
Definition default_log_file : string := "logs/pipeline.log".

Definition friendly_os : os_answers := mkOs (fun _ => true) (fun _ => true).

End Logger.

(* ================================================================== *)
(** ** The error taxonomy of the specification *)

Module SpecErrors.
Import Datetime Sql.

(** The specification's [EmptyInputError], in its words: coverage requested
    for a ticker with zero records.  An exception of the per-ticker
    computations is that error when it reports an empty record sequence, that
    is, when no ticker with records raises it. *)
Definition spec_EmptyInputError (e : exn) : Prop :=
  forall (db : table) (now : datetime) (t : option string),
    DbStats.ticker_statistics db now t = Raise e \/
    AnalyzeDb.ticker_analysis db now t = Raise e ->
    where_ticker t db = [].

End SpecErrors.

(* ================================================================== *)
(** ** Sample stores *)

Module Samples.
Import Datetime Sql.

Definition price_row (t d : string) : row :=
  mkRow (Some t) (Some d) (Some (10 # 1)) (Some (12 # 1)) (Some (9 # 1))
        (Some (11 # 1)) (Some 1000).

(** Three consecutive days for XYZ, one day for ABC. *)
Definition xyz_db : table :=
  [ price_row "XYZ" "2024-01-02";
    price_row "XYZ" "2024-01-03";
    price_row "ABC" "2024-01-02";
    price_row "XYZ" "2024-01-04" ].

(** One row whose [close] is NULL. *)
Definition abc_null_db : table :=
  [ price_row "XYZ" "2022-05-01";
    mkRow (Some "ABC"%string) (Some "2022-05-01"%string) (Some (10 # 1))
          (Some (12 # 1)) (Some (9 # 1)) None (Some 1000) ].

(** A row without ticker: [SELECT DISTINCT ticker] lists NULL, and no row
    satisfies [ticker = NULL]. *)
Definition orphan_db : table :=
  [ mkRow None (Some "2024-01-02"%string) (Some (10 # 1)) (Some (12 # 1))
          (Some (9 # 1)) (Some (11 # 1)) (Some 1000) ].

Definition today : datetime := mkDate 2024 6 1.

(** One XYZ record whose date is NULL. *)
Definition dateless_db : table :=
  [ mkRow (Some "XYZ"%string) None (Some (10 # 1)) (Some (12 # 1))
          (Some (9 # 1)) (Some (11 # 1)) (Some 1000) ].

(** Two valid XYZ records whose volumes are 2^62 each. *)
Definition heavy_db : table :=
  [ mkRow (Some "XYZ"%string) (Some "2024-01-02"%string) (Some (10 # 1))
          (Some (12 # 1)) (Some (9 # 1)) (Some (11 # 1))
          (Some 4611686018427387904);
    mkRow (Some "XYZ"%string) (Some "2024-01-03"%string) (Some (10 # 1))
          (Some (12 # 1)) (Some (9 # 1)) (Some (11 # 1))
          (Some 4611686018427387904) ].

(** The XYZ records and one more XYZ record whose date is NULL. *)
Definition undated_db : table :=
  mkRow (Some "XYZ"%string) None (Some (10 # 1)) (Some (12 # 1)) (Some (9 # 1))
        (Some (11 # 1)) (Some 1000)
  :: xyz_db.

(** A client built with an explicit key, and a server that answers every
    request with an API error. *)
Definition demo_client : FetchData.AlphaVantageAPI :=
  FetchData.mkClient "demo" "https://www.alphavantage.co/query" "json" 5.

Definition demo_error_net : FetchData.network :=
  fun _ =>
    FetchData.Response 200
      (Some (FetchData.JObject [("Error Message"%string, FetchData.JString "Invalid API call.")])).

End Samples.

(* ================================================================== *)
(** ** Lemmas on rounding *)

Module Float64Facts.
Import Float64.

Lemma rnd_even_err (n m : Z) :
  0 < m -> - m <= 2 * (rnd_even n m * m - n) <= m.
Proof.
  intros Hm. unfold rnd_even.
  pose proof (Z.div_mod n m ltac:(lia)) as Hdm.
  pose proof (Z.mod_pos_bound n m Hm) as Hr.
  destruct (2 * (n mod m) <? m) eqn:E1.
  - apply Z.ltb_lt in E1. nia.
  - apply Z.ltb_ge in E1.
    destruct (m <? 2 * (n mod m)) eqn:E2.
    + apply Z.ltb_lt in E2. nia.
    + apply Z.ltb_ge in E2. destruct (Z.even (n / m)); nia.
Qed.

Lemma rnd_even_exact (j m : Z) :
  0 < m -> rnd_even (j * m) m = j.
Proof.
  intros Hm. unfold rnd_even.
  rewrite Z.mod_mul by lia. rewrite Z.div_mul by lia.
  replace (2 * 0 <? m) with true by (symmetry; apply Z.ltb_lt; lia).
  reflexivity.
Qed.

Lemma flog2_lower (n m : Z) :
  0 < n -> 0 < m ->
  (0 <= flog2 n m -> m * 2 ^ flog2 n m <= n) /\
  (flog2 n m < 0 -> m <= n * 2 ^ (- flog2 n m)).
Proof.
  intros Hn Hm. unfold flog2.
  destruct (m <=? n) eqn:E.
  - apply Z.leb_le in E.
    assert (Hq : 0 < n / m) by (apply Z.div_str_pos; lia).
    pose proof (Z.log2_spec (n / m) Hq) as [Hlo _].
    pose proof (Z.log2_nonneg (n / m)) as Hnn.
    split; [intros _ | lia].
    pose proof (Z.mul_div_le n m Hm). nia.
  - apply Z.leb_gt in E.
    set (c := (m + n - 1) / n).
    assert (Hc : 1 < c).
    { unfold c. apply Z.lt_le_trans with (2 * n / n).
      - rewrite Z.div_mul by lia. lia.
      - apply Z.div_le_mono; lia. }
    pose proof (Z.log2_up_spec c Hc) as [_ Hup].
    pose proof (Z.log2_up_pos c Hc) as Hpos.
    split; [lia | intros _].
    rewrite Z.opp_involutive.
    assert (Hceil : m <= n * c).
    { unfold c. pose proof (Z.div_mod (m + n - 1) n ltac:(lia)).
      pose proof (Z.mod_pos_bound (m + n - 1) n Hn). lia. }
    nia.
Qed.

Lemma flog2_upper (n m : Z) :
  0 < n -> 0 < m ->
  (0 <= flog2 n m -> n < m * 2 ^ (flog2 n m + 1)) /\
  (flog2 n m < 0 -> n * 2 ^ (- flog2 n m - 1) < m).
Proof.
  intros Hn Hm. unfold flog2.
  destruct (m <=? n) eqn:E.
  - apply Z.leb_le in E.
    assert (Hq : 0 < n / m) by (apply Z.div_str_pos; lia).
    pose proof (Z.log2_spec (n / m) Hq) as [_ Hhi].
    pose proof (Z.log2_nonneg (n / m)) as Hnn.
    split; [intros _ | lia].
    rewrite <- Z.add_1_r in Hhi.
    pose proof (Z.div_mod n m ltac:(lia)).
    pose proof (Z.mod_pos_bound n m Hm). nia.
  - apply Z.leb_gt in E.
    set (c := (m + n - 1) / n).
    assert (Hc : 1 < c).
    { unfold c. apply Z.lt_le_trans with (2 * n / n).
      - rewrite Z.div_mul by lia. lia.
      - apply Z.div_le_mono; lia. }
    pose proof (Z.log2_up_spec c Hc) as [Hlo _].
    pose proof (Z.log2_up_pos c Hc) as Hpos.
    split; [lia | intros _].
    replace (- - Z.log2_up c - 1) with (Z.pred (Z.log2_up c)) by lia.
    assert (Hceil : n * (c - 1) < m).
    { unfold c. pose proof (Z.div_mod (m + n - 1) n ltac:(lia)).
      pose proof (Z.mod_pos_bound (m + n - 1) n Hn). lia. }
    nia.
Qed.

(** The significand that [round_pos] scales has 53 bits: it lies between
    [2^52] and [2^53], so [round_pos] rounds to binary64 precision. *)
Lemma round_pos_significand (n m : Z) :
  0 < n -> 0 < m ->
  exists k, 4503599627370496 <= k <= 9007199254740992 /\
            round_pos n m = scale2 k (flog2 n m - 52).
Proof.
  intros Hn Hm.
  pose proof (flog2_lower n m Hn Hm) as [Hge Hlt].
  pose proof (flog2_upper n m Hn Hm) as [Hge' Hlt'].
  unfold round_pos.
  set (e := flog2 n m - 52) in *.
  destruct (0 <=? e) eqn:E.
  - apply Z.leb_le in E.
    exists (rnd_even n (m * 2 ^ e)). split; [|reflexivity].
    specialize (Hge ltac:(lia)). specialize (Hge' ltac:(lia)).
    replace (flog2 n m) with (e + 52) in Hge by (unfold e; lia).
    replace (flog2 n m + 1) with (e + 53) in Hge' by (unfold e; lia).
    rewrite Z.pow_add_r in Hge, Hge' by lia.
    change (2 ^ 52) with 4503599627370496 in Hge.
    change (2 ^ 53) with 9007199254740992 in Hge'.
    assert (HM : 0 < m * 2 ^ e).
    { apply Z.mul_pos_pos; [lia | apply Z.pow_pos_nonneg; lia]. }
    pose proof (rnd_even_err n (m * 2 ^ e) HM) as Herr.
    remember (rnd_even n (m * 2 ^ e)) as k eqn:Hk. clear Hk.
    remember (m * 2 ^ e) as M eqn:HeqM.
    replace (m * (2 ^ e * 4503599627370496)) with (M * 4503599627370496)
      in Hge by (subst M; ring).
    replace (m * (2 ^ e * 9007199254740992)) with (M * 9007199254740992)
      in Hge' by (subst M; ring).
    clear HeqM. nia.
  - apply Z.leb_gt in E.
    exists (rnd_even (n * 2 ^ (- e)) m). split; [|reflexivity].
    pose proof (rnd_even_err (n * 2 ^ (- e)) m Hm) as Herr.
    remember (rnd_even (n * 2 ^ (- e)) m) as k eqn:Hk. clear Hk.
    assert (Hrange : 4503599627370496 * m <= n * 2 ^ (- e)
                     /\ n * 2 ^ (- e) < 9007199254740992 * m).
    { destruct (Z_le_gt_dec 0 (flog2 n m)) as [Ht | Ht].
      - specialize (Hge Ht). specialize (Hge' Ht).
        replace (- e) with (52 - flog2 n m) by (unfold e; lia).
        assert (Hp1 : 2 ^ flog2 n m * 2 ^ (52 - flog2 n m) = 4503599627370496).
        { rewrite <- Z.pow_add_r by (unfold e in E; lia).
          replace (flog2 n m + (52 - flog2 n m)) with 52 by lia. reflexivity. }
        assert (Hp2 : 2 ^ (flog2 n m + 1) * 2 ^ (52 - flog2 n m)
                      = 9007199254740992).
        { rewrite <- Z.pow_add_r by (unfold e in E; lia).
          replace (flog2 n m + 1 + (52 - flog2 n m)) with 53 by lia. reflexivity. }
        assert (0 < 2 ^ (52 - flog2 n m))
          by (apply Z.pow_pos_nonneg; unfold e in E; lia).
        split; nia.
      - specialize (Hlt ltac:(lia)). specialize (Hlt' ltac:(lia)).
        replace (- e) with (- flog2 n m + 52) by (unfold e; lia).
        rewrite Z.pow_add_r by lia.
        change (2 ^ 52) with 4503599627370496.
        replace (- flog2 n m) with ((- flog2 n m - 1) + 1) at 2 by lia.
        rewrite (Z.pow_add_r 2 (- flog2 n m - 1) 1) by lia.
        change (2 ^ 1) with 2. split; nia. }
    remember (n * 2 ^ (- e)) as N eqn:HeqN. clear HeqN. nia.
Qed.

(** The significand/denominator pair that [round_pos] rounds, with what
    [flog2_lower] gives about it. *)
Lemma round_pos_cases (n m : Z) :
  0 < n -> 0 < m ->
  let e := flog2 n m - 52 in
  (0 <= e /\ 4503599627370496 * (m * 2 ^ e) <= n /\ 0 < m * 2 ^ e /\
   round_pos n m = ((rnd_even n (m * 2 ^ e) * 2 ^ e) # 1)) \/
  (e < 0 /\ 4503599627370496 * m <= n * 2 ^ (- e) /\ 0 < 2 ^ (- e) /\
   round_pos n m = (rnd_even (n * 2 ^ (- e)) m # Z.to_pos (2 ^ (- e)))).
Proof.
  intros Hn Hm e.
  pose proof (flog2_lower n m Hn Hm) as [Hge Hlt].
  unfold round_pos, scale2. fold e.
  destruct (0 <=? e) eqn:E.
  - apply Z.leb_le in E. left.
    assert (Hp : 0 < 2 ^ e) by (apply Z.pow_pos_nonneg; lia).
    repeat split; try lia; try nia.
    specialize (Hge ltac:(lia)).
    replace (flog2 n m) with (e + 52) in Hge by (unfold e; lia).
    rewrite Z.pow_add_r in Hge by lia.
    change (2 ^ 52) with 4503599627370496 in Hge. lia.
  - apply Z.leb_gt in E. right.
    assert (Hp : 0 < 2 ^ (- e)) by (apply Z.pow_pos_nonneg; lia).
    repeat split; try lia.
    destruct (Z_le_gt_dec 0 (flog2 n m)) as [Ht | Ht].
    + specialize (Hge Ht).
      replace (- e) with (52 - flog2 n m) by (unfold e; lia).
      assert (Hpw : 2 ^ flog2 n m * 2 ^ (52 - flog2 n m) = 4503599627370496).
      { rewrite <- Z.pow_add_r by (unfold e in E; lia).
        replace (flog2 n m + (52 - flog2 n m)) with 52 by lia. reflexivity. }
      assert (0 < 2 ^ (52 - flog2 n m)) by (apply Z.pow_pos_nonneg; unfold e in E; lia).
      nia.
    + specialize (Hlt ltac:(lia)).
      replace (- e) with (- flog2 n m + 52) by (unfold e; lia).
      rewrite Z.pow_add_r by lia.
      change (2 ^ 52) with 4503599627370496. nia.
Qed.

(** One rounding loses at most a relative [2^-53]. *)
Lemma round_pos_bounds (n : Z) (p : positive) :
  0 < n ->
  ((n # p) * (1 - u) <= round_pos n (Zpos p) <= (n # p) * (1 + u))%Q.
Proof.
  intros Hn.
  destruct (round_pos_cases n (Zpos p) Hn ltac:(lia)) as
    [(He & Hlo & HM & ->) | (He & Hlo & HP & ->)].
  - set (e := flog2 n (Zpos p) - 52) in *.
    pose proof (rnd_even_err n (Zpos p * 2 ^ e) HM) as Herr.
    remember (rnd_even n (Zpos p * 2 ^ e)) as k eqn:Hk. clear Hk.
    unfold Qle, u; cbn -[Z.mul Z.pow Z.add Z.sub].
    rewrite !Pos2Z.inj_mul. cbn -[Z.mul Z.pow Z.add Z.sub].
    remember (2 ^ e) as P eqn:HeqP. clear HeqP.
    remember (k * (Zpos p * P)) as K eqn:HK.
    replace (k * P * (Zpos p * 9007199254740992))
      with (K * 9007199254740992) by (subst K; ring).
    clear HK. remember (Zpos p * P) as M eqn:HeqM. clear HeqM.
    split; lia.
  - set (e := flog2 n (Zpos p) - 52) in *.
    pose proof (rnd_even_err (n * 2 ^ (- e)) (Zpos p) ltac:(lia)) as Herr.
    remember (rnd_even (n * 2 ^ (- e)) (Zpos p)) as k eqn:Hk. clear Hk.
    unfold Qle, u; cbn -[Z.mul Z.pow Z.add Z.sub Z.to_pos].
    rewrite !Pos2Z.inj_mul. cbn -[Z.mul Z.pow Z.add Z.sub Z.to_pos].
    rewrite Z2Pos.id by lia.
    remember (2 ^ (- e)) as P eqn:HeqP. clear HeqP.
    remember (n * P) as N eqn:HN.
    replace (n * (1 * 9007199254740992 + -1 * 1) * P)
      with (N * 9007199254740991) by (subst N; ring).
    replace (n * (1 * 9007199254740992 + 1 * 1) * P)
      with (N * 9007199254740993) by (subst N; ring).
    clear HN. remember (k * Zpos p) as K eqn:HK.
    replace (k * (Zpos p * 9007199254740992)) with (K * 9007199254740992)
      by (subst K; ring).
    clear HK. split; lia.
Qed.

Lemma round64_bounds (x : Q) :
  (0 < x)%Q -> (x * (1 - u) <= round64 x <= x * (1 + u))%Q.
Proof.
  destruct x as [n p]. unfold Qlt; cbn. intros Hn.
  destruct n as [|q|q]; try lia.
  unfold round64; cbn [Qnum Qden]. apply round_pos_bounds. lia.
Qed.

Lemma round64_zero (x : Q) : (x == 0)%Q -> round64 x = 0%Q.
Proof.
  destruct x as [n p]. unfold Qeq; cbn. intros Hn.
  assert (n = 0) by lia. subst n. reflexivity.
Qed.

(** Integers below [2^53] are binary64 values: rounding keeps them. *)
Lemma round64_int (x : Q) (j : Z) :
  0 < j < 9007199254740992 -> (x == inject_Z j)%Q -> (round64 x == inject_Z j)%Q.
Proof.
  destruct x as [n p]. unfold Qeq at 1; cbn. intros Hj Hx.
  assert (Hn : 0 < n) by nia.
  destruct n as [|q|q]; try lia.
  unfold round64; cbn [Qnum Qden].
  destruct (round_pos_cases (Zpos q) (Zpos p) Hn ltac:(lia)) as
    [(He & Hlo & HM & ->) | (He & Hlo & HP & ->)].
  - set (e := flog2 (Zpos q) (Zpos p) - 52) in *.
    assert (HP1 : 2 ^ e = 1).
    { assert (0 < 2 ^ e) by (apply Z.pow_pos_nonneg; lia).
      assert (2 ^ e < 2) by nia. lia. }
    rewrite HP1. replace (Zpos q) with (j * (Zpos p * 1)) by lia.
    rewrite rnd_even_exact by lia. unfold Qeq; cbn. lia.
  - set (e := flog2 (Zpos q) (Zpos p) - 52) in *.
    replace (Zpos q * 2 ^ (- e)) with (j * 2 ^ (- e) * Zpos p) by lia.
    rewrite rnd_even_exact by lia. unfold Qeq; cbn.
    rewrite Z2Pos.id by lia. lia.
Qed.

Lemma int_of_float_floor (x : Q) (k : Z) :
  0 <= k -> (inject_Z k <= x)%Q -> (x < inject_Z (k + 1))%Q ->
  int_of_float x = k.
Proof.
  destruct x as [a b]. unfold Qle, Qlt, int_of_float; cbn. intros Hk Hlo Hhi.
  rewrite Z.quot_div_nonneg by nia.
  symmetry. apply Z.div_unique with (a - k * Zpos b); lia.
Qed.

Lemma int_of_float_int (x : Q) (k : Z) :
  (x == inject_Z k)%Q -> int_of_float x = k.
Proof.
  destruct x as [a b]. unfold Qeq, int_of_float; cbn. intros Hx.
  replace a with (k * Zpos b) by lia. apply Z.quot_mul. lia.
Qed.

End Float64Facts.

(* ================================================================== *)
(** ** The fetch never raises *)

Module FetchDataFacts.
Import FetchData.

Lemma existsb_key (key : string) (members : list (string * json)) :
  In key (map fst members) ->
  existsb (fun kv => String.eqb key (fst kv)) members = true.
Proof.
  intros Hin. apply in_map_iff in Hin. destruct Hin as (kv & Hk & Hin).
  apply existsb_exists. exists kv. split; [assumption|].
  apply String.eqb_eq. symmetry. assumption.
Qed.

Lemma find_key (key : string) (members : list (string * json)) :
  In key (map fst members) ->
  exists kv, find (fun kv => String.eqb key (fst kv)) members = Some kv.
Proof.
  induction members as [|kv rest IH]; cbn; [contradiction|].
  intros [Hk | Hin].
  - exists kv. rewrite <- Hk, String.eqb_refl. reflexivity.
  - destruct (String.eqb key (fst kv)); [exists kv; reflexivity | auto].
Qed.

Lemma get_daily_time_series_total net self symbol outputsize :
  exists v, get_daily_time_series net self symbol outputsize = Ok v.
Proof.
  unfold get_daily_time_series.
  destruct (fetch_body net self symbol outputsize) as [v | e].
  - exists v. reflexivity.
  - exists None. destruct e; reflexivity.
Qed.

(** C8: whatever the symbol, [get_daily_time_series] returns a value and lets
    no exception out; when the request gets no response, the status is 4xx or
    5xx, the body is not JSON, or the JSON object has an "Error Message" key,
    the value returned is [None]. *)
Theorem get_daily_time_series_absent
  (net : network) (self : AlphaVantageAPI) (symbol outputsize : string) :
  (exists v, get_daily_time_series net self symbol outputsize = Ok v) /\
  (fetch_failure (net (build_request self symbol outputsize)) ->
   get_daily_time_series net self symbol outputsize = Ok None).
Proof.
  split; [apply get_daily_time_series_total|].
  intros Hfail. unfold get_daily_time_series, fetch_body, requests_get.
  inversion Hfail as [Hn | status body Hst Hn | status Hn | status members Hin Hn];
    cbn [bind fst snd].
  - reflexivity.
  - unfold raise_for_status.
    replace ((400 <=? status) && (status <? 600)) with true; [reflexivity|].
    symmetry. apply andb_true_iff. split; [apply Z.leb_le | apply Z.ltb_lt]; lia.
  - destruct (raise_for_status status) as [[]|e]; cbn [bind];
      [reflexivity | destruct e; reflexivity].
  - destruct (raise_for_status status) as [[]|e]; cbn [bind];
      [|destruct e; reflexivity].
    cbn [response_json py_in py_getitem bind].
    rewrite (existsb_key _ _ Hin).
    destruct (find_key _ _ Hin) as [kv Hkv]. rewrite Hkv. reflexivity.
Qed.

Lemma get_daily_time_series_absent_witness :
  fetch_failure (Samples.demo_error_net (build_request Samples.demo_client "AAPL"%string "compact"%string)) /\
  get_daily_time_series Samples.demo_error_net Samples.demo_client "AAPL"%string "compact"%string = Ok None.
Proof.
  assert (H : fetch_failure (Samples.demo_error_net (build_request Samples.demo_client "AAPL"%string "compact"%string))).
  { apply api_error_message. cbn. left. reflexivity. }
  split; [exact H|].
  exact (proj2 (get_daily_time_series_absent Samples.demo_error_net Samples.demo_client "AAPL"%string "compact"%string) H).
Defined.

End FetchDataFacts.

(* ================================================================== *)
(** ** Grouping and deleting *)

Module SqlFacts.
Import Sql.

Lemma opt_eqb_eq (a b : option string) : opt_eqb a b = true <-> a = b.
Proof.
  destruct a as [x|], b as [y|]; cbn; try (split; congruence).
  rewrite String.eqb_eq. split; congruence.
Qed.

Lemma key_eqb_eq (a b : group_key) : key_eqb a b = true <-> a = b.
Proof.
  destruct a as [a1 a2], b as [b1 b2]. unfold key_eqb; cbn.
  rewrite andb_true_iff, !opt_eqb_eq. split; [intros []|intros [=]]; subst; auto.
Qed.

Lemma key_eqb_refl (a : group_key) : key_eqb a a = true.
Proof. apply key_eqb_eq. reflexivity. Qed.

Lemma key_eqb_neq (a b : group_key) : key_eqb a b = false <-> a <> b.
Proof.
  rewrite <- key_eqb_eq. destruct (key_eqb a b); split; congruence.
Qed.

Lemma bump_keys (k k' : group_key) (g : list (group_key * Z)) :
  In k' (map fst (bump k g)) <-> k' = k \/ In k' (map fst g).
Proof.
  induction g as [|[k0 c] rest IH]; cbn.
  - intuition congruence.
  - destruct (key_eqb k k0) eqn:E; cbn.
    + apply key_eqb_eq in E. subst k0. intuition congruence.
    + rewrite IH. intuition congruence.
Qed.

Lemma bump_NoDup (k : group_key) (g : list (group_key * Z)) :
  NoDup (map fst g) -> NoDup (map fst (bump k g)).
Proof.
  induction g as [|[k0 c] rest IH]; cbn; intros Hnd.
  - constructor; [intros []|constructor].
  - inversion Hnd as [|? ? Hnotin Hrest]; subst.
    destruct (key_eqb k k0) eqn:E; cbn.
    + constructor; assumption.
    + constructor; [|auto].
      rewrite bump_keys. apply key_eqb_neq in E. intuition congruence.
Qed.

Lemma bump_get (k k' : group_key) (g : list (group_key * Z)) :
  group_get k' (bump k g) = group_get k' g + (if key_eqb k k' then 1 else 0).
Proof.
  induction g as [|[k0 c] rest IH]; cbn.
  - destruct (key_eqb k' k) eqn:E1, (key_eqb k k') eqn:E2; try reflexivity.
    + apply key_eqb_eq in E1. subst. rewrite key_eqb_refl in E2. discriminate.
    + apply key_eqb_eq in E2. subst. rewrite key_eqb_refl in E1. discriminate.
  - destruct (key_eqb k k0) eqn:E; cbn.
    + apply key_eqb_eq in E. subst k0.
      destruct (key_eqb k' k) eqn:E1.
      * apply key_eqb_eq in E1. subst. rewrite key_eqb_refl. reflexivity.
      * destruct (key_eqb k k') eqn:E2; [|lia].
        apply key_eqb_eq in E2. subst. rewrite key_eqb_refl in E1. discriminate.
    + destruct (key_eqb k' k0) eqn:E1; [|apply IH].
      apply key_eqb_eq in E1. subst k0.
      rewrite E. lia.
Qed.

Lemma bump_positive (k : group_key) (g : list (group_key * Z)) :
  Forall (fun kc => 0 < snd kc) g -> Forall (fun kc => 0 < snd kc) (bump k g).
Proof.
  induction g as [|[k0 c] rest IH]; cbn; intros Hall.
  - repeat constructor.
  - inversion Hall as [|? ? Hc Hrest]; subst. cbn in Hc.
    destruct (key_eqb k k0); constructor; cbn; auto; lia.
Qed.

Lemma fold_bump (rows : table) (g : list (group_key * Z)) :
  well_grouped g ->
  let g' := fold_left (fun groups r => bump (key_of r) groups) rows g in
  well_grouped g' /\
  forall k, group_get k g' = group_get k g + count (rows_in_group k rows).
Proof.
  revert g. induction rows as [|r rest IH]; intros g [Hnd Hpos]; cbn.
  - split; [split; assumption|]. intros k. unfold count; cbn. lia.
  - destruct (IH (bump (key_of r) g)) as [Hwg Hget].
    { split; [apply bump_NoDup | apply bump_positive]; assumption. }
    split; [exact Hwg|].
    intros k. rewrite Hget, bump_get. unfold rows_in_group, count; cbn.
    destruct (key_eqb (key_of r) k); cbn [List.length]; lia.
Qed.

Lemma In_group_get (g : list (group_key * Z)) (k : group_key) (c : Z) :
  well_grouped g -> (In (k, c) g <-> group_get k g = c /\ 0 < c).
Proof.
  intros [Hnd Hpos]. induction g as [|[k0 c0] rest IH]; cbn.
  - split; [intros [] | lia].
  - inversion Hnd as [|? ? Hnotin Hrest]; subst.
    inversion Hpos as [|? ? Hc0 Hprest]; subst. cbn in Hc0.
    specialize (IH Hrest Hprest).
    destruct (key_eqb k k0) eqn:E.
    + apply key_eqb_eq in E. subst k0. split.
      * intros [[= ->] | Hin]; [split; [reflexivity | assumption]|].
        exfalso. apply Hnotin. apply in_map_iff. exists (k, c). auto.
      * intros [-> _]. left. reflexivity.
    + apply key_eqb_neq in E. rewrite <- IH. split.
      * intros [[= -> ->] | Hin]; [congruence | assumption].
      * auto.
Qed.

Lemma group_count_spec (rows : table) :
  well_grouped (group_count rows) /\
  forall k, group_get k (group_count rows) = count (rows_in_group k rows).
Proof.
  unfold group_count.
  destruct (fold_bump rows []) as [Hwg Hget].
  { split; constructor. }
  split; [exact Hwg|]. intros k. rewrite Hget. reflexivity.
Qed.

Lemma group_count_nil (rows : table) : group_count rows = [] <-> rows = [].
Proof.
  split; [|intros ->; reflexivity].
  destruct rows as [|r rest]; [reflexivity|]. intros Hnil. exfalso.
  destruct (group_count_spec (r :: rest)) as [_ Hget].
  specialize (Hget (key_of r)). rewrite Hnil in Hget. cbn in Hget.
  unfold rows_in_group, count in Hget. cbn in Hget.
  rewrite key_eqb_refl in Hget. cbn [List.length] in Hget. lia.
Qed.

Lemma filter_nil {A : Type} (f : A -> bool) (l : list A) :
  filter f l = [] <-> forall x, In x l -> f x = false.
Proof.
  induction l as [|a l IH]; cbn.
  - split; [intros _ x [] | reflexivity].
  - destruct (f a) eqn:E.
    + split; [discriminate|]. intros H. specialize (H a (or_introl eq_refl)). congruence.
    + rewrite IH. split.
      * intros H x [<- | Hin]; auto.
      * intros H x Hin. apply H. right. assumption.
Qed.

Lemma filter_length_le {A : Type} (f : A -> bool) (l : list A) :
  (List.length (filter f l) <= List.length l)%nat.
Proof.
  induction l as [|a l IH]; cbn; [lia|]. destruct (f a); cbn; lia.
Qed.

End SqlFacts.

(* ================================================================== *)
(** ** clean_database.py: the NULL check and the deletion *)

Module CleanDatabaseFacts.
Import Sql SqlFacts CleanDatabase.

Lemma has_null_false (r : row) : has_null r = false <-> all_fields_populated r.
Proof.
  unfold has_null, all_fields_populated.
  destruct (ticker r), (date r), (open r), (high r), (low r), (close r),
    (volume r); cbn; intuition congruence.
Qed.

Lemma null_records_nil (db : table) :
  null_records db = [] <-> forall r, In r db -> has_null r = false.
Proof.
  unfold null_records. rewrite group_count_nil. apply filter_nil.
Qed.

(** C3: the NULL check reports nothing exactly when every record of the store
    has its seven fields populated; otherwise the incomplete records are
    grouped by (ticker, date): no key is reported twice, and a key is reported
    with count [c] exactly when [c > 0] incomplete records carry it. *)
Theorem null_records_spec (db : table) :
  (null_records db = [] <-> forall r, In r db -> all_fields_populated r) /\
  NoDup (map fst (null_records db)) /\
  (forall k c,
      In (k, c) (null_records db) <->
      c = count (rows_in_group k (filter has_null db)) /\ 0 < c).
Proof.
  split; [|split].
  - rewrite null_records_nil. split; intros H r Hin; apply has_null_false; auto.
  - apply (group_count_spec (filter has_null db)).
  - intros k c. unfold null_records.
    destruct (group_count_spec (filter has_null db)) as [Hwg Hget].
    rewrite (In_group_get _ k c Hwg), Hget. intuition congruence.
Qed.

Lemma check_true_iff (conn : connection) :
  check_for_null_values conn = true <->
  exists db, conn = Ok db /\ forall r, In r db -> has_null r = false.
Proof.
  unfold check_for_null_values, check_body. destruct conn as [db | e]; cbn.
  - destruct (null_records db) eqn:E.
    + split; [intros _ | reflexivity].
      exists db. split; [reflexivity | apply null_records_nil; exact E].
    + split; [discriminate|]. intros (db' & [= <-] & Hall).
      apply null_records_nil in Hall. congruence.
  - split; [discriminate | intros (db & Hdb & _); discriminate].
Qed.

(** C9: [check_for_null_values] answers [False] when the store cannot be
    read, and also when it holds a record with a NULL field; it answers [True]
    only when the store was read and no record has a NULL field.  So [False]
    is returned for a dirty store and for a failed access alike. *)
Theorem check_for_null_values_conflates :
  (forall e, check_for_null_values (Raise e) = false) /\
  (forall db r, In r db -> has_null r = true ->
                check_for_null_values (Ok db) = false) /\
  (forall conn, check_for_null_values conn = true ->
                exists db, conn = Ok db /\ forall r, In r db -> all_fields_populated r) /\
  (forall db, (forall r, In r db -> all_fields_populated r) ->
              check_for_null_values (Ok db) = true) /\
  (exists db e, check_for_null_values (Ok db) = check_for_null_values (Raise e)).
Proof.
  split; [reflexivity|]. split; [|split; [|split]].
  - intros db r Hin Hnull.
    destruct (check_for_null_values (Ok db)) eqn:E; [|reflexivity].
    apply check_true_iff in E. destruct E as (db' & [= <-] & Hall).
    rewrite (Hall r Hin) in Hnull. discriminate.
  - intros conn Htrue. apply check_true_iff in Htrue.
    destruct Htrue as (db & -> & Hall). exists db. split; [reflexivity|].
    intros r Hin. apply has_null_false. auto.
  - intros db Hall. apply check_true_iff. exists db. split; [reflexivity|].
    intros r Hin. apply has_null_false. auto.
  - exists [mkRow None None None None None None None], OperationalError.
    reflexivity.
Qed.

Lemma where_after_delete (t : option string) (db : table) :
  where_ticker t (delete_where_ticker t db) = [].
Proof.
  unfold where_ticker, delete_where_ticker. apply filter_nil.
  intros r Hin. apply filter_In in Hin. destruct Hin as [_ Hneg].
  destruct (sql_eq (ticker r) t); [discriminate | reflexivity].
Qed.

Lemma count_split (t : option string) (db : table) :
  count db = count (where_ticker t db) + count (delete_where_ticker t db).
Proof.
  unfold count, where_ticker, delete_where_ticker.
  induction db as [|r rest IH]; cbn; [reflexivity|].
  destruct (sql_eq (ticker r) t); cbn [negb List.length]; lia.
Qed.

Lemma delete_nothing (t : option string) (db : table) :
  where_ticker t db = [] -> delete_where_ticker t db = db.
Proof.
  unfold where_ticker, delete_where_ticker. intros Hnil.
  induction db as [|r rest IH]; cbn in *; [reflexivity|].
  destruct (sql_eq (ticker r) t); cbn; [discriminate|]. f_equal. auto.
Qed.

(** C4: [delete_ticker_data] leaves no record of the ticker and keeps every
    other record; the count it returns is count-before minus count-after,
    which is the number of rows removed; a second call in succession returns
    [0]; and for a ticker without records the call returns [0], raises nothing
    and leaves the store as it was. *)
Theorem delete_ticker_data_spec (db : table) (t : option string) :
  let db' := delete_where_ticker t db in
  delete_ticker_data (Ok db) t =
    (count (where_ticker t db) - count (where_ticker t db'), Ok db') /\
  where_ticker t db' = [] /\
  (forall r, In r db' <-> In r db /\ sql_eq (ticker r) t = false) /\
  fst (delete_ticker_data (Ok db) t) = count db - count db' /\
  delete_ticker_data (snd (delete_ticker_data (Ok db) t)) t = (0, Ok db') /\
  (where_ticker t db = [] ->
   CleanDatabase.delete_body (Ok db) t = Ok (0, db) /\
   delete_ticker_data (Ok db) t = (0, Ok db)).
Proof.
  intros db'.
  assert (Hafter : where_ticker t db' = []) by apply where_after_delete.
  assert (Hcall : forall d, delete_ticker_data (Ok d) t =
            (count (where_ticker t d)
             - count (where_ticker t (delete_where_ticker t d)),
             Ok (delete_where_ticker t d))) by reflexivity.
  split; [apply Hcall|]. split; [exact Hafter|]. split; [|split; [|split]].
  - intros r. unfold db', delete_where_ticker. rewrite filter_In.
    destruct (sql_eq (ticker r) t); cbn; intuition congruence.
  - rewrite Hcall. cbn [fst]. fold db'. rewrite Hafter.
    rewrite (count_split t db). fold db'. unfold count at 2; cbn. lia.
  - rewrite Hcall. cbn [snd]. fold db'. rewrite Hcall.
    rewrite (delete_nothing t db' Hafter), Hafter. reflexivity.
  - intros Hnone. unfold delete_ticker_data, delete_body; cbn [bind].
    rewrite (delete_nothing t db Hnone), Hnone. split; reflexivity.
Qed.

Example null_records_abc :
  null_records Samples.abc_null_db =
  [((Some "ABC"%string, Some "2022-05-01"%string), 1)].
Proof. reflexivity. Qed.

Lemma check_for_null_values_conflates_witness :
  (exists r, In r Samples.abc_null_db /\ has_null r = true) /\
  check_for_null_values (Ok Samples.abc_null_db) = false /\
  check_for_null_values (Raise OperationalError) = false.
Proof.
  destruct check_for_null_values_conflates as (Hraise & Hdirty & _).
  set (r := mkRow (Some "ABC"%string) (Some "2022-05-01"%string) (Some (10 # 1))
              (Some (12 # 1)) (Some (9 # 1)) None (Some 1000)).
  assert (Hin : In r Samples.abc_null_db) by (right; left; reflexivity).
  assert (Hnull : has_null r = true) by reflexivity.
  split; [exists r; split; assumption|].
  split; [exact (Hdirty Samples.abc_null_db r Hin Hnull) | apply Hraise].
Defined.

Example delete_xyz :
  delete_ticker_data (Ok Samples.xyz_db) (Some "XYZ"%string) =
  (3, Ok [Samples.price_row "ABC" "2024-01-02"]).
Proof. reflexivity. Qed.

Lemma delete_ticker_data_spec_witness :
  where_ticker (Some "AAPL"%string) Samples.xyz_db = [] /\
  delete_ticker_data (Ok Samples.xyz_db) (Some "AAPL"%string) =
  (0, Ok Samples.xyz_db).
Proof.
  assert (H : where_ticker (Some "AAPL"%string) Samples.xyz_db = [])
    by reflexivity.
  split; [exact H|].
  destruct (delete_ticker_data_spec Samples.xyz_db (Some "AAPL"%string))
    as (_ & _ & _ & _ & _ & Hnone).
  exact (proj2 (Hnone H)).
Defined.

End CleanDatabaseFacts.

(* ================================================================== *)
(** ** The expected number of trading days *)

Module ExpectedFacts.
Import Float64 Float64Facts DbStats.

Lemma float_252 : (float_of_int 252 == 252 # 1)%Q.
Proof. vm_compute. reflexivity. Qed.

Lemma u_bounds : (0 <= 1 - u)%Q /\ (0 <= 1 + u)%Q.
Proof. split; vm_compute; discriminate. Qed.

(** Two roundings of [d / 365 * 252] stay within [2^-52] of it, relatively. *)
Lemma years_times_252_bounds (d : Z) (x1 : Q) :
  0 < d -> (x1 == d # 365)%Q ->
  let Y := round64 (round64 x1 * float_of_int 252) in
  ((d # 365) * (1 - u) * (252 # 1) * (1 - u) <= Y)%Q /\
  (Y <= (d # 365) * (1 + u) * (252 # 1) * (1 + u))%Q.
Proof.
  intros Hd Hx1 Y.
  destruct u_bounds as [Hum Hup].
  assert (Hpos1 : (0 < x1)%Q) by (rewrite Hx1; unfold Qlt; cbn; lia).
  assert (Hge : (d # 365 <= x1)%Q) by (rewrite Hx1; apply Qle_refl).
  assert (Hle : (x1 <= d # 365)%Q) by (rewrite Hx1; apply Qle_refl).
  destruct (round64_bounds x1 Hpos1) as [HXlo HXhi].
  set (X := round64 x1) in *.
  assert (HXlo' : ((d # 365) * (1 - u) <= X)%Q).
  { eapply Qle_trans; [|exact HXlo]. apply Qmult_le_compat_r; assumption. }
  assert (HXhi' : (X <= (d # 365) * (1 + u))%Q).
  { eapply Qle_trans; [exact HXhi|]. apply Qmult_le_compat_r; assumption. }
  clear HXlo HXhi. rename HXlo' into HXlo, HXhi' into HXhi.
  assert (HXpos : (0 < X)%Q).
  { eapply Qlt_le_trans; [|exact HXlo]. unfold Qlt, u; cbn. lia. }
  assert (HC : (0 < float_of_int 252)%Q) by (rewrite float_252; reflexivity).
  assert (Hpos2 : (0 < X * float_of_int 252)%Q).
  { apply Qmult_lt_0_compat; assumption. }
  destruct (round64_bounds _ Hpos2) as [HYlo HYhi]. fold Y in HYlo, HYhi.
  assert (HC1 : (252 # 1 <= float_of_int 252)%Q)
    by (rewrite float_252; apply Qle_refl).
  assert (HC2 : (float_of_int 252 <= 252 # 1)%Q)
    by (rewrite float_252; apply Qle_refl).
  assert (HX0 : (0 <= X)%Q) by (apply Qlt_le_weak; exact HXpos).
  split.
  - eapply Qle_trans; [|exact HYlo].
    apply Qmult_le_compat_r; [|exact Hum].
    eapply Qle_trans; [apply Qmult_le_compat_r; [exact HXlo | discriminate]|].
    rewrite (Qmult_comm X), (Qmult_comm X).
    apply Qmult_le_compat_r; assumption.
  - eapply Qle_trans; [exact HYhi|].
    apply Qmult_le_compat_r; [|exact Hup].
    eapply Qle_trans; [|apply Qmult_le_compat_r; [exact HXhi | discriminate]].
    rewrite (Qmult_comm X), (Qmult_comm X).
    apply Qmult_le_compat_r; assumption.
Qed.

(** [int(d / 365.0 * 252)] is the exact [floor (d * 252 / 365)] for every span
    of days a pair of dates can give. *)
Lemma expected_of_exact (d : Z) :
  0 <= d <= 4194304 ->
  exists y, fdiv (float_of_int d) (365 # 1) = Ok y /\
            expected_of y = d * 252 / 365.
Proof.
  intros Hd. unfold fdiv. change (Qeq_bool (365 # 1) 0) with false. cbv iota.
  eexists. split; [reflexivity|].
  unfold expected_of, fmul.
  destruct (Z.eq_dec d 0) as [-> | Hnz]; [vm_compute; reflexivity|].
  assert (HD : (float_of_int d == inject_Z d)%Q).
  { apply round64_int; [lia | reflexivity]. }
  assert (Hx1 : (float_of_int d / (365 # 1) == d # 365)%Q).
  { rewrite HD. unfold Qeq, Qdiv, Qmult, Qinv, inject_Z; cbn. lia. }
  destruct (Z.eq_dec ((d * 252) mod 365) 0) as [Hr | Hr].
  - assert (Hdiv : (365 | d)).
    { apply Z.gauss with 252; [|reflexivity].
      apply Z.mod_divide; [lia|]. rewrite Z.mul_comm. exact Hr. }
    destruct Hdiv as [j Hj]. subst d.
    assert (HX : (round64 (float_of_int (j * 365) / (365 # 1)) == inject_Z j)%Q).
    { apply round64_int; [lia|]. rewrite Hx1.
      unfold Qeq, inject_Z; cbn [Qnum Qden]. lia. }
    assert (HY : (round64 (round64 (float_of_int (j * 365) / (365 # 1))
                            * float_of_int 252) == inject_Z (252 * j))%Q).
    { apply round64_int; [lia|]. rewrite HX, float_252.
      unfold Qeq, Qmult, inject_Z; cbn [Qnum Qden]. lia. }
    rewrite (int_of_float_int _ _ HY).
    replace (j * 365 * 252) with (252 * j * 365) by ring.
    rewrite Z.div_mul by lia. reflexivity.
  - destruct (years_times_252_bounds d _ ltac:(lia) Hx1) as [Hlo Hhi].
    pose proof (Z.div_mod (d * 252) 365 ltac:(lia)) as Hdm.
    pose proof (Z.mod_pos_bound (d * 252) 365 ltac:(lia)) as Hrb.
    apply int_of_float_floor.
    + apply Z.div_pos; lia.
    + eapply Qle_trans; [|exact Hlo].
      unfold Qle, u, Qmult, Qminus, Qplus, Qopp, inject_Z; cbn [Qnum Qden]. lia.
    + eapply Qle_lt_trans; [exact Hhi|].
      unfold Qlt, u, Qmult, Qplus, inject_Z; cbn [Qnum Qden]. lia.
Qed.

Example expected_of_1096 :
  (y <- fdiv (float_of_int 1096) (365 # 1) ;; Ok (expected_of y)) = Ok 756.
Proof. vm_compute. reflexivity. Qed.

(** 750 records over a span of 1096 days: 750 / 756, about 99.2 percent. *)
Example completeness_750_of_756 :
  exists c, completeness_of 750 756 = Ok c /\ (992 # 1000 < c)%Q /\ (c < 993 # 1000)%Q.
Proof.
  eexists. split; [apply eq_refl|]. split; vm_compute; reflexivity.
Qed.

Example round64_agrees_with_SpecFloat :
  forallb agrees_with_SpecFloat
    [1; 2; 3; 7; 30; 31; 59; 100; 181; 364; 365; 366; 729; 730; 731; 1000;
     1095; 1096; 1461; 2000; 3650; 7305; 10000; 36524; 146097; 1000000;
     3652058] = true.
Proof. vm_compute. reflexivity. Qed.

End ExpectedFacts.

(* ================================================================== *)
(** ** ISO dates sort like the calendar *)

Module DatetimeFacts.
Import Datetime.

Lemma digit_char_compare (a b : Z) :
  0 <= a <= 9 -> 0 <= b <= 9 ->
  Ascii.compare (digit_char a) (digit_char b) = (a ?= b).
Proof.
  intros Ha Hb. unfold Ascii.compare, digit_char.
  rewrite !N_ascii_embedding by lia.
  rewrite Z2N.inj_compare by lia. apply Z.add_compare_mono_l.
Qed.

Lemma compare_cons_digit (a b : Z) (k k' : string) :
  0 <= a <= 9 -> 0 <= b <= 9 ->
  String.compare (String (digit_char a) k) (String (digit_char b) k') =
  match a ?= b with Eq => String.compare k k' | c => c end.
Proof.
  intros Ha Hb. cbn [String.compare]. rewrite digit_char_compare by assumption.
  destruct (a ?= b); reflexivity.
Qed.

Ltac digit_bounds := Z.div_mod_to_equations; lia.

Lemma compare_digits2 (m m' : Z) (k k' : string) :
  0 <= m <= 99 -> 0 <= m' <= 99 ->
  String.compare (digits2 m k) (digits2 m' k') =
  match m ?= m' with Eq => String.compare k k' | c => c end.
Proof.
  intros Hm Hm'. unfold digits2.
  rewrite !compare_cons_digit by digit_bounds.
  destruct (Z.compare_spec (m / 10 mod 10) (m' / 10 mod 10));
    destruct (Z.compare_spec (m mod 10) (m' mod 10));
    destruct (Z.compare_spec m m'); try reflexivity; exfalso; digit_bounds.
Qed.

Lemma compare_digits4 (y y' : Z) (k k' : string) :
  0 <= y <= 9999 -> 0 <= y' <= 9999 ->
  String.compare (digits4 y k) (digits4 y' k') =
  match y ?= y' with Eq => String.compare k k' | c => c end.
Proof.
  intros Hy Hy'. unfold digits4, digits2.
  rewrite !compare_cons_digit by digit_bounds.
  destruct (Z.compare_spec (y / 1000 mod 10) (y' / 1000 mod 10));
    [| destruct (Z.compare_spec y y'); try reflexivity; exfalso; digit_bounds ..].
  destruct (Z.compare_spec (y / 100 mod 10) (y' / 100 mod 10));
    [| destruct (Z.compare_spec y y'); try reflexivity; exfalso; digit_bounds ..].
  destruct (Z.compare_spec (y / 10 mod 10) (y' / 10 mod 10));
    [| destruct (Z.compare_spec y y'); try reflexivity; exfalso; digit_bounds ..].
  destruct (Z.compare_spec (y mod 10) (y' mod 10));
    destruct (Z.compare_spec y y'); try reflexivity; exfalso; digit_bounds.
Qed.

Lemma valid_date_fields (dt : datetime) :
  valid_date dt = true ->
  1 <= year dt <= 9999 /\ 1 <= month dt <= 12 /\
  1 <= day dt <= days_in_month (year dt) (month dt).
Proof.
  unfold valid_date, check_date_fields, MINYEAR, MAXYEAR.
  destruct (_ && _) eqn:E; [intros _ | discriminate].
  repeat (apply andb_true_iff in E; destruct E as [E ?]).
  repeat match goal with
         | H : (_ <=? _) = true |- _ => apply Z.leb_le in H
         end.
  lia.
Qed.

Lemma check_date_fields_valid (y m d : Z) (dt : datetime) :
  check_date_fields y m d = Ok dt -> dt = mkDate y m d /\ valid_date dt = true.
Proof.
  intros H. pose proof H as H'. unfold check_date_fields in H'.
  destruct (_ && _); [|discriminate]. injection H' as <-.
  split; [reflexivity|]. unfold valid_date; cbn [year month day]. rewrite H.
  reflexivity.
Qed.

Ltac month_cases m :=
  let H := fresh "Hm" in
  assert (H : m = 1 \/ m = 2 \/ m = 3 \/ m = 4 \/ m = 5 \/ m = 6 \/ m = 7
              \/ m = 8 \/ m = 9 \/ m = 10 \/ m = 11 \/ m = 12) by lia;
  repeat (destruct H as [H | H]); subst m.

Lemma days_in_month_bounds (y m : Z) :
  1 <= m <= 12 -> 28 <= days_in_month y m <= 31.
Proof.
  intros Hm. unfold days_in_month.
  month_cases m; destruct (is_leap y); cbn -[Z.add]; lia.
Qed.

Lemma isoformat_compare (a b : datetime) :
  valid_date a = true -> valid_date b = true ->
  String.compare (isoformat a) (isoformat b) = cmp a b.
Proof.
  intros Ha Hb.
  destruct (valid_date_fields a Ha) as (Hya & Hma & Hda).
  destruct (valid_date_fields b Hb) as (Hyb & Hmb & Hdb).
  pose proof (days_in_month_bounds (year a) (month a) Hma).
  pose proof (days_in_month_bounds (year b) (month b) Hmb).
  unfold isoformat, cmp.
  rewrite compare_digits4 by lia. destruct (year a ?= year b); try reflexivity.
  cbn [String.compare]. change (Ascii.compare dash dash) with Eq. cbv iota.
  rewrite compare_digits2 by lia. destruct (month a ?= month b); try reflexivity.
  cbn [String.compare]. change (Ascii.compare dash dash) with Eq. cbv iota.
  rewrite compare_digits2 by lia. destruct (day a ?= day b); reflexivity.
Qed.

Lemma days_before_year_succ (y : Z) :
  days_before_year (y + 1) =
  days_before_year y + 365 + (if is_leap y then 1 else 0).
Proof.
  unfold days_before_year, is_leap. replace (y + 1 - 1) with y by lia.
  destruct (Z.eqb_spec (y mod 4) 0), (Z.eqb_spec (y mod 100) 0),
    (Z.eqb_spec (y mod 400) 0); cbn [negb andb orb];
    Z.div_mod_to_equations; lia.
Qed.

Lemma days_before_year_mono (y y' : Z) :
  y <= y' -> days_before_year y <= days_before_year y'.
Proof.
  intros H. unfold days_before_year. Z.div_mod_to_equations. lia.
Qed.

Lemma day_of_year_bounds (y m d : Z) :
  1 <= m <= 12 -> 1 <= d <= days_in_month y m ->
  1 <= days_before_month y m + d <= 365 + (if is_leap y then 1 else 0).
Proof.
  intros Hm. unfold days_in_month, days_before_month.
  month_cases m; destruct (is_leap y); cbn -[Z.add]; lia.
Qed.

Lemma day_of_year_month_lt (y m m' d d' : Z) :
  1 <= m -> m < m' -> m' <= 12 -> d <= days_in_month y m -> 1 <= d' ->
  days_before_month y m + d < days_before_month y m' + d'.
Proof.
  intros H1 Hlt H12. unfold days_in_month, days_before_month.
  month_cases m; month_cases m'; try lia; destruct (is_leap y);
    cbn -[Z.add]; lia.
Qed.

(** Earlier dates have smaller ordinals. *)
Lemma toordinal_lt (a b : datetime) :
  valid_date a = true -> valid_date b = true ->
  cmp a b = Lt -> toordinal a < toordinal b.
Proof.
  intros Ha Hb.
  destruct (valid_date_fields a Ha) as (Hya & Hma & Hda).
  destruct (valid_date_fields b Hb) as (Hyb & Hmb & Hdb).
  unfold cmp, toordinal, ymd2ord.
  destruct (Z.compare_spec (year a) (year b)) as [Hy | Hy | Hy];
    [| intros _ | discriminate].
  - rewrite Hy.
    destruct (Z.compare_spec (month a) (month b)) as [Hm | Hm | Hm];
      [| intros _ | discriminate].
    + rewrite Hm. destruct (Z.compare_spec (day a) (day b)); try discriminate.
      intros _. lia.
    + rewrite Hy in Hda.
      pose proof (day_of_year_month_lt (year b) (month a) (month b)
                    (day a) (day b)). lia.
  - pose proof (days_before_year_succ (year a)).
    pose proof (days_before_year_mono (year a + 1) (year b) ltac:(lia)).
    pose proof (day_of_year_bounds _ _ _ Hma Hda).
    pose proof (day_of_year_bounds _ _ _ Hmb Hdb).
    lia.
Qed.

Lemma cmp_eq (a b : datetime) : cmp a b = Eq -> a = b.
Proof.
  destruct a as [ya ma da], b as [yb mb db]. unfold cmp; cbn.
  destruct (Z.compare_spec ya yb); try discriminate.
  destruct (Z.compare_spec ma mb); try discriminate.
  destruct (Z.compare_spec da db); try discriminate.
  intros _. congruence.
Qed.

Lemma toordinal_le (a b : datetime) :
  valid_date a = true -> valid_date b = true ->
  String.leb (isoformat a) (isoformat b) = true -> toordinal a <= toordinal b.
Proof.
  intros Ha Hb. unfold String.leb. rewrite isoformat_compare by assumption.
  destruct (cmp a b) eqn:E; [intros _ | intros _ | discriminate].
  - apply cmp_eq in E. subst. lia.
  - apply Z.lt_le_incl. apply toordinal_lt; assumption.
Qed.

Lemma toordinal_bounds (a : datetime) :
  valid_date a = true -> 1 <= toordinal a <= MAXORDINAL.
Proof.
  intros Ha. destruct (valid_date_fields a Ha) as (Hy & Hm & Hd).
  pose proof (day_of_year_bounds _ _ _ Hm Hd).
  pose proof (days_before_year_succ (year a)).
  pose proof (days_before_year_mono 1 (year a) ltac:(lia)).
  pose proof (days_before_year_mono (year a + 1) 10000 ltac:(lia)).
  change (days_before_year 1) with 0 in *.
  change (days_before_year 10000) with 3652059 in *.
  unfold toordinal, ymd2ord, MAXORDINAL. lia.
Qed.

Lemma strptime_valid (arg : option string) (dt : datetime) :
  strptime arg = Ok dt -> valid_date dt = true.
Proof.
  unfold strptime. destruct arg as [s|]; [|discriminate].
  destruct (re_ymd s) as [[[[y m] d] rest]|]; [|discriminate].
  destruct rest; [|discriminate].
  intros H. apply check_date_fields_valid in H. tauto.
Qed.

Lemma iso_date_parse (s : string) :
  iso_date s = true ->
  exists dt, strptime (Some s) = Ok dt /\ valid_date dt = true /\ isoformat dt = s.
Proof.
  unfold iso_date. destruct (strptime (Some s)) as [dt|e] eqn:E; [|discriminate].
  intros Heq. apply String.eqb_eq in Heq. exists dt.
  split; [reflexivity|]. split; [|assumption]. eapply strptime_valid; eassumption.
Qed.

(** The lexicographic order of ISO date strings is the order of the days. *)
Lemma iso_leb_toordinal (s1 s2 : string) (d1 d2 : datetime) :
  iso_date s1 = true -> iso_date s2 = true ->
  strptime (Some s1) = Ok d1 -> strptime (Some s2) = Ok d2 ->
  String.leb s1 s2 = true -> toordinal d1 <= toordinal d2.
Proof.
  intros H1 H2 P1 P2.
  destruct (iso_date_parse s1 H1) as (d1' & P1' & V1 & F1).
  destruct (iso_date_parse s2 H2) as (d2' & P2' & V2 & F2).
  rewrite P1 in P1'. injection P1' as <-. rewrite P2 in P2'. injection P2' as <-.
  rewrite <- F1, <- F2 at 1. apply toordinal_le; assumption.
Qed.

(** [ord2ymd] inverts [toordinal] on the first years, on the years around the
    turn of the century and on the last years of the calendar. *)
Example ord2ymd_roundtrip :
  forallb roundtrip_ok
    (map (fun i => 1 + Z.of_nat i) (seq 0 1500)
     ++ map (fun i => 729000 + Z.of_nat i) (seq 0 1500)
     ++ map (fun i => 738000 + Z.of_nat i) (seq 0 1500)
     ++ map (fun i => 3650560 + Z.of_nat i) (seq 0 1500)) = true.
Proof. vm_compute. reflexivity. Qed.

Example three_years_before_2024_06_01 :
  DbStats.three_years_ago (mkDate 2024 6 1) = Ok "2021-06-02"%string.
Proof. vm_compute. reflexivity. Qed.

End DatetimeFacts.

(* ================================================================== *)
(** ** MIN, MAX and ORDER BY pick extremal dates *)

Module OrderFacts.
Import Sql.

Lemma string_leb_refl (a : string) : String.leb a a = true.
Proof.
  destruct (String.leb_total a a); assumption.
Qed.

Lemma string_leb_trans (a b c : string) :
  String.leb a b = true -> String.leb b c = true -> String.leb a c = true.
Proof.
  unfold String.leb. revert b c.
  induction a as [|ca a IH]; intros [|cb b] [|cc c]; cbn; try congruence.
  unfold Ascii.compare.
  destruct (N.compare_spec (N_of_ascii ca) (N_of_ascii cb));
    destruct (N.compare_spec (N_of_ascii cb) (N_of_ascii cc));
    destruct (N.compare_spec (N_of_ascii ca) (N_of_ascii cc));
    try congruence; try lia.
  apply IH.
Qed.

Section Pick.

Variable le : string -> string -> bool.
Hypothesis le_refl : forall a, le a a = true.
Hypothesis le_trans : forall a b c, le a b = true -> le b c = true -> le a c = true.
Hypothesis le_total : forall a b, le a b = true \/ le b a = true.

Lemma agg_pick_from (vals : list (option string)) (a : string) :
  exists m, agg_text (pick le) (Some a) vals = Some m /\
            (m = a \/ In (Some m) vals) /\
            le m a = true /\
            forall v, In (Some v) vals -> le m v = true.
Proof.
  revert a. induction vals as [|[v|] rest IH]; intros a; cbn [agg_text].
  - exists a. repeat split; auto; intros v [].
  - unfold pick at 2. destruct (le a v) eqn:E.
    + destruct (IH a) as (m & Hm & Hin & Hma & Hall). exists m.
      repeat split; auto.
      * destruct Hin; [left | right; right]; assumption.
      * intros w [[= <-] | Hw]; [eauto | auto].
    + assert (Hva : le v a = true) by (destruct (le_total a v); congruence).
      destruct (IH v) as (m & Hm & Hin & Hmv & Hall). exists m.
      repeat split; auto.
      * right. destruct Hin as [-> | Hin]; [left; reflexivity | right; assumption].
      * eauto.
      * intros w [[= <-] | Hw]; [assumption | auto].
  - destruct (IH a) as (m & Hm & Hin & Hma & Hall). exists m.
    repeat split; auto.
    + destruct Hin; [left | right; right]; assumption.
    + intros w [Hw | Hw]; [discriminate | auto].
Qed.

Lemma agg_pick (vals : list (option string)) :
  (exists v, In (Some v) vals) ->
  exists m, agg_text (pick le) None vals = Some m /\ In (Some m) vals /\
            forall v, In (Some v) vals -> le m v = true.
Proof.
  induction vals as [|[v|] rest IH]; intros [w Hw]; cbn [agg_text].
  - destruct Hw.
  - cbn [pick]. destruct (agg_pick_from rest v) as (m & Hm & Hin & Hmv & Hall).
    exists m. repeat split; auto.
    + destruct Hin as [-> | Hin]; [left; reflexivity | right; assumption].
    + intros x [[= <-] | Hx]; [assumption | auto].
  - destruct Hw as [Hw | Hw]; [discriminate|].
    destruct (IH (ex_intro _ w Hw)) as (m & Hm & Hin & Hall).
    exists m. repeat split; auto.
    + right. assumption.
    + intros x [Hx | Hx]; [discriminate | auto].
Qed.

End Pick.

Lemma MIN_date_spec (rows : table) :
  (exists v, In (Some v) (map date rows)) ->
  exists m, MIN_date rows = Some m /\ In (Some m) (map date rows) /\
            forall v, In (Some v) (map date rows) -> String.leb m v = true.
Proof.
  apply (agg_pick String.leb string_leb_refl string_leb_trans String.leb_total).
Qed.

Lemma MAX_date_spec (rows : table) :
  (exists v, In (Some v) (map date rows)) ->
  exists m, MAX_date rows = Some m /\ In (Some m) (map date rows) /\
            forall v, In (Some v) (map date rows) -> String.leb v m = true.
Proof.
  apply (agg_pick (fun a b => String.leb b a)).
  - intros a. apply string_leb_refl.
  - intros a b c H1 H2. eapply string_leb_trans; eassumption.
  - intros a b. destruct (String.leb_total a b); auto.
Qed.

Lemma sql_le_refl (a : option string) : sql_le a a = true.
Proof.
  destruct a as [x|]; [|reflexivity]. apply (string_leb_refl x).
Qed.

Lemma sql_le_trans (a b c : option string) :
  sql_le a b = true -> sql_le b c = true -> sql_le a c = true.
Proof.
  destruct a as [x|], b as [y|], c as [z|]; cbn; try congruence.
  apply (string_leb_trans x y z).
Qed.

Lemma sql_le_total (a b : option string) :
  sql_le a b = true \/ sql_le b a = true.
Proof.
  destruct a as [x|], b as [y|]; cbn; auto. apply (String.leb_total x y).
Qed.

Section OrderBy.

Variable le : option string -> option string -> bool.
Hypothesis le_refl : forall a, le a a = true.
Hypothesis le_trans : forall a b c, le a b = true -> le b c = true -> le a c = true.
Hypothesis le_total : forall a b, le a b = true \/ le b a = true.

(** The first row of [ORDER BY] comes before every row. *)
Lemma order_by_head (rows : table) :
  rows <> [] ->
  exists r, fetchone (order_by_date le rows) = Some r /\ In r rows /\
            forall r', In r' rows -> le (date r) (date r') = true.
Proof.
  induction rows as [|r rest IH]; [congruence | intros _].
  cbn [order_by_date fold_right]. fold (order_by_date le rest).
  destruct rest as [|r2 rest'].
  - exists r. split; [reflexivity|]. split; [left; reflexivity|].
    intros r' [Hr | []]. subst r'. apply le_refl.
  - destruct (IH ltac:(discriminate)) as (h & Hh & Hin & Hall).
    destruct (order_by_date le (r2 :: rest')) as [|h' tl] eqn:E;
      [discriminate|]. cbn in Hh. injection Hh as ->.
    cbn [insert_by]. destruct (le (date r) (date h)) eqn:Hle.
    + exists r. split; [reflexivity|]. split; [left; reflexivity|].
      intros r' [Hr | Hr']; [subst r'; apply le_refl|].
      eapply le_trans; [exact Hle | auto].
    + exists h. split; [reflexivity|]. split; [right; assumption|].
      intros r' [Hr | Hr']; [subst r' | auto].
      destruct (le_total (date r) (date h)); congruence.
Qed.

End OrderBy.

Lemma order_by_ASC_head (rows : table) :
  rows <> [] ->
  exists r, fetchone (order_by_date ASC rows) = Some r /\ In r rows /\
            forall r', In r' rows -> sql_le (date r) (date r') = true.
Proof.
  apply (order_by_head ASC sql_le_refl sql_le_trans sql_le_total).
Qed.

Lemma order_by_DESC_head (rows : table) :
  rows <> [] ->
  exists r, fetchone (order_by_date DESC rows) = Some r /\ In r rows /\
            forall r', In r' rows -> sql_le (date r') (date r) = true.
Proof.
  apply (order_by_head DESC).
  - intros a. apply sql_le_refl.
  - intros a b c H1 H2. unfold DESC in *. eapply sql_le_trans; eassumption.
  - intros a b. unfold DESC. destruct (sql_le_total a b); auto.
Qed.

End OrderFacts.

(* ================================================================== *)
(** ** The per-ticker computations on a valid history *)

Module ReportFacts.
Import Float64 Float64Facts Datetime DatetimeFacts Sql SqlFacts OrderFacts.
Import ExpectedFacts DbStats.

Lemma completeness_of_ok (rc e : Z) :
  completeness_of rc e =
  Ok (if 0 <? e then round64 (inject_Z rc / inject_Z e) else 0%Q).
Proof.
  unfold completeness_of, int_truediv. destruct (0 <? e) eqn:E; [|reflexivity].
  apply Z.ltb_lt in E. replace (e =? 0) with false; [reflexivity|].
  symmetry. apply Z.eqb_neq. lia.
Qed.

Lemma valid_now_fields (now : datetime) :
  valid_now now = true -> valid_date now = true /\ 1095 < toordinal now.
Proof.
  unfold valid_now. intros H. apply andb_true_iff in H. destruct H as [Hv Ho].
  apply Z.ltb_lt in Ho. split; [assumption | lia].
Qed.

Lemma minus_three_years_ok (now : datetime) :
  valid_now now = true ->
  minus_timedelta now (3 * 365) = Ok (ord2ymd (toordinal now - 3 * 365)).
Proof.
  intros H. destruct (valid_now_fields now H) as [Hv Ho].
  pose proof (toordinal_bounds now Hv) as Hb. unfold MAXORDINAL in Hb.
  unfold minus_timedelta, MAXORDINAL.
  replace ((1 <=? toordinal now - 3 * 365)
           && (toordinal now - 3 * 365 <=? 3652059)) with true; [reflexivity|].
  symmetry. apply andb_true_iff. split; apply Z.leb_le; lia.
Qed.

Lemma three_years_ago_ok (now : datetime) :
  valid_now now = true ->
  three_years_ago now = Ok (strftime (ord2ymd (toordinal now - 3 * 365))).
Proof.
  intros H. unfold three_years_ago. rewrite (minus_three_years_ok now H).
  reflexivity.
Qed.

Lemma ytd_ok (now : datetime) :
  valid_now now = true ->
  ytd now = Ok (strftime (mkDate (year now) 1 1)).
Proof.
  intros H. destruct (valid_now_fields now H) as [Hv _].
  destruct (valid_date_fields now Hv) as (Hy & _ & _).
  unfold ytd, check_date_fields, MINYEAR, MAXYEAR.
  replace (1 <=? year now) with true by (symmetry; apply Z.leb_le; lia).
  replace (year now <=? 9999) with true by (symmetry; apply Z.leb_le; lia).
  reflexivity.
Qed.

Lemma valid_row_fields (r : row) :
  valid_row r = true ->
  has_null r = false /\ exists s, date r = Some s /\ iso_date s = true.
Proof.
  unfold valid_row. intros H. apply andb_true_iff in H. destruct H as [Hn Hd].
  split; [destruct (has_null r); [discriminate | reflexivity]|].
  destruct (date r) as [s|]; [|discriminate]. exists s. auto.
Qed.

Lemma valid_history_rows (t : option string) (db : table) :
  valid_history t db = true ->
  where_ticker t db <> [] /\
  forall r, In r (where_ticker t db) -> valid_row r = true.
Proof.
  unfold valid_history. destruct (where_ticker t db) as [|r rest] eqn:E;
    [discriminate|]. intros H. split; [discriminate|].
  apply forallb_forall. exact H.
Qed.

Lemma format_float_ok {A : Type} (col : row -> option A) (rows : table) :
  rows <> [] -> (forall r, In r rows -> col r <> None) ->
  format_float col rows = Ok tt.
Proof.
  intros Hne Hall. unfold format_float, agg_is_null.
  destruct rows as [|r rest]; [congruence|]. cbn [forallb].
  specialize (Hall r (or_introl eq_refl)).
  destruct (col r); [reflexivity | congruence].
Qed.

Lemma count_pos (rows : table) : rows <> [] -> 1 <= count rows.
Proof.
  destruct rows; [congruence|]. intros _. unfold count. cbn [List.length]. lia.
Qed.

Lemma history_dates_exist (rows : table) :
  rows <> [] -> (forall r, In r rows -> valid_row r = true) ->
  exists f l df dl, history_dates rows f l df dl.
Proof.
  intros Hne Hvalid.
  assert (Hiso : forall s, In (Some s) (map date rows) -> iso_date s = true).
  { intros s Hin. apply in_map_iff in Hin. destruct Hin as (r & Hr & Hin).
    destruct (valid_row_fields r (Hvalid r Hin)) as (_ & s' & Hs' & Hi).
    congruence. }
  assert (Hsome : exists v, In (Some v) (map date rows)).
  { destruct rows as [|r rest]; [congruence|].
    destruct (valid_row_fields r (Hvalid r (or_introl eq_refl)))
      as (_ & s & Hs & _).
    exists s. cbn. left. assumption. }
  destruct (MIN_date_spec rows Hsome) as (f & Hmin & Hfin & Hfle).
  destruct (MAX_date_spec rows Hsome) as (l & Hmax & Hlin & Hlge).
  destruct (iso_date_parse f (Hiso f Hfin)) as (df & Pf & Vf & _).
  destruct (iso_date_parse l (Hiso l Hlin)) as (dl & Pl & Vl & _).
  exists f, l, df, dl.
  assert (Hbetween : forall s ds, In (Some s) (map date rows) ->
            strptime (Some s) = Ok ds ->
            toordinal df <= toordinal ds <= toordinal dl).
  { intros s ds Hin Ps. split.
    - apply (iso_leb_toordinal f s); auto.
    - apply (iso_leb_toordinal s l); auto. }
  pose proof (Hbetween l dl Hlin Pl) as [Hfl _].
  pose proof (toordinal_bounds df Vf). pose proof (toordinal_bounds dl Vl).
  constructor; auto. unfold sub_days, MAXORDINAL in *. lia.
Qed.

Lemma volume_total_nonneg (rows : table) :
  forallb (fun r => match volume r with
                    | Some v => 0 <=? v
                    | None => true
                    end) rows = true ->
  0 <= volume_total rows.
Proof.
  induction rows as [|r rest IH]; cbn [forallb volume_total fold_right];
    [lia|].
  fold (volume_total rest). intros H. apply andb_true_iff in H.
  destruct H as [Hr Hrest]. specialize (IH Hrest).
  destruct (volume r) as [v|]; [apply Z.leb_le in Hr; lia | exact IH].
Qed.

(** Non-negative volumes whose total is an INTEGER are summed without
    overflow. *)
Lemma sum_from_fits (rows : table) (acc : Z) :
  0 <= acc ->
  forallb (fun r => match volume r with
                    | Some v => 0 <=? v
                    | None => true
                    end) rows = true ->
  acc + volume_total rows <= INT64_MAX ->
  sum_from acc (map volume rows) = Ok (acc + volume_total rows).
Proof.
  revert acc.
  induction rows as [|r rest IH]; intros acc Hacc Hall Hmax;
    cbn [map sum_from volume_total fold_right forallb] in *.
  - rewrite Z.add_0_r. reflexivity.
  - fold (volume_total rest) in *. apply andb_true_iff in Hall.
    destruct Hall as [Hr Hrest].
    pose proof (volume_total_nonneg rest Hrest) as Hpos.
    destruct (volume r) as [v|].
    + apply Z.leb_le in Hr.
      assert (Hfit : fits_int64 (acc + v) = true).
      { unfold fits_int64, INT64_MIN, INT64_MAX in *.
        apply andb_true_iff. split; apply Z.leb_le; lia. }
      rewrite Hfit. rewrite IH; [f_equal; lia | lia | exact Hrest | lia].
    + apply IH; assumption.
Qed.

Lemma SUM_volume_fits (t : option string) (db : table) :
  volumes_fit t db = true ->
  exists total, SUM_volume (where_ticker t db) = Ok total.
Proof.
  unfold volumes_fit. cbv zeta. intros H. apply andb_true_iff in H.
  destruct H as [Hall Hmax]. apply Z.leb_le in Hmax.
  unfold SUM_volume.
  rewrite (sum_from_fits (where_ticker t db) 0); [| lia | exact Hall | lia].
  cbn [bind]. eauto.
Qed.

(** One iteration of the loop of [get_database_statistics] on a valid
    history whose volumes can be summed, value by value. *)
Lemma ticker_statistics_valid (db : table) (now : datetime) (t : option string) :
  valid_history t db = true -> volumes_fit t db = true ->
  valid_now now = true ->
  exists f l df dl y,
    history_dates (where_ticker t db) f l df dl /\
    fdiv (float_of_int (sub_days dl df)) (365 # 1) = Ok y /\
    ticker_statistics db now t =
    Ok {| Ticker := t;
          first_date := f;
          last_date := l;
          date_range_days := sub_days dl df;
          years := y;
          record_count := count (where_ticker t db);
          expected_trading_days := sub_days dl df * 252 / 365;
          completeness :=
            if 0 <? sub_days dl df * 252 / 365
            then round64 (inject_Z (count (where_ticker t db))
                          / inject_Z (sub_days dl df * 252 / 365))
            else 0%Q;
          recent_count :=
            count (where_ticker_since t
                     (Some (strftime (ord2ymd (toordinal now - 3 * 365)))) db);
          ytd_count :=
            count (where_ticker_since t
                     (Some (strftime (mkDate (year now) 1 1))) db) |}.
Proof.
  intros Hhist Hfit Hnow.
  destruct (valid_history_rows t db Hhist) as [Hne Hvalid].
  destruct (history_dates_exist _ Hne Hvalid) as (f & l & df & dl & H).
  destruct (expected_of_exact (sub_days dl df)) as (y & Hy & Hexp).
  { pose proof (hd_span _ _ _ _ _ H). lia. }
  exists f, l, df, dl, y. split; [exact H|]. split; [exact Hy|].
  assert (Hcol : forall r, In r (where_ticker t db) -> has_null r = false).
  { intros r Hin. apply (valid_row_fields r (Hvalid r Hin)). }
  unfold ticker_statistics.
  destruct (SUM_volume_fits t db Hfit) as [total Hsum].
  rewrite Hsum. cbn [bind].
  rewrite (hd_min _ _ _ _ _ H), (hd_max _ _ _ _ _ H).
  rewrite (hd_first_parse _ _ _ _ _ H), (hd_last_parse _ _ _ _ _ H).
  cbn [bind]. rewrite Hy. cbn [bind]. rewrite Hexp, completeness_of_ok.
  cbn [bind]. rewrite (three_years_ago_ok now Hnow), (ytd_ok now Hnow).
  cbn [bind].
  rewrite !format_float_ok; try assumption;
    try (intros r Hin; specialize (Hcol r Hin);
         apply CleanDatabaseFacts.has_null_false in Hcol;
         unfold all_fields_populated in Hcol; tauto).
  reflexivity.
Qed.

Lemma sql_le_some (a b : string) : sql_le (Some a) (Some b) = String.leb a b.
Proof. reflexivity. Qed.

(** On a valid history [ORDER BY date ASC LIMIT 1] gives [MIN(date)] and
    [ORDER BY date DESC LIMIT 1] gives [MAX(date)]. *)
Lemma fetchone_date_extremes (rows : table) (f l : string) (df dl : datetime) :
  rows <> [] -> (forall r, In r rows -> valid_row r = true) ->
  history_dates rows f l df dl ->
  AnalyzeDb.fetchone_date (order_by_date ASC rows) = Ok (Some f) /\
  AnalyzeDb.fetchone_date (order_by_date DESC rows) = Ok (Some l).
Proof.
  intros Hne Hvalid H.
  assert (Hrow : forall s, In (Some s) (map date rows) ->
                           exists r, In r rows /\ date r = Some s).
  { intros s Hin. apply in_map_iff in Hin. destruct Hin as (r & Hr & Hin). eauto. }
  unfold AnalyzeDb.fetchone_date. split.
  - destruct (order_by_ASC_head rows Hne) as (r & -> & Hin & Hmin).
    destruct (valid_row_fields r (Hvalid r Hin)) as (_ & s & Hs & _).
    rewrite Hs. do 2 f_equal. apply String.leb_antisym.
    + destruct (Hrow f (hd_first_in _ _ _ _ _ H)) as (r' & Hin' & Hf).
      specialize (Hmin r' Hin'). rewrite Hs, Hf in Hmin. exact Hmin.
    + apply (hd_first_le _ _ _ _ _ H). rewrite <- Hs. apply in_map. exact Hin.
  - destruct (order_by_DESC_head rows Hne) as (r & -> & Hin & Hmax).
    destruct (valid_row_fields r (Hvalid r Hin)) as (_ & s & Hs & _).
    rewrite Hs. do 2 f_equal. apply String.leb_antisym.
    + apply (hd_last_ge _ _ _ _ _ H). rewrite <- Hs. apply in_map. exact Hin.
    + destruct (Hrow l (hd_last_in _ _ _ _ _ H)) as (r' & Hin' & Hl).
      specialize (Hmax r' Hin'). rewrite Hs, Hl in Hmax. exact Hmax.
Qed.

(** One iteration of the loop of [analyze_database] on a valid history. *)
Lemma ticker_analysis_valid (db : table) (now : datetime) (t : option string)
  (f l : string) (df dl : datetime) :
  valid_history t db = true -> valid_now now = true ->
  history_dates (where_ticker t db) f l df dl ->
  AnalyzeDb.ticker_analysis db now t =
  Ok {| AnalyzeDb.Ticker := t;
        AnalyzeDb.earliest_date := f;
        AnalyzeDb.latest_date := l;
        AnalyzeDb.record_count := count (where_ticker t db);
        AnalyzeDb.date_range_days := sub_days dl df;
        AnalyzeDb.expected_records := sub_days dl df * 252 / 365;
        AnalyzeDb.completeness :=
          if 0 <? sub_days dl df * 252 / 365
          then round64 (inject_Z (count (where_ticker t db))
                        / inject_Z (sub_days dl df * 252 / 365))
          else 0%Q;
        AnalyzeDb.recent_count :=
          count (where_ticker_since t
                   (Some (strftime (ord2ymd (toordinal now - 3 * 365)))) db) |}.
Proof.
  intros Hhist Hnow H.
  destruct (valid_history_rows t db Hhist) as [Hne Hvalid].
  destruct (fetchone_date_extremes _ f l df dl Hne Hvalid H) as [He Hl].
  destruct (expected_of_exact (sub_days dl df)) as (y & Hy & Hexp).
  { pose proof (hd_span _ _ _ _ _ H). lia. }
  unfold AnalyzeDb.ticker_analysis. rewrite He, Hl. cbn [bind].
  rewrite (hd_first_parse _ _ _ _ _ H), (hd_last_parse _ _ _ _ _ H).
  cbn [bind]. rewrite Hy. cbn [bind]. rewrite Hexp, completeness_of_ok.
  cbn [bind]. rewrite (three_years_ago_ok now Hnow). reflexivity.
Qed.

End ReportFacts.

(* ================================================================== *)
(** ** Coverage metrics: the claims on [get_database_statistics] and
    [analyze_database] *)

Module Coverage.
Import Float64 Float64Facts Datetime DatetimeFacts Sql SqlFacts OrderFacts.
Import ExpectedFacts DbStats ReportFacts.

Lemma strptime_exn (arg : option string) (e : exn) :
  strptime arg = Raise e -> e = TypeError \/ e = ValueError.
Proof.
  unfold strptime, check_date_fields. destruct arg as [s|]; [|intros [= <-]; auto].
  destruct (re_ymd s) as [[[[y m] d] rest]|]; [|intros [= <-]; auto].
  destruct rest; [|intros [= <-]; auto].
  destruct (_ && _); [discriminate | intros [= <-]; auto].
Qed.

Lemma three_years_ago_exn (now : datetime) (e : exn) :
  three_years_ago now = Raise e -> e = OverflowError.
Proof.
  unfold three_years_ago, minus_timedelta.
  destruct (_ && _); cbn [bind]; [discriminate | intros [= <-]; reflexivity].
Qed.

Lemma ytd_exn (now : datetime) (e : exn) : ytd now = Raise e -> e = ValueError.
Proof.
  unfold ytd, check_date_fields.
  destruct (_ && _); cbn [bind]; [discriminate | intros [= <-]; reflexivity].
Qed.

Lemma format_float_exn {A : Type} (col : row -> option A) rows (e : exn) :
  format_float col rows = Raise e -> e = TypeError.
Proof.
  unfold format_float. destruct (agg_is_null col rows);
    [intros [= <-]; reflexivity | discriminate].
Qed.

Lemma fetchone_date_exn (rows : table) (e : exn) :
  AnalyzeDb.fetchone_date rows = Raise e -> e = TypeError.
Proof.
  unfold AnalyzeDb.fetchone_date. destruct (fetchone rows);
    [discriminate | intros [= <-]; reflexivity].
Qed.

Lemma fdiv_365 (x : Q) : fdiv x (365 # 1) = Ok (round64 (x / (365 # 1))).
Proof. reflexivity. Qed.

Ltac raise_step lem :=
  match goal with
  | |- bind ?r _ <> Raise ZeroDivisionError =>
      let E := fresh "E" in
      destruct r as [? | ?] eqn:E; cbn [bind];
      [| intros [= ->]; apply lem in E; intuition discriminate]
  end.

Lemma SUM_volume_exn (rows : table) (e : exn) :
  SUM_volume rows = Raise e -> e = OperationalError.
Proof.
  unfold SUM_volume. generalize 0.
  induction (map volume rows) as [|[v|] rest IH]; intros acc;
    cbn [sum_from bind].
  - discriminate.
  - destruct (fits_int64 (acc + v)); [apply IH|].
    cbn [bind]. intros [= <-]. reflexivity.
  - apply IH.
Qed.

Lemma ticker_statistics_no_division_error db now t :
  ticker_statistics db now t <> Raise ZeroDivisionError.
Proof.
  unfold ticker_statistics.
  raise_step SUM_volume_exn.
  raise_step strptime_exn. raise_step strptime_exn.
  rewrite fdiv_365. cbn [bind]. rewrite completeness_of_ok. cbn [bind].
  raise_step three_years_ago_exn. raise_step ytd_exn.
  do 4 raise_step (@format_float_exn). discriminate.
Qed.

Lemma ticker_analysis_no_division_error db now t :
  AnalyzeDb.ticker_analysis db now t <> Raise ZeroDivisionError.
Proof.
  unfold AnalyzeDb.ticker_analysis.
  raise_step fetchone_date_exn. raise_step fetchone_date_exn.
  raise_step strptime_exn. raise_step strptime_exn.
  rewrite fdiv_365. cbn [bind]. rewrite completeness_of_ok. cbn [bind].
  raise_step three_years_ago_exn. discriminate.
Qed.

Lemma expected_spec_eq (d : Z) : expected_trading_days_spec d = d * 252 / 365.
Proof.
  unfold expected_trading_days_spec, Qfloor, Qdiv, Qmult, Qinv, inject_Z.
  cbn [Qnum Qden]. f_equal. lia.
Qed.

Lemma count_since_le (t since : option string) (db : table) :
  count (where_ticker_since t since db) <= count (where_ticker t db).
Proof.
  unfold count, where_ticker_since, where_ticker. apply Nat2Z.inj_le.
  induction db as [|r rest IH]; cbn; [lia|].
  destruct (sql_eq (ticker r) t); cbn [andb]; [|exact IH].
  destruct (sql_ge (date r) since); cbn [List.length]; lia.
Qed.

Lemma bind_ok_inv {A B : Type} (r : result A) (k : A -> result B) (b : B) :
  bind r k = Ok b -> exists a, r = Ok a /\ k a = Ok b.
Proof.
  destruct r as [a|e]; cbn [bind]; [eauto | discriminate].
Qed.

Ltac ok_step H :=
  let x := fresh "x" in
  let Hx := fresh "Hx" in
  apply bind_ok_inv in H; destruct H as (x & Hx & H); clear Hx.

(** C1: neither script can raise a division error while computing the
    completeness of a ticker: the ratio is taken only under the guard
    [expected_trading_days > 0] and is [0] otherwise, in particular when the
    span is zero days; on a valid history whose volumes can be summed (so
    that the query of [get_database_statistics] does not overflow) the value
    reported is the quotient [record_count / expected_trading_days] when the
    divisor is positive. *)
Theorem completeness_never_divides_by_zero
  (db : table) (now : datetime) (t : option string) :
  ticker_statistics db now t <> Raise ZeroDivisionError /\
  AnalyzeDb.ticker_analysis db now t <> Raise ZeroDivisionError /\
  (forall rc e,
      completeness_of rc e =
      Ok (if 0 <? e then round64 (inject_Z rc / inject_Z e) else 0%Q)) /\
  (valid_history t db = true -> volumes_fit t db = true ->
   valid_now now = true ->
   exists e a,
     ticker_statistics db now t = Ok e /\
     AnalyzeDb.ticker_analysis db now t = Ok a /\
     (date_range_days e = 0 -> expected_trading_days e = 0) /\
     (expected_trading_days e = 0 -> completeness e = 0%Q) /\
     (0 < expected_trading_days e ->
      completeness e =
      round64 (inject_Z (record_count e) / inject_Z (expected_trading_days e))) /\
     (AnalyzeDb.date_range_days a = 0 -> AnalyzeDb.expected_records a = 0) /\
     (AnalyzeDb.expected_records a = 0 -> AnalyzeDb.completeness a = 0%Q) /\
     (0 < AnalyzeDb.expected_records a ->
      AnalyzeDb.completeness a =
      round64 (inject_Z (AnalyzeDb.record_count a)
               / inject_Z (AnalyzeDb.expected_records a)))).
Proof.
  split; [apply ticker_statistics_no_division_error|].
  split; [apply ticker_analysis_no_division_error|].
  split; [apply completeness_of_ok|].
  intros Hhist Hfit Hnow.
  destruct (ticker_statistics_valid db now t Hhist Hfit Hnow)
    as (f & l & df & dl & y & H & _ & He).
  pose proof (ticker_analysis_valid db now t f l df dl Hhist Hnow H) as Ha.
  eexists. eexists. split; [exact He|]. split; [exact Ha|].
  cbn [date_range_days expected_trading_days completeness record_count
       AnalyzeDb.date_range_days AnalyzeDb.expected_records
       AnalyzeDb.completeness AnalyzeDb.record_count].
  repeat split.
  - intros ->. reflexivity.
  - intros ->. reflexivity.
  - intros Hpos. apply Z.ltb_lt in Hpos. rewrite Hpos. reflexivity.
  - intros ->. reflexivity.
  - intros ->. reflexivity.
  - intros Hpos. apply Z.ltb_lt in Hpos. rewrite Hpos. reflexivity.
Qed.

Lemma completeness_never_divides_by_zero_witness :
  (valid_history (Some "XYZ"%string) Samples.xyz_db = true /\
   volumes_fit (Some "XYZ"%string) Samples.xyz_db = true /\
   valid_now Samples.today = true) /\
  exists e a,
    ticker_statistics Samples.xyz_db Samples.today (Some "XYZ"%string) = Ok e /\
    AnalyzeDb.ticker_analysis Samples.xyz_db Samples.today (Some "XYZ"%string) = Ok a.
Proof.
  assert (H1 : valid_history (Some "XYZ"%string) Samples.xyz_db = true)
    by (vm_compute; reflexivity).
  assert (H2 : valid_now Samples.today = true) by (vm_compute; reflexivity).
  assert (H3 : volumes_fit (Some "XYZ"%string) Samples.xyz_db = true)
    by (vm_compute; reflexivity).
  split; [repeat split; assumption|].
  destruct (completeness_never_divides_by_zero Samples.xyz_db Samples.today
              (Some "XYZ"%string)) as (_ & _ & _ & H).
  destruct (H H1 H3 H2) as (e & a & He & Ha & _).
  exists e, a. split; assumption.
Defined.

(** C2: on a valid history whose volumes can be summed (so that the query
    of [get_database_statistics] does not overflow) the span is the
    difference of the day numbers of the last and the first date (nothing is
    added for the end points), the
    expected number of trading days is [floor ((span / 365.0) * 252)], it is
    [0] when the span is [0], and a history of one record has span [0]. *)
Theorem expected_trading_days_formula
  (db : table) (now : datetime) (t : option string) :
  valid_history t db = true -> volumes_fit t db = true ->
  valid_now now = true ->
  exists e a df dl,
    ticker_statistics db now t = Ok e /\
    AnalyzeDb.ticker_analysis db now t = Ok a /\
    strptime (Some (first_date e)) = Ok df /\
    strptime (Some (last_date e)) = Ok dl /\
    date_range_days e = toordinal dl - toordinal df /\
    expected_trading_days e = expected_trading_days_spec (date_range_days e) /\
    AnalyzeDb.date_range_days a = date_range_days e /\
    AnalyzeDb.expected_records a = expected_trading_days e /\
    (date_range_days e = 0 -> expected_trading_days e = 0) /\
    (forall r, where_ticker t db = [r] -> date_range_days e = 0).
Proof.
  intros Hhist Hfit Hnow.
  destruct (ticker_statistics_valid db now t Hhist Hfit Hnow)
    as (f & l & df & dl & y & H & _ & He).
  pose proof (ticker_analysis_valid db now t f l df dl Hhist Hnow H) as Ha.
  eexists. eexists. exists df, dl. split; [exact He|]. split; [exact Ha|].
  cbn [first_date last_date date_range_days expected_trading_days
       AnalyzeDb.date_range_days AnalyzeDb.expected_records].
  split; [apply (hd_first_parse _ _ _ _ _ H)|].
  split; [apply (hd_last_parse _ _ _ _ _ H)|].
  split; [reflexivity|]. split; [symmetry; apply expected_spec_eq|].
  split; [reflexivity|]. split; [reflexivity|]. split.
  - intros ->. reflexivity.
  - intros r Hr.
    pose proof (hd_first_in _ _ _ _ _ H) as Hf.
    pose proof (hd_last_in _ _ _ _ _ H) as Hl.
    rewrite Hr in Hf, Hl. cbn in Hf, Hl.
    destruct Hf as [Hf | []], Hl as [Hl | []].
    assert (Hfl : f = l) by congruence. subst l.
    pose proof (hd_first_parse _ _ _ _ _ H) as P1.
    pose proof (hd_last_parse _ _ _ _ _ H) as P2.
    assert (df = dl) by congruence. subst dl. unfold sub_days. lia.
Qed.

Lemma expected_trading_days_formula_witness :
  (valid_history (Some "XYZ"%string) Samples.xyz_db = true /\
   volumes_fit (Some "XYZ"%string) Samples.xyz_db = true /\
   valid_now Samples.today = true) /\
  exists e,
    ticker_statistics Samples.xyz_db Samples.today (Some "XYZ"%string) = Ok e /\
    expected_trading_days e = expected_trading_days_spec (date_range_days e).
Proof.
  assert (H1 : valid_history (Some "XYZ"%string) Samples.xyz_db = true)
    by (vm_compute; reflexivity).
  assert (H2 : valid_now Samples.today = true) by (vm_compute; reflexivity).
  assert (H3 : volumes_fit (Some "XYZ"%string) Samples.xyz_db = true)
    by (vm_compute; reflexivity).
  split; [repeat split; assumption|].
  destruct (expected_trading_days_formula Samples.xyz_db Samples.today
              (Some "XYZ"%string) H1 H3 H2)
    as (e & a & df & dl & He & _ & _ & _ & _ & Hexp & _).
  exists e. split; assumption.
Defined.

Lemma for_each_raises {A B : Type} (f : A -> result B) (l : list A) (a : A) (e : exn) :
  In a l -> f a = Raise e -> is_ok (for_each f l) = false.
Proof.
  induction l as [|x rest IH]; [intros []|].
  intros [-> | Hin] Hf; cbn [for_each].
  - rewrite Hf. reflexivity.
  - destruct (f x); cbn [bind]; [|reflexivity].
    specialize (IH Hin Hf). destruct (for_each f rest); [discriminate | reflexivity].
Qed.

(** C5, as the code has it: for a ticker without records the per-ticker
    computation of either script fails with Python's [TypeError], raised on
    the missing first date; when such a ticker is among those enumerated, the
    scripts abort and return [False] from their catch-all [except] clause.
    The code has no error of its own for an empty history. *)
Theorem empty_history_fails (db : table) (now : datetime) (t : option string) :
  where_ticker t db = [] ->
  ticker_statistics db now t = Raise TypeError /\
  AnalyzeDb.ticker_analysis db now t = Raise TypeError /\
  (In t (distinct_tickers db) ->
   get_database_statistics (Ok db) now = false /\
   AnalyzeDb.analyze_database (Ok db) now = false).
Proof.
  intros Hempty.
  assert (Hs : ticker_statistics db now t = Raise TypeError).
  { unfold ticker_statistics. rewrite Hempty. reflexivity. }
  assert (Ha : AnalyzeDb.ticker_analysis db now t = Raise TypeError).
  { unfold AnalyzeDb.ticker_analysis. rewrite Hempty. reflexivity. }
  split; [exact Hs|]. split; [exact Ha|]. intros Hin. split.
  - unfold get_database_statistics, statistics_body. cbn [bind].
    destruct (database_summary db now); cbn [bind]; [|reflexivity].
    eapply for_each_raises; eassumption.
  - unfold AnalyzeDb.analyze_database, AnalyzeDb.analysis_body. cbn [bind].
    eapply for_each_raises; eassumption.
Qed.

Lemma empty_history_fails_witness :
  where_ticker None Samples.orphan_db = [] /\
  In None (distinct_tickers Samples.orphan_db) /\
  ticker_statistics Samples.orphan_db Samples.today None = Raise TypeError /\
  get_database_statistics (Ok Samples.orphan_db) Samples.today = false /\
  AnalyzeDb.analyze_database (Ok Samples.orphan_db) Samples.today = false.
Proof.
  assert (H1 : where_ticker None Samples.orphan_db = []) by reflexivity.
  assert (H2 : In None (distinct_tickers Samples.orphan_db))
    by (left; reflexivity).
  destruct (empty_history_fails Samples.orphan_db Samples.today None H1)
    as (Hs & _ & Hrun).
  destruct (Hrun H2) as [Hg Ha]. repeat split; assumption.
Defined.

(** C5, as the specification words it, fails: the exception raised for the
    empty history of [orphan_db] is no [EmptyInputError], because the same
    exception is raised for the ticker of [dateless_db], which has a
    record. *)
Lemma empty_input_error_absent :
  where_ticker None Samples.orphan_db = [] /\
  ~ (exists e,
        ticker_statistics Samples.orphan_db Samples.today None = Raise e /\
        SpecErrors.spec_EmptyInputError e).
Proof.
  split; [reflexivity|]. intros (e & Hraise & Hspec).
  assert (He : e = TypeError) by (vm_compute in Hraise; congruence).
  subst e.
  assert (Hnil : where_ticker (Some "XYZ"%string) Samples.dateless_db = []).
  { apply (Hspec Samples.dateless_db Samples.today). left.
    vm_compute. reflexivity. }
  discriminate Hnil.
Qed.

(** C6: on a valid history whose volumes can be summed (so that the query of
    [get_database_statistics] does not overflow) both scripts report as first
    date the least date
    of the ticker's records and as last date the greatest one, in the order of
    the date strings and in the order of the days they denote; the first date
    is not after the last, and the record count is at least [1]. *)
Theorem first_last_dates_and_count
  (db : table) (now : datetime) (t : option string) :
  valid_history t db = true -> volumes_fit t db = true ->
  valid_now now = true ->
  exists e a df dl,
    ticker_statistics db now t = Ok e /\
    AnalyzeDb.ticker_analysis db now t = Ok a /\
    AnalyzeDb.earliest_date a = first_date e /\
    AnalyzeDb.latest_date a = last_date e /\
    AnalyzeDb.record_count a = record_count e /\
    strptime (Some (first_date e)) = Ok df /\
    strptime (Some (last_date e)) = Ok dl /\
    In (Some (first_date e)) (map date (where_ticker t db)) /\
    In (Some (last_date e)) (map date (where_ticker t db)) /\
    (forall s ds, In (Some s) (map date (where_ticker t db)) ->
                  strptime (Some s) = Ok ds ->
                  String.leb (first_date e) s = true /\
                  String.leb s (last_date e) = true /\
                  toordinal df <= toordinal ds <= toordinal dl) /\
    String.leb (first_date e) (last_date e) = true /\
    toordinal df <= toordinal dl /\
    1 <= record_count e.
Proof.
  intros Hhist Hfit Hnow.
  destruct (ticker_statistics_valid db now t Hhist Hfit Hnow)
    as (f & l & df & dl & y & H & _ & He).
  pose proof (ticker_analysis_valid db now t f l df dl Hhist Hnow H) as Ha.
  destruct (valid_history_rows t db Hhist) as [Hne _].
  eexists. eexists. exists df, dl. split; [exact He|]. split; [exact Ha|].
  cbn [first_date last_date record_count AnalyzeDb.earliest_date
       AnalyzeDb.latest_date AnalyzeDb.record_count].
  destruct H as [Hmin Hmax Hfin Hlin Hfle Hlge Pf Pl Hbetween Hspan].
  repeat split; auto.
  - apply (Hbetween s ds); assumption.
  - apply (Hbetween s ds); assumption.
  - unfold sub_days in Hspan. lia.
  - apply count_pos. exact Hne.
Qed.

Lemma first_last_dates_and_count_witness :
  (valid_history (Some "XYZ"%string) Samples.xyz_db = true /\
   volumes_fit (Some "XYZ"%string) Samples.xyz_db = true /\
   valid_now Samples.today = true) /\
  exists e,
    ticker_statistics Samples.xyz_db Samples.today (Some "XYZ"%string) = Ok e /\
    String.leb (first_date e) (last_date e) = true /\
    1 <= record_count e.
Proof.
  assert (H1 : valid_history (Some "XYZ"%string) Samples.xyz_db = true)
    by (vm_compute; reflexivity).
  assert (H2 : valid_now Samples.today = true) by (vm_compute; reflexivity).
  assert (H3 : volumes_fit (Some "XYZ"%string) Samples.xyz_db = true)
    by (vm_compute; reflexivity).
  split; [repeat split; assumption|].
  destruct (first_last_dates_and_count Samples.xyz_db Samples.today
              (Some "XYZ"%string) H1 H3 H2)
    as (e & a & df & dl & He & _ & _ & _ & _ & _ & _ & _ & _ & _ & Hle & _ & Hc).
  exists e. repeat split; assumption.
Defined.

(** C7: for every store, ticker and current date, a count of the ticker's
    records from some date on never exceeds the count of all its records; so
    whenever the scripts produce the three-year count and the year-to-date
    count these are at most the record count, and on a valid history whose
    volumes can be summed (so that the query of [get_database_statistics]
    does not overflow) they are produced: the counts of the records dated on or after the current date
    minus 1095 days, and on or after January 1 of the current year. *)
Theorem recent_and_ytd_counts_bounded
  (db : table) (now : datetime) (t : option string) :
  (forall since, count (where_ticker_since t since db) <= count (where_ticker t db)) /\
  (forall e, ticker_statistics db now t = Ok e ->
             recent_count e <= record_count e /\ ytd_count e <= record_count e) /\
  (forall a, AnalyzeDb.ticker_analysis db now t = Ok a ->
             AnalyzeDb.recent_count a <= AnalyzeDb.record_count a) /\
  (valid_history t db = true -> volumes_fit t db = true ->
   valid_now now = true ->
   exists e a three_years_ago_day,
     minus_timedelta now (3 * 365) = Ok three_years_ago_day /\
     ticker_statistics db now t = Ok e /\
     AnalyzeDb.ticker_analysis db now t = Ok a /\
     recent_count e =
       count (where_ticker_since t (Some (strftime three_years_ago_day)) db) /\
     ytd_count e =
       count (where_ticker_since t (Some (strftime (mkDate (year now) 1 1))) db) /\
     AnalyzeDb.recent_count a = recent_count e /\
     recent_count e <= record_count e /\ ytd_count e <= record_count e).
Proof.
  split; [intros since; apply count_since_le|]. split; [|split].
  - intros e He. unfold ticker_statistics in He.
    do 11 ok_step He. injection He as <-.
    cbn [recent_count ytd_count record_count]. split; apply count_since_le.
  - intros a Ha. unfold AnalyzeDb.ticker_analysis in Ha.
    do 7 ok_step Ha. injection Ha as <-.
    cbn [AnalyzeDb.recent_count AnalyzeDb.record_count]. apply count_since_le.
  - intros Hhist Hfit Hnow.
    destruct (ticker_statistics_valid db now t Hhist Hfit Hnow)
      as (f & l & df & dl & y & H & _ & He).
    pose proof (ticker_analysis_valid db now t f l df dl Hhist Hnow H) as Ha.
    eexists. eexists. exists (ord2ymd (toordinal now - 3 * 365)).
    split; [apply (minus_three_years_ok now Hnow)|].
    split; [exact He|]. split; [exact Ha|].
    cbn [recent_count ytd_count record_count AnalyzeDb.recent_count].
    split; [reflexivity|]. split; [reflexivity|]. split; [reflexivity|].
    split; apply count_since_le.
Qed.

Lemma recent_and_ytd_counts_bounded_witness :
  (valid_history (Some "XYZ"%string) Samples.xyz_db = true /\
   volumes_fit (Some "XYZ"%string) Samples.xyz_db = true /\
   valid_now Samples.today = true) /\
  exists e,
    ticker_statistics Samples.xyz_db Samples.today (Some "XYZ"%string) = Ok e /\
    recent_count e <= record_count e /\ ytd_count e <= record_count e.
Proof.
  assert (H1 : valid_history (Some "XYZ"%string) Samples.xyz_db = true)
    by (vm_compute; reflexivity).
  assert (H2 : valid_now Samples.today = true) by (vm_compute; reflexivity).
  assert (H3 : volumes_fit (Some "XYZ"%string) Samples.xyz_db = true)
    by (vm_compute; reflexivity).
  split; [repeat split; assumption|].
  destruct (recent_and_ytd_counts_bounded Samples.xyz_db Samples.today
              (Some "XYZ"%string)) as (_ & _ & _ & H).
  destruct (H H1 H3 H2) as (e & a & d3 & _ & He & _ & _ & _ & _ & Hr & Hy).
  exists e. repeat split; assumption.
Defined.

(** C10: the completeness ratio is not clamped: there is a valid history
    (three consecutive days, so a span of two days and one expected trading
    day) with more records than expected trading days, for which both scripts
    report a completeness above [1]. *)
Theorem completeness_not_clamped :
  exists db now t e a,
    valid_history t db = true /\ valid_now now = true /\
    ticker_statistics db now t = Ok e /\
    AnalyzeDb.ticker_analysis db now t = Ok a /\
    expected_trading_days e < record_count e /\
    (1 < completeness e)%Q /\
    AnalyzeDb.expected_records a < AnalyzeDb.record_count a /\
    (1 < AnalyzeDb.completeness a)%Q.
Proof.
  exists Samples.xyz_db, Samples.today, (Some "XYZ"%string).
  eexists. eexists.
  split; [vm_compute; reflexivity|]. split; [vm_compute; reflexivity|].
  split; [vm_compute; reflexivity|]. split; [vm_compute; reflexivity|].
  cbn [expected_trading_days record_count completeness
       AnalyzeDb.expected_records AnalyzeDb.record_count AnalyzeDb.completeness].
  repeat split; reflexivity.
Qed.

End Coverage.

(* ================================================================== *)
(** ** SELECT DISTINCT ticker ... ORDER BY ticker *)

Module DistinctFacts.
Import Sql SqlFacts TickerOrder.

Lemma string_compare_refl (a : string) : String.compare a a = Eq.
Proof.
  induction a as [|c a IH]; cbn; [reflexivity|].
  unfold Ascii.compare. rewrite N.compare_refl. exact IH.
Qed.

Lemma string_compare_lt_trans (a b c : string) :
  String.compare a b = Lt -> String.compare b c = Lt -> String.compare a c = Lt.
Proof.
  revert b c. induction a as [|ca a IH]; intros [|cb b] [|cc c]; cbn;
    try congruence.
  unfold Ascii.compare.
  destruct (N.compare_spec (N_of_ascii ca) (N_of_ascii cb));
    destruct (N.compare_spec (N_of_ascii cb) (N_of_ascii cc));
    destruct (N.compare_spec (N_of_ascii ca) (N_of_ascii cc));
    try congruence; try lia.
  apply IH.
Qed.

Lemma sql_compare_refl (a : option string) : sql_compare a a = Eq.
Proof. destruct a; [apply string_compare_refl | reflexivity]. Qed.

Lemma sql_compare_eq (a b : option string) : sql_compare a b = Eq -> a = b.
Proof.
  destruct a as [x|], b as [y|]; cbn; try congruence.
  intros H. apply String.compare_eq_iff in H. congruence.
Qed.

Lemma sql_compare_antisym (a b : option string) :
  sql_compare a b = CompOpp (sql_compare b a).
Proof.
  destruct a as [x|], b as [y|]; cbn; try reflexivity.
  apply String.compare_antisym.
Qed.

Lemma sql_compare_lt_trans (a b c : option string) :
  sql_compare a b = Lt -> sql_compare b c = Lt -> sql_compare a c = Lt.
Proof.
  destruct a as [x|], b as [y|], c as [z|]; cbn; try congruence.
  apply string_compare_lt_trans.
Qed.

Lemma insert_distinct_In (t x : option string) (l : list (option string)) :
  In x (insert_distinct t l) <-> x = t \/ In x l.
Proof.
  induction l as [|h rest IH]; cbn.
  - intuition congruence.
  - destruct (sql_compare t h) eqn:E; cbn.
    + apply sql_compare_eq in E. subst h. intuition congruence.
    + intuition congruence.
    + rewrite IH. intuition congruence.
Qed.

Lemma insert_distinct_ascending (t : option string) (l : list (option string)) :
  ascending l -> ascending (insert_distinct t l).
Proof.
  unfold ascending. induction l as [|h rest IH]; cbn; intros Hs.
  - constructor; constructor.
  - inversion Hs as [|? ? Hrest Hall]; subst.
    destruct (sql_compare t h) eqn:E.
    + exact Hs.
    + constructor; [exact Hs|]. constructor; [exact E|].
      apply Forall_forall. intros x Hx.
      rewrite Forall_forall in Hall.
      eapply sql_compare_lt_trans; [exact E | auto].
    + constructor; [auto|].
      apply Forall_forall. intros x Hx. apply insert_distinct_In in Hx.
      destruct Hx as [-> | Hx].
      * rewrite sql_compare_antisym, E. reflexivity.
      * rewrite Forall_forall in Hall. auto.
Qed.

Lemma distinct_tickers_ascending (db : table) : ascending (distinct_tickers db).
Proof.
  unfold distinct_tickers. induction db as [|r rest IH]; cbn.
  - constructor.
  - apply insert_distinct_ascending. exact IH.
Qed.

Lemma ascending_NoDup (l : list (option string)) : ascending l -> NoDup l.
Proof.
  unfold ascending. induction 1 as [|a l Hs IH Hall]; constructor; [|exact IH].
  intros Hin. rewrite Forall_forall in Hall. specialize (Hall a Hin).
  rewrite sql_compare_refl in Hall. discriminate.
Qed.

Lemma distinct_tickers_NoDup (db : table) : NoDup (distinct_tickers db).
Proof. apply ascending_NoDup, distinct_tickers_ascending. Qed.

Lemma distinct_tickers_In (db : table) (t : option string) :
  In t (distinct_tickers db) <-> In t (map ticker db).
Proof.
  unfold distinct_tickers. induction db as [|r rest IH]; cbn; [tauto|].
  rewrite insert_distinct_In, IH. intuition congruence.
Qed.

End DistinctFacts.

(* ================================================================== *)
(** ** The display loop cuts the ticker list into batches of seven *)

Module BatchFacts.
Import Sql SqlFacts Batches.

Lemma firstn_add {A : Type} (a b : nat) (l : list A) :
  firstn (a + b) l = firstn a l ++ firstn b (skipn a l).
Proof.
  revert l. induction a as [|a IH]; intros l; [reflexivity|].
  destruct l as [|x l]; cbn.
  - rewrite firstn_nil. reflexivity.
  - rewrite IH. reflexivity.
Qed.

Lemma filter_all {A : Type} (f : A -> bool) (l : list A) :
  (forall x, In x l -> f x = true) -> filter f l = l.
Proof.
  induction l as [|a l IH]; cbn; intros H; [reflexivity|].
  rewrite (H a (or_introl eq_refl)). f_equal. apply IH. auto.
Qed.

Lemma NoDup_app_disjoint {A : Type} (l1 l2 : list A) (x : A) :
  NoDup (l1 ++ l2) -> In x l1 -> In x l2 -> False.
Proof.
  induction l1 as [|a l1 IH]; cbn; [tauto|].
  intros Hnd [-> | Hin] H2; inversion Hnd as [|? ? Hnotin Hrest]; subst.
  - apply Hnotin. apply in_or_app. right. exact H2.
  - eauto.
Qed.

Lemma isin_In (t : option string) (values : list (option string)) :
  isin t values = true <-> In t values.
Proof.
  unfold isin. rewrite existsb_exists. split.
  - intros (x & Hin & Heq). apply opt_eqb_eq in Heq. congruence.
  - intros Hin. exists t. split; [exact Hin | apply opt_eqb_eq; reflexivity].
Qed.

(** Selecting the rows whose key is in a segment of a duplicate-free key
    column gives that segment of the rows. *)
Lemma filter_isin_segment {entry : Type} (T : entry -> option string)
  (p m s : list entry) :
  NoDup (map T (p ++ m ++ s)) ->
  filter (fun e => isin (T e) (map T m)) (p ++ m ++ s) = m.
Proof.
  intros Hnd. rewrite !map_app in Hnd. rewrite !filter_app.
  assert (Hp : filter (fun e => isin (T e) (map T m)) p = []).
  { apply filter_nil. intros e He.
    destruct (isin (T e) (map T m)) eqn:E; [|reflexivity]. exfalso.
    apply isin_In in E.
    apply (NoDup_app_disjoint _ _ (T e) Hnd); [apply in_map; exact He|].
    apply in_or_app. left. exact E. }
  assert (Hs : filter (fun e => isin (T e) (map T m)) s = []).
  { apply filter_nil. intros e He.
    destruct (isin (T e) (map T m)) eqn:E; [|reflexivity]. exfalso.
    apply isin_In in E. apply NoDup_app_remove_l in Hnd.
    apply (NoDup_app_disjoint _ _ (T e) Hnd); [exact E | apply in_map; exact He]. }
  assert (Hm : filter (fun e => isin (T e) (map T m)) m = m).
  { apply filter_all. intros e He. apply isin_In. apply in_map. exact He. }
  rewrite Hp, Hs, Hm, app_nil_r. reflexivity.
Qed.

Lemma slice_nat {A : Type} (l : list A) (k : nat) :
  slice l (0 + Z.of_nat k * batch_size) (0 + Z.of_nat k * batch_size + batch_size)
  = firstn 7 (skipn (7 * k) l).
Proof.
  unfold slice, batch_size.
  replace (Z.to_nat (0 + Z.of_nat k * 7 + 7 - (0 + Z.of_nat k * 7))) with 7%nat
    by lia.
  replace (Z.to_nat (0 + Z.of_nat k * 7)) with (7 * k)%nat by lia.
  reflexivity.
Qed.

Lemma concat_segments {A : Type} (l : list A) (K : nat) :
  List.concat (map (fun k => firstn 7 (skipn (7 * k) l)) (seq 0 K)) = firstn (7 * K) l.
Proof.
  induction K as [|K IH]; [reflexivity|].
  rewrite seq_S, map_app, concat_app, IH. cbn [map List.concat Nat.add].
  rewrite app_nil_r. replace (7 * S K)%nat with (7 * K + 7)%nat by lia.
  rewrite firstn_add. reflexivity.
Qed.

(** The number of turns of the loop. *)
Lemma range_len_bounds (n : nat) :
  let K := range_len 0 (Z.of_nat n) batch_size in
  0 <= K /\ Z.of_nat n <= 7 * K /\ (0 < K -> 7 * (K - 1) < Z.of_nat n)
  /\ K = (Z.of_nat n - 1) / batch_size + 1.
Proof.
  unfold range_len, batch_size. destruct (0 <? Z.of_nat n) eqn:E.
  - apply Z.ltb_lt in E. replace (Z.of_nat n - 1 - 0) with (Z.of_nat n - 1) by lia.
    Z.div_mod_to_equations. lia.
  - apply Z.ltb_ge in E. assert (n = 0%nat) by lia. subst n. cbn.
    repeat split; try lia; reflexivity.
Qed.

Lemma display_batches_eq {entry : Type} (Ticker : entry -> option string)
  (tickers : list (option string)) (df : list entry) :
  let n := Z.of_nat (List.length tickers) in
  display_batches Ticker tickers df =
  map (fun k =>
         {| batch_no := Z.of_nat k + 1;
            batch_of := (n - 1) / batch_size + 1;
            batch_tickers := firstn 7 (skipn (7 * k) tickers);
            batch_df := filter (fun e => isin (Ticker e)
                                           (firstn 7 (skipn (7 * k) tickers))) df;
            separator := Z.of_nat k * batch_size + batch_size <? n |})
      (seq 0 (Z.to_nat (range_len 0 n batch_size))).
Proof.
  intros n. unfold display_batches, py_range. fold n. rewrite map_map.
  apply map_ext. intros k. rewrite slice_nat.
  replace ((0 + Z.of_nat k * batch_size) / batch_size) with (Z.of_nat k)
    by (unfold batch_size; rewrite Z.add_0_l, Z.div_mul by lia; reflexivity).
  reflexivity.
Qed.

Lemma nth_error_map_seq {B : Type} (h : nat -> B) (K k : nat) (b : B) :
  nth_error (map h (seq 0 K)) k = Some b -> (k < K)%nat /\ b = h k.
Proof.
  rewrite nth_error_map, nth_error_seq.
  destruct (k <? K)%nat eqn:E; cbn; [|discriminate].
  apply Nat.ltb_lt in E. intros [= <-]. auto.
Qed.

(** X1: the display loop of [get_database_statistics] cuts the ticker list
    into consecutive batches: put end to end the batches give back the list;
    the number of batches is the total [(len - 1) // 7 + 1] shown in every
    title; the k-th title carries the number k; a batch has between one and
    seven tickers, seven unless it is the last; and the separator line follows
    every batch but the last. *)
Theorem display_batches_partition {entry : Type}
  (Ticker : entry -> option string) (tickers : list (option string))
  (df : list entry) :
  let batches := display_batches Ticker tickers df in
  List.concat (map batch_tickers batches) = tickers /\
  Z.of_nat (List.length batches)
    = (Z.of_nat (List.length tickers) - 1) / 7 + 1 /\
  forall k b, nth_error batches k = Some b ->
    batch_no b = Z.of_nat k + 1 /\
    batch_of b = Z.of_nat (List.length batches) /\
    batch_tickers b = firstn 7 (skipn (7 * k) tickers) /\
    (1 <= List.length (batch_tickers b) <= 7)%nat /\
    ((S k < List.length batches)%nat -> List.length (batch_tickers b) = 7%nat) /\
    separator b = (S k <? List.length batches)%nat.
Proof.
  intros batches. unfold batches. rewrite display_batches_eq.
  set (n := List.length tickers).
  pose proof (range_len_bounds n) as (HK0 & Hn & HK & Hof). cbv zeta in *.
  set (K := range_len 0 (Z.of_nat n) batch_size) in *.
  assert (Hlen : forall h : nat -> batch entry,
             List.length (map h (seq 0 (Z.to_nat K))) = Z.to_nat K).
  { intros h. rewrite length_map, length_seq. reflexivity. }
  split; [|split].
  - rewrite map_map. cbn [batch_tickers]. rewrite concat_segments.
    apply firstn_all2. fold n. lia.
  - rewrite Hlen. unfold batch_size in Hof. lia.
  - intros k b Hb. apply nth_error_map_seq in Hb. destruct Hb as [Hk ->].
    rewrite Hlen. cbn [batch_no batch_of batch_tickers separator].
    split; [reflexivity|]. split; [lia|]. split; [reflexivity|].
    rewrite length_firstn, length_skipn. fold n.
    split; [lia|]. split; [lia|].
    unfold batch_size.
    destruct (S k <? Z.to_nat K)%nat eqn:E.
    + apply Nat.ltb_lt in E. apply Z.ltb_lt. lia.
    + apply Nat.ltb_ge in E. apply Z.ltb_ge. lia.
Qed.

Lemma display_batches_partition_witness :
  let batches :=
    display_batches (fun t : option string => t)
      (map (fun i => Some (String (ascii_of_nat (65 + i)) EmptyString)) (seq 0 9))
      [] in
  exists b, nth_error batches 1 = Some b /\
            batch_no b = 2 /\ batch_of b = 2 /\
            List.length (batch_tickers b) = 2%nat /\ separator b = false.
Proof.
  intros batches.
  destruct (display_batches_partition (fun t : option string => t)
              (map (fun i => Some (String (ascii_of_nat (65 + i)) EmptyString))
                   (seq 0 9)) []) as (_ & _ & H).
  destruct (nth_error batches 1) as [b|] eqn:E; [|discriminate E].
  exists b. split; [reflexivity|].
  destruct (H 1%nat b E) as (H1 & H2 & H3 & _ & _ & H6).
  repeat split.
  - exact H1.
  - rewrite H2. reflexivity.
  - rewrite H3. reflexivity.
  - rewrite H6. reflexivity.
Defined.

End BatchFacts.

(* ================================================================== *)
(** ** When the fetch returns data *)

Module FetchExactFacts.
Import FetchData FetchAccept.

Lemma existsb_key_false (key : string) (members : list (string * json)) :
  existsb (fun kv => String.eqb key (fst kv)) members = false <->
  ~ In key (map fst members).
Proof.
  split.
  - intros Hex Hin. rewrite (FetchDataFacts.existsb_key _ _ Hin) in Hex.
    discriminate.
  - intros Hnot. destruct (existsb _ members) eqn:E; [|reflexivity].
    exfalso. apply Hnot. apply existsb_exists in E.
    destruct E as (kv & Hin & Heq). apply String.eqb_eq in Heq.
    rewrite Heq. apply in_map. exact Hin.
Qed.

Lemma is_string_true (key : string) (v : json) :
  is_string key v = true <-> v = JString key.
Proof.
  destruct v; cbn; try (split; [discriminate | intros [=]]).
  rewrite String.eqb_eq. split; [intros ->; reflexivity | intros [= ->]; reflexivity].
Qed.

Lemma existsb_string_false (key : string) (items : list json) :
  existsb (is_string key) items = false <-> ~ In (JString key) items.
Proof.
  split.
  - intros Hex Hin.
    assert (existsb (is_string key) items = true).
    { apply existsb_exists. exists (JString key).
      split; [exact Hin | apply is_string_true; reflexivity]. }
    congruence.
  - intros Hnot. destruct (existsb _ items) eqn:E; [|reflexivity].
    exfalso. apply Hnot. apply existsb_exists in E.
    destruct E as (v & Hin & Hv). apply is_string_true in Hv. subst v.
    exact Hin.
Qed.

Lemma py_in_false (data : json) :
  py_in Error_Message data = Ok false <-> accepted data.
Proof.
  destruct data as [| b | q | s | items | members]; cbn;
    try (split; [discriminate | intros []]).
  - destruct (String.index 0 Error_Message s);
      split; congruence.
  - rewrite <- existsb_string_false.
    destruct (existsb _ items); split; congruence.
  - rewrite <- existsb_key_false.
    destruct (existsb _ members); split; congruence.
Qed.

Lemma fetch_body_data (net : network) (self : AlphaVantageAPI)
  (symbol outputsize : string) (data : json) :
  fetch_body net self symbol outputsize = Ok (Some data) <->
  exists status,
    net (build_request self symbol outputsize) = Response status (Some data) /\
    ~ (400 <= status < 600) /\
    accepted data.
Proof.
  unfold fetch_body, requests_get.
  destruct (net (build_request self symbol outputsize)) as [|status body];
    cbn [bind fst snd].
  - split; [discriminate | intros (st & H & _); discriminate].
  - unfold raise_for_status.
    destruct ((400 <=? status) && (status <? 600)) eqn:Est; cbn [bind].
    + apply andb_true_iff in Est. destruct Est as [H1 H2].
      apply Z.leb_le in H1. apply Z.ltb_lt in H2.
      split; [discriminate|]. intros (st & [= <- _] & Hst & _). lia.
    + assert (Hok : ~ (400 <= status < 600)).
      { intros [H1 H2]. apply Z.leb_le in H1. apply Z.ltb_lt in H2.
        rewrite H1, H2 in Est. discriminate. }
      destruct body as [d|]; cbn [response_json bind].
      * destruct (py_in Error_Message d) as [[|]|e] eqn:Ein; cbn [bind].
        -- split.
           ++ destruct (py_getitem Error_Message d); cbn [bind]; discriminate.
           ++ intros (st & [= _ <-] & _ & Hacc). apply py_in_false in Hacc.
              congruence.
        -- split.
           ++ intros [= <-]. exists status. split; [reflexivity|].
              split; [exact Hok | apply py_in_false; exact Ein].
           ++ intros (st & [= _ <-] & _ & _). reflexivity.
        -- split; [discriminate|].
           intros (st & [= _ <-] & _ & Hacc). apply py_in_false in Hacc.
           congruence.
      * split; [discriminate | intros (st & [=] & _)].
Qed.

(** X2: [get_daily_time_series] returns a document (not [None]) exactly when
    the request got a response whose status is not 4xx or 5xx, whose body is
    JSON, and for which ['Error Message' in data] is defined and false; the
    document returned is the decoded body itself.  So a body that is a bare
    number, boolean or null also gives [None]. *)
Theorem get_daily_time_series_data_iff (net : network) (self : AlphaVantageAPI)
  (symbol outputsize : string) (data : json) :
  get_daily_time_series net self symbol outputsize = Ok (Some data) <->
  exists status,
    net (build_request self symbol outputsize) = Response status (Some data) /\
    ~ (400 <= status < 600) /\
    accepted data.
Proof.
  rewrite <- fetch_body_data. unfold get_daily_time_series.
  destruct (fetch_body net self symbol outputsize) as [v|e].
  - reflexivity.
  - destruct e; split; discriminate.
Qed.

End FetchExactFacts.

(* ================================================================== *)
(** ** Deleting a ticker, and what the cleanup script then reports *)

Module CleanupFacts.
Import Sql SqlFacts OrderFacts DistinctFacts CleanDatabase CleanupScript.

Lemma filter_filter_implied {A : Type} (f g : A -> bool) (l : list A) :
  (forall x, f x = true -> g x = true) -> filter f (filter g l) = filter f l.
Proof.
  intros H. induction l as [|a l IH]; cbn; [reflexivity|].
  destruct (g a) eqn:Eg; cbn.
  - rewrite IH. reflexivity.
  - destruct (f a) eqn:Ef; [|exact IH].
    rewrite (H a Ef) in Eg. discriminate.
Qed.

Lemma sql_eq_true (a b : option string) :
  sql_eq a b = true <-> exists s, a = Some s /\ b = Some s.
Proof.
  destruct a as [x|], b as [y|]; cbn;
    try (split; [discriminate | intros (s & H1 & H2); discriminate]).
  rewrite String.eqb_eq. split.
  - intros ->. eauto.
  - intros (s & [= ->] & [= ->]). reflexivity.
Qed.

Lemma sql_eq_other (a t t' : option string) :
  t <> t' -> sql_eq a t' = true -> negb (sql_eq a t) = true.
Proof.
  intros Hne H'. apply sql_eq_true in H'. destruct H' as (s & -> & ->).
  destruct (sql_eq (Some s) t) eqn:E; [|reflexivity].
  apply sql_eq_true in E. destruct E as (s' & [= <-] & ->). congruence.
Qed.

Lemma where_ticker_delete_other (t t' : option string) (db : table) :
  t <> t' -> where_ticker t' (delete_where_ticker t db) = where_ticker t' db.
Proof.
  intros Hne. unfold where_ticker, delete_where_ticker.
  apply filter_filter_implied. intros r. apply sql_eq_other. exact Hne.
Qed.

Lemma where_since_delete_other (t t' since : option string) (db : table) :
  t <> t' ->
  where_ticker_since t' since (delete_where_ticker t db)
  = where_ticker_since t' since db.
Proof.
  intros Hne. unfold where_ticker_since, delete_where_ticker.
  apply filter_filter_implied. intros r Hr.
  apply andb_true_iff in Hr. destruct Hr as [Hr _].
  apply (sql_eq_other _ t t' Hne Hr).
Qed.

(** X3: deleting the records of one ticker leaves every other ticker's
    records in place, so the statistics and analysis entries computed for any
    other ticker are the same before and after [delete_ticker_data]. *)
Theorem delete_ticker_data_isolated
  (db : table) (now : Datetime.datetime) (t t' : option string) :
  t <> t' ->
  exists db',
    snd (delete_ticker_data (Ok db) t) = Ok db' /\
    where_ticker t' db' = where_ticker t' db /\
    DbStats.ticker_statistics db' now t' = DbStats.ticker_statistics db now t' /\
    AnalyzeDb.ticker_analysis db' now t' = AnalyzeDb.ticker_analysis db now t' /\
    ticker_line_of db' t' = ticker_line_of db t'.
Proof.
  intros Hne. exists (delete_where_ticker t db). split; [reflexivity|].
  pose proof (where_ticker_delete_other t t' db Hne) as Hw.
  split; [exact Hw|].
  unfold DbStats.ticker_statistics, AnalyzeDb.ticker_analysis, ticker_line_of.
  rewrite Hw. split; [|split]; [| |reflexivity];
    repeat match goal with
           | |- bind ?r _ = bind ?r _ =>
               destruct r; cbn [bind]; [|reflexivity]
           end;
    rewrite ?where_since_delete_other by exact Hne; reflexivity.
Qed.

Lemma delete_ticker_data_isolated_witness :
  Some "XYZ"%string <> Some "ABC"%string /\
  exists db',
    snd (delete_ticker_data (Ok Samples.xyz_db) (Some "XYZ"%string)) = Ok db' /\
    where_ticker (Some "ABC"%string) db'
    = where_ticker (Some "ABC"%string) Samples.xyz_db.
Proof.
  assert (H : Some "XYZ"%string <> Some "ABC"%string) by discriminate.
  split; [exact H|].
  destruct (delete_ticker_data_isolated Samples.xyz_db Samples.today
              (Some "XYZ"%string) (Some "ABC"%string) H)
    as (db' & Hd & Hw & _).
  exists db'. split; assumption.
Defined.

Lemma total_of_bump (k : group_key) (g : list (group_key * Z)) :
  total_of (bump k g) = total_of g + 1.
Proof.
  unfold total_of. induction g as [|[k0 c] rest IH]; [reflexivity|].
  cbn [bump]. destruct (key_eqb k k0); cbn [map snd fold_right] in *; lia.
Qed.

Lemma total_of_fold (rows : table) (g : list (group_key * Z)) :
  total_of (fold_left (fun groups r => bump (key_of r) groups) rows g)
  = total_of g + count rows.
Proof.
  revert g. induction rows as [|r rest IH]; intros g; cbn [fold_left].
  - unfold count. cbn [List.length]. lia.
  - rewrite IH, total_of_bump. unfold count. cbn [List.length]. lia.
Qed.

(** X4: the counts that the NULL check reports, one per (ticker, date) group,
    add up to the number of records that have a NULL field: every incomplete
    record is counted in exactly one group. *)
Theorem null_records_total (db : table) :
  total_of (null_records db) = count (filter has_null db).
Proof.
  unfold null_records, group_count. rewrite total_of_fold. reflexivity.
Qed.

Lemma delete_subset (t : option string) (db : table) (r : row) :
  In r (delete_where_ticker t db) -> In r db.
Proof.
  unfold delete_where_ticker. intros H. apply filter_In in H. tauto.
Qed.

(** X5: deleting a ticker never makes the NULL check fail: if it passed
    before it passes afterwards; and if every record with a NULL field
    belongs to the ticker that is deleted, the check passes afterwards. *)
Theorem delete_then_check (db : table) (s : string) :
  (check_for_null_values (Ok db) = true ->
   check_for_null_values (snd (delete_ticker_data (Ok db) (Some s))) = true) /\
  ((forall r, In r db -> has_null r = true -> ticker r = Some s) ->
   check_for_null_values (snd (delete_ticker_data (Ok db) (Some s))) = true).
Proof.
  change (snd (delete_ticker_data (Ok db) (Some s)))
    with (@Ok table (delete_where_ticker (Some s) db)).
  split.
  - intros H. apply CleanDatabaseFacts.check_true_iff in H.
    destruct H as (db0 & [= <-] & Hall).
    apply CleanDatabaseFacts.check_true_iff. eexists. split; [reflexivity|].
    intros r Hr. apply Hall. eapply delete_subset. exact Hr.
  - intros Hdirty. apply CleanDatabaseFacts.check_true_iff.
    eexists. split; [reflexivity|]. intros r Hr.
    destruct (has_null r) eqn:E; [|reflexivity]. exfalso.
    pose proof (delete_subset _ _ _ Hr) as Hin.
    specialize (Hdirty r Hin E).
    unfold delete_where_ticker in Hr. apply filter_In in Hr.
    destruct Hr as [_ Hneg]. rewrite Hdirty in Hneg. cbn in Hneg.
    rewrite String.eqb_refl in Hneg. discriminate.
Qed.

Lemma delete_then_check_witness :
  (forall r, In r Samples.abc_null_db -> has_null r = true ->
             ticker r = Some "ABC"%string) /\
  check_for_null_values (Ok Samples.abc_null_db) = false /\
  check_for_null_values
    (snd (delete_ticker_data (Ok Samples.abc_null_db) (Some "ABC"%string))) = true.
Proof.
  assert (H : forall r, In r Samples.abc_null_db -> has_null r = true ->
                        ticker r = Some "ABC"%string).
  { intros r [<- | [<- | []]]; cbn; [discriminate | reflexivity]. }
  split; [exact H|]. split; [reflexivity|].
  exact (proj2 (delete_then_check Samples.abc_null_db "ABC") H).
Defined.

Lemma for_each_ok {A B : Type} (f : A -> result B) (l : list A) :
  (forall a, In a l -> exists b, f a = Ok b) ->
  exists bs, DbStats.for_each f l = Ok bs /\ Forall2 (fun a b => f a = Ok b) l bs.
Proof.
  induction l as [|a l IH]; intros H; cbn [DbStats.for_each].
  - exists []. split; [reflexivity | constructor].
  - destruct (H a (or_introl eq_refl)) as (b & Hb).
    destruct IH as (bs & Hbs & Hall); [intros x Hx; apply H; right; exact Hx|].
    exists (b :: bs). rewrite Hb, Hbs. split; [reflexivity|].
    constructor; assumption.
Qed.

Lemma where_ticker_In (db : table) (r : row) (s : string) :
  In r db -> ticker r = Some s -> In r (where_ticker (Some s) db).
Proof.
  intros Hin Ht. unfold where_ticker. apply filter_In. split; [exact Hin|].
  rewrite Ht. cbn. apply String.eqb_refl.
Qed.

Lemma ticker_line_of_ok (db : table) (t : option string) :
  where_ticker t db <> [] -> exists l, ticker_line_of db t = Ok l.
Proof.
  intros Hne. unfold ticker_line_of, AnalyzeDb.fetchone_date.
  destruct (order_by_ASC_head _ Hne) as (r1 & -> & _).
  destruct (order_by_DESC_head _ Hne) as (r2 & -> & _).
  cbn [bind]. eexists. reflexivity.
Qed.

Lemma ticker_line_of_empty (db : table) (t : option string) :
  where_ticker t db = [] -> ticker_line_of db t = Raise TypeError.
Proof.
  intros H. unfold ticker_line_of. rewrite H. reflexivity.
Qed.

Lemma analyze_tickers_counts (db : table) :
  (forall r, In r db -> ticker r <> None) ->
  analyze_tickers (Ok db) = Z.of_nat (List.length (distinct_tickers db)).
Proof.
  intros Hall. unfold analyze_tickers, analyze_tickers_body. cbn [bind].
  destruct (for_each_ok (ticker_line_of db) (distinct_tickers db)) as (ls & -> & _);
    [|reflexivity].
  intros t Ht. apply distinct_tickers_In in Ht. apply in_map_iff in Ht.
  destruct Ht as (r & Hr & Hin). apply ticker_line_of_ok.
  destruct t as [s|]; [|exfalso; exact (Hall r Hin Hr)].
  intros Hnil. pose proof (where_ticker_In db r s Hin Hr) as H.
  rewrite Hnil in H. destruct H.
Qed.

Lemma analyze_tickers_null (db : table) (r : row) :
  In r db -> ticker r = None -> analyze_tickers (Ok db) = 0.
Proof.
  intros Hin Hr. unfold analyze_tickers, analyze_tickers_body. cbn [bind].
  assert (Hnone : In None (distinct_tickers db)).
  { apply distinct_tickers_In. rewrite <- Hr. apply in_map. exact Hin. }
  assert (Hraise : ticker_line_of db None = Raise TypeError).
  { apply ticker_line_of_empty. unfold where_ticker. apply filter_nil.
    intros x _. destruct (ticker x); reflexivity. }
  pose proof (Coverage.for_each_raises _ _ _ _ Hnone Hraise) as Hf.
  destruct (DbStats.for_each (ticker_line_of db) (distinct_tickers db));
    [discriminate | reflexivity].
Qed.

(** X6: [analyze_tickers] returns the number of distinct tickers when no
    record has a NULL ticker; it returns [0] when the store cannot be read,
    and also when some record has a NULL ticker (NULL is then listed as a
    ticker without records and the loop raises).  So [0] does not tell an
    empty store from a failure. *)
Theorem analyze_tickers_result :
  (forall e, analyze_tickers (Raise e) = 0) /\
  (forall db, (forall r, In r db -> ticker r <> None) ->
              analyze_tickers (Ok db)
              = Z.of_nat (List.length (distinct_tickers db))) /\
  (forall db r, In r db -> ticker r = None -> analyze_tickers (Ok db) = 0) /\
  analyze_tickers (Ok []) = 0.
Proof.
  split; [reflexivity|]. split; [exact analyze_tickers_counts|].
  split; [exact analyze_tickers_null | reflexivity].
Qed.

Lemma analyze_tickers_result_witness :
  (forall r, In r Samples.xyz_db -> ticker r <> None) /\
  analyze_tickers (Ok Samples.xyz_db) = 2 /\
  analyze_tickers (Ok Samples.orphan_db) = 0.
Proof.
  assert (H : forall r, In r Samples.xyz_db -> ticker r <> None).
  { intros r [<- | [<- | [<- | [<- | []]]]]; discriminate. }
  destruct analyze_tickers_result as (_ & Hcount & Hnull & _).
  split; [exact H|]. split.
  - etransitivity; [exact (Hcount Samples.xyz_db H) | reflexivity].
  - apply (Hnull Samples.orphan_db _ (or_introl eq_refl)). reflexivity.
Defined.

Lemma no_aapl_after_delete (db : table) :
  py_in_list AAPL (distinct_tickers (delete_where_ticker AAPL db)) = false.
Proof.
  unfold py_in_list. destruct (existsb _ _) eqn:E; [|reflexivity]. exfalso.
  apply existsb_exists in E. destruct E as (x & Hin & Heq).
  apply opt_eqb_eq in Heq. subst x.
  apply distinct_tickers_In in Hin. apply in_map_iff in Hin.
  destruct Hin as (r & Hr & Hin). unfold delete_where_ticker in Hin.
  apply filter_In in Hin. destruct Hin as [_ Hneg].
  rewrite Hr in Hneg. discriminate.
Qed.

(** X7: in the cleanup script, with the store readable: the count reported as
    deleted is the number of AAPL records; the ticker analysis that follows
    never prints the warning that AAPL is still in the database; and the
    script announces success exactly when, after the deletion, there are 21
    distinct tickers and every record has its seven fields.  With the store
    unreadable it never announces success. *)
Theorem main_cleanup (db : table) :
  let db' := delete_where_ticker AAPL db in
  let c := main (Ok db) in
  deleted_count c = count (where_ticker AAPL db) /\
  warning c = Some false /\
  (successful c = true <->
   List.length (distinct_tickers db') = 21%nat /\
   forall r, In r db' -> all_fields_populated r) /\
  forall e, successful (main (Raise e)) = false.
Proof.
  intros db' c. subst c.
  assert (Hsnd : snd (delete_ticker_data (Ok db) AAPL) = Ok db') by reflexivity.
  split; [|split; [|split]].
  - unfold main. cbn [deleted_count].
    change (fst (delete_ticker_data (Ok db) AAPL))
      with (count (where_ticker AAPL db)
            - count (where_ticker AAPL (delete_where_ticker AAPL db))).
    rewrite CleanDatabaseFacts.where_after_delete. unfold count at 2. cbn. lia.
  - unfold main. cbn [warning]. rewrite Hsnd. cbn [aapl_warning].
    unfold db'. rewrite no_aapl_after_delete. reflexivity.
  - unfold main. cbn [successful]. rewrite Hsnd.
    rewrite andb_true_iff, Z.eqb_eq. split.
    + intros [Hn Hc]. apply CleanDatabaseFacts.check_true_iff in Hc.
      destruct Hc as (d & [= <-] & Hall).
      assert (Hpop : forall r, In r db' -> all_fields_populated r).
      { intros r Hr. apply CleanDatabaseFacts.has_null_false. auto. }
      split; [|exact Hpop].
      rewrite analyze_tickers_counts in Hn; [lia|].
      intros r Hr. apply (Hpop r Hr).
    + intros [Hn Hpop]. split.
      * rewrite analyze_tickers_counts; [lia|].
        intros r Hr. apply (Hpop r Hr).
      * apply CleanDatabaseFacts.check_true_iff. exists db'.
        split; [reflexivity|]. intros r Hr.
        apply CleanDatabaseFacts.has_null_false. auto.
  - intros e. reflexivity.
Qed.

End CleanupFacts.

(* ================================================================== *)
(** ** Reports over the whole store *)

Module StoreFacts.
Import Datetime DatetimeFacts Sql SqlFacts OrderFacts DistinctFacts.
Import DbStats ReportFacts Batches BatchFacts StoreReports.

Lemma ticker_statistics_key (db : table) (now : datetime) (t : option string)
  (e : ticker_entry) :
  ticker_statistics db now t = Ok e ->
  DbStats.Ticker e = t /\ record_count e = count (where_ticker t db) /\
  where_ticker t db <> [].
Proof.
  intros He. assert (Hne : where_ticker t db <> []).
  { intros Hnil. unfold ticker_statistics in He. rewrite Hnil in He.
    discriminate He. }
  unfold ticker_statistics in He. do 11 Coverage.ok_step He.
  injection He as <-. cbn [DbStats.Ticker record_count]. auto.
Qed.

Lemma ticker_analysis_key (db : table) (now : datetime) (t : option string)
  (a : AnalyzeDb.ticker_entry) :
  AnalyzeDb.ticker_analysis db now t = Ok a ->
  AnalyzeDb.Ticker a = t /\
  AnalyzeDb.record_count a = count (where_ticker t db) /\
  where_ticker t db <> [].
Proof.
  intros Ha. assert (Hne : where_ticker t db <> []).
  { intros Hnil. unfold AnalyzeDb.ticker_analysis in Ha. rewrite Hnil in Ha.
    discriminate Ha. }
  unfold AnalyzeDb.ticker_analysis in Ha. do 7 Coverage.ok_step Ha.
  injection Ha as <-. cbn [AnalyzeDb.Ticker AnalyzeDb.record_count]. auto.
Qed.

Lemma for_each_Forall2 {A B : Type} (f : A -> result B) (l : list A) (bs : list B) :
  for_each f l = Ok bs -> Forall2 (fun a b => f a = Ok b) l bs.
Proof.
  revert bs. induction l as [|a l IH]; intros bs H; cbn [for_each] in H.
  - injection H as <-. constructor.
  - destruct (f a) as [b|] eqn:Ea; cbn [bind] in H; [|discriminate].
    destruct (for_each f l) as [bs'|]; cbn [bind] in H; [|discriminate].
    injection H as <-. constructor; auto.
Qed.

Lemma Forall2_map_eq {A B C : Type} (R : A -> B -> Prop) (g : B -> C) (h : A -> C)
  (l : list A) (bs : list B) :
  Forall2 R l bs -> (forall a b, R a b -> g b = h a) -> map g bs = map h l.
Proof.
  intros H Hg. induction H as [|a b l bs Hab _ IH]; cbn; [reflexivity|].
  rewrite (Hg a b Hab), IH. reflexivity.
Qed.

Lemma sum_indicator (a : option string) (l : list (option string)) :
  NoDup l ->
  sum_Z (map (fun t => if sql_eq a t then 1 else 0) l)
  = if is_null a then 0 else if isin a l then 1 else 0.
Proof.
  unfold sum_Z, isin. induction 1 as [|t l Hnotin Hnd IH]; cbn [map fold_right existsb].
  - destruct a; reflexivity.
  - rewrite IH. destruct a as [x|]; cbn [is_null sql_eq]; [|reflexivity].
    destruct t as [y|]; cbn [opt_eqb orb]; [|lia].
    destruct (String.eqb x y) eqn:E; cbn [orb]; [|lia].
    apply String.eqb_eq in E. subst y.
    destruct (existsb (opt_eqb (Some x)) l) eqn:Ex; [|lia].
    exfalso. apply Hnotin. apply existsb_exists in Ex.
    destruct Ex as (z & Hz & Heq). apply opt_eqb_eq in Heq. congruence.
Qed.

Lemma sum_Z_add (f g : option string -> Z) (l : list (option string)) :
  sum_Z (map (fun t => f t + g t) l) = sum_Z (map f l) + sum_Z (map g l).
Proof.
  unfold sum_Z. induction l as [|t l IH]; cbn [map fold_right]; lia.
Qed.

(** Per-ticker counts over a duplicate-free list of tickers add up to the
    number of records whose ticker is in the list. *)
Lemma sum_counts (l : list (option string)) (db : table) :
  NoDup l ->
  sum_Z (map (fun t => count (where_ticker t db)) l)
  = count (filter (fun r => negb (is_null (ticker r)) && isin (ticker r) l) db).
Proof.
  intros Hnd. induction db as [|r rest IH].
  - unfold count, where_ticker. cbn. unfold sum_Z.
    induction l as [|t l IHl]; cbn [map fold_right]; [reflexivity|].
    inversion Hnd; subst. rewrite IHl by assumption. reflexivity.
  - transitivity (sum_Z (map (fun t => (if sql_eq (ticker r) t then 1 else 0)
                                       + count (where_ticker t rest)) l)).
    { f_equal. apply map_ext. intros t. unfold count, where_ticker. cbn [filter].
      destruct (sql_eq (ticker r) t); cbn [List.length]; lia. }
    rewrite sum_Z_add, IH, (sum_indicator _ _ Hnd). cbn [filter].
    destruct (is_null (ticker r)); cbn [negb andb]; [lia|].
    destruct (isin (ticker r) l); unfold count; cbn [List.length]; lia.
Qed.

Lemma counts_total (db : table) :
  (forall r, In r db -> ticker r <> None) ->
  sum_Z (map (fun t => count (where_ticker t db)) (distinct_tickers db))
  = count db.
Proof.
  intros Hall. rewrite (sum_counts _ _ (distinct_tickers_NoDup db)).
  f_equal. apply filter_all. intros r Hr. apply andb_true_iff. split.
  - specialize (Hall r Hr). destruct (ticker r); [reflexivity | congruence].
  - apply isin_In. apply distinct_tickers_In. apply in_map. exact Hr.
Qed.

Lemma loop_success_no_null_ticker {B : Type} (f : option string -> result B)
  (db : table) (bs : list B) :
  (forall t, where_ticker t db = [] -> exists e, f t = Raise e) ->
  for_each f (distinct_tickers db) = Ok bs ->
  forall r, In r db -> ticker r <> None.
Proof.
  intros Hf Hok r Hr Hnone.
  assert (Hin : In None (distinct_tickers db)).
  { apply distinct_tickers_In. rewrite <- Hnone. apply in_map. exact Hr. }
  destruct (Hf None) as (e & He).
  { unfold where_ticker. apply filter_nil. intros x _.
    destruct (ticker x); reflexivity. }
  pose proof (Coverage.for_each_raises _ _ _ _ Hin He) as H.
  rewrite Hok in H. discriminate.
Qed.

(** X8: whenever [get_database_statistics] gets through its loop, it has
    produced one entry per distinct ticker, in the order of the ticker list,
    and the per-ticker record counts add up to the total number of records
    shown in the summary; the same holds for [analyze_database]. *)
Theorem report_totals (db : table) (now : datetime) :
  (forall entries, statistics_body (Ok db) now = Ok entries ->
     map DbStats.Ticker entries = distinct_tickers db /\
     sum_Z (map record_count entries) = count db) /\
  (forall analyses, AnalyzeDb.analysis_body (Ok db) now = Ok analyses ->
     map AnalyzeDb.Ticker analyses = distinct_tickers db /\
     sum_Z (map AnalyzeDb.record_count analyses) = count db).
Proof.
  split.
  - intros entries H. unfold statistics_body in H. cbn [bind] in H.
    destruct (database_summary db now); cbn [bind] in H; [|discriminate].
    pose proof (for_each_Forall2 _ _ _ H) as HF.
    assert (Hnn : forall r, In r db -> ticker r <> None).
    { apply (loop_success_no_null_ticker (ticker_statistics db now) db entries);
        [|exact H].
      intros t Ht. exists TypeError. unfold ticker_statistics. rewrite Ht.
      reflexivity. }
    split.
    + rewrite <- (map_id (distinct_tickers db)).
      apply (Forall2_map_eq _ _ _ _ _ HF).
      intros t e He. apply (ticker_statistics_key db now t e He).
    + rewrite <- (counts_total db Hnn). f_equal.
      apply (Forall2_map_eq _ _ _ _ _ HF).
      intros t e He. apply (ticker_statistics_key db now t e He).
  - intros analyses H. unfold AnalyzeDb.analysis_body in H. cbn [bind] in H.
    pose proof (for_each_Forall2 _ _ _ H) as HF.
    assert (Hnn : forall r, In r db -> ticker r <> None).
    { apply (loop_success_no_null_ticker (AnalyzeDb.ticker_analysis db now) db
               analyses); [|exact H].
      intros t Ht. exists TypeError. unfold AnalyzeDb.ticker_analysis.
      rewrite Ht. reflexivity. }
    split.
    + rewrite <- (map_id (distinct_tickers db)).
      apply (Forall2_map_eq _ _ _ _ _ HF).
      intros t a Ha. apply (ticker_analysis_key db now t a Ha).
    + rewrite <- (counts_total db Hnn). f_equal.
      apply (Forall2_map_eq _ _ _ _ _ HF).
      intros t a Ha. apply (ticker_analysis_key db now t a Ha).
Qed.

Lemma report_totals_witness :
  exists entries,
    statistics_body (Ok Samples.xyz_db) Samples.today = Ok entries /\
    map DbStats.Ticker entries = [Some "ABC"%string; Some "XYZ"%string] /\
    sum_Z (map record_count entries) = 4.
Proof.
  destruct (statistics_body (Ok Samples.xyz_db) Samples.today) as [entries|e]
    eqn:E; [|vm_compute in E; discriminate E].
  exists entries. split; [reflexivity|].
  destruct (proj1 (report_totals Samples.xyz_db Samples.today) entries E)
    as [Ht Hs].
  split; [rewrite Ht; reflexivity | rewrite Hs; reflexivity].
Defined.

Lemma batch_df_segment (entries : list ticker_entry) (k : nat) :
  NoDup (map DbStats.Ticker entries) ->
  filter (fun e => isin (DbStats.Ticker e)
                     (firstn 7 (skipn (7 * k) (map DbStats.Ticker entries))))
         entries
  = firstn 7 (skipn (7 * k) entries).
Proof.
  intros Hnd. rewrite skipn_map, firstn_map.
  set (p := firstn (7 * k) entries).
  set (m := firstn 7 (skipn (7 * k) entries)).
  set (s := skipn 7 (skipn (7 * k) entries)).
  assert (Hsplit : entries = p ++ m ++ s).
  { unfold p, m, s. rewrite firstn_skipn, firstn_skipn. reflexivity. }
  rewrite Hsplit at 1. apply filter_isin_segment. rewrite <- Hsplit. exact Hnd.
Qed.

(** X9: in the tables that [get_database_statistics] prints, every ticker's
    entry appears in exactly one batch, the batch of its ticker: the rows
    selected for the k-th batch are the k-th run of seven entries, and the
    batches put end to end give all the entries once. *)
Theorem statistics_display_once (db : table) (now : datetime)
  (batches : list (batch ticker_entry)) :
  statistics_display (Ok db) now = Ok batches ->
  exists entries,
    statistics_body (Ok db) now = Ok entries /\
    List.concat (map batch_df batches) = entries /\
    forall k b, nth_error batches k = Some b ->
      batch_df b = firstn 7 (skipn (7 * k) entries) /\
      map DbStats.Ticker (batch_df b) = batch_tickers b.
Proof.
  unfold statistics_display. cbn [bind].
  destruct (statistics_body (Ok db) now) as [entries|] eqn:E; cbn [bind];
    [|discriminate].
  intros [= <-]. exists entries. split; [reflexivity|].
  pose proof E as E'. unfold statistics_body in E'. cbn [bind] in E'.
  destruct (database_summary db now); cbn [bind] in E'; [|discriminate].
  pose proof (for_each_Forall2 _ _ _ E') as HF.
  assert (Hmap : map DbStats.Ticker entries = distinct_tickers db).
  { rewrite <- (map_id (distinct_tickers db)).
    apply (Forall2_map_eq _ _ _ _ _ HF).
    intros t e He. apply (ticker_statistics_key db now t e He). }
  assert (Hnd : NoDup (map DbStats.Ticker entries)).
  { rewrite Hmap. apply distinct_tickers_NoDup. }
  rewrite display_batches_eq. rewrite <- Hmap.
  pose proof (range_len_bounds (List.length (map DbStats.Ticker entries)))
    as (HK0 & Hn & _ & _). cbv zeta in HK0, Hn.
  set (K := range_len 0 (Z.of_nat (List.length (map DbStats.Ticker entries)))
              batch_size) in *.
  split.
  - rewrite map_map. cbn [batch_df].
    rewrite (map_ext _ (fun k => firstn 7 (skipn (7 * k) entries)))
      by (intros k; apply batch_df_segment; exact Hnd).
    rewrite concat_segments. apply firstn_all2.
    rewrite length_map in Hn. lia.
  - intros k b Hb. apply nth_error_map_seq in Hb. destruct Hb as [_ ->].
    cbn [batch_df batch_tickers]. rewrite batch_df_segment by exact Hnd.
    split; [reflexivity|]. rewrite skipn_map, firstn_map. reflexivity.
Qed.

Lemma statistics_display_once_witness :
  exists batches entries,
    statistics_display (Ok Samples.xyz_db) Samples.today = Ok batches /\
    statistics_body (Ok Samples.xyz_db) Samples.today = Ok entries /\
    List.concat (map batch_df batches) = entries.
Proof.
  destruct (statistics_display (Ok Samples.xyz_db) Samples.today)
    as [batches|e] eqn:E; [|vm_compute in E; discriminate E].
  destruct (statistics_display_once Samples.xyz_db Samples.today batches E)
    as (entries & Hb & Hc & _).
  exists batches, entries. repeat split; assumption.
Defined.

Lemma valid_store_rows (db : table) :
  valid_store db = true -> db <> [] /\ forall r, In r db -> valid_row r = true.
Proof.
  unfold valid_store. destruct db as [|r rest]; [discriminate|].
  intros H. split; [discriminate|]. apply forallb_forall. exact H.
Qed.

Lemma valid_store_history (db : table) (t : option string) :
  valid_store db = true -> In t (distinct_tickers db) ->
  valid_history t db = true.
Proof.
  intros Hs Ht. destruct (valid_store_rows db Hs) as [_ Hvalid].
  apply distinct_tickers_In in Ht. apply in_map_iff in Ht.
  destruct Ht as (r & Hr & Hin).
  destruct (valid_row_fields r (Hvalid r Hin)) as [Hnull _].
  apply CleanDatabaseFacts.has_null_false in Hnull.
  destruct t as [x|]; [|destruct Hnull as [Hn _]; congruence].
  pose proof (CleanupFacts.where_ticker_In db r x Hin Hr) as Hw.
  unfold valid_history.
  destruct (where_ticker (Some x) db) as [|r0 rows] eqn:E; [destruct Hw|].
  apply forallb_forall. intros y Hy. apply Hvalid.
  assert (Hy' : In y (where_ticker (Some x) db)) by (rewrite E; exact Hy).
  unfold where_ticker in Hy'. apply filter_In in Hy'. tauto.
Qed.

Lemma valid_store_analyses (db : table) (now : datetime) :
  valid_store db = true -> valid_now now = true ->
  exists analyses,
    AnalyzeDb.analysis_body (Ok db) now = Ok analyses /\
    Forall2 (fun t a => AnalyzeDb.ticker_analysis db now t = Ok a)
            (distinct_tickers db) analyses.
Proof.
  intros Hs Hnow.
  destruct (CleanupFacts.for_each_ok (AnalyzeDb.ticker_analysis db now)
              (distinct_tickers db)) as (analyses & Ha & HFa).
  { intros t Ht. pose proof (valid_store_history db t Hs Ht) as Hh.
    destruct (valid_history_rows t db Hh) as [Hne Hvalid].
    destruct (history_dates_exist _ Hne Hvalid) as (f & l & df & dl & Hd).
    eexists. exact (ticker_analysis_valid db now t f l df dl Hh Hnow Hd). }
  exists analyses. split; [|exact HFa].
  unfold AnalyzeDb.analysis_body. cbn [bind]. exact Ha.
Qed.

(** X10: on a store of valid price records that is not empty, and with a
    current date from which three years can be taken off, [analyze_database]
    gets through: every ticker's computation succeeds and the script returns
    [True], with one entry per distinct ticker.  So does
    [get_database_statistics] when, in addition, the volumes of every ticker
    can be summed, so that no [SUM(volume)] overflows. *)
Theorem valid_store_reports (db : table) (now : datetime) :
  valid_store db = true -> valid_now now = true ->
  (exists analyses,
     AnalyzeDb.analysis_body (Ok db) now = Ok analyses /\
     AnalyzeDb.analyze_database (Ok db) now = true /\
     Forall2 (fun t a => AnalyzeDb.ticker_analysis db now t = Ok a)
             (distinct_tickers db) analyses) /\
  (volumes_fit_store db = true ->
   exists entries,
     statistics_body (Ok db) now = Ok entries /\
     get_database_statistics (Ok db) now = true /\
     Forall2 (fun t e => ticker_statistics db now t = Ok e)
             (distinct_tickers db) entries).
Proof.
  intros Hs Hnow. split.
  - destruct (valid_store_analyses db now Hs Hnow) as (analyses & Ha & HFa).
    exists analyses. split; [exact Ha|]. split; [|exact HFa].
    unfold AnalyzeDb.analyze_database. rewrite Ha. reflexivity.
  - intros Hfit. destruct (valid_store_rows db Hs) as [Hne Hvalid].
    destruct (history_dates_exist db Hne Hvalid) as (f & l & df & dl & Hd).
    destruct (CleanupFacts.for_each_ok (ticker_statistics db now)
                (distinct_tickers db)) as (entries & He & HFe).
    { intros t Ht.
      assert (Hft : volumes_fit t db = true).
      { unfold volumes_fit_store in Hfit.
        rewrite forallb_forall in Hfit. apply Hfit. exact Ht. }
      destruct (ticker_statistics_valid db now t
                  (valid_store_history db t Hs Ht) Hft Hnow)
        as (f' & l' & df' & dl' & y & _ & _ & H).
      eexists. exact H. }
    assert (Hbody : statistics_body (Ok db) now = Ok entries).
    { unfold statistics_body, database_summary. cbn [bind].
      rewrite (hd_min _ _ _ _ _ Hd), (hd_first_parse _ _ _ _ _ Hd).
      cbn [bind]. exact He. }
    exists entries. split; [exact Hbody|]. split; [|exact HFe].
    unfold get_database_statistics. rewrite Hbody. reflexivity.
Qed.

Lemma valid_store_reports_witness :
  (valid_store Samples.xyz_db = true /\ valid_now Samples.today = true /\
   volumes_fit_store Samples.xyz_db = true) /\
  get_database_statistics (Ok Samples.xyz_db) Samples.today = true /\
  AnalyzeDb.analyze_database (Ok Samples.xyz_db) Samples.today = true.
Proof.
  assert (H1 : valid_store Samples.xyz_db = true) by (vm_compute; reflexivity).
  assert (H2 : valid_now Samples.today = true) by (vm_compute; reflexivity).
  assert (H3 : volumes_fit_store Samples.xyz_db = true)
    by (vm_compute; reflexivity).
  split; [repeat split; assumption|].
  destruct (valid_store_reports Samples.xyz_db Samples.today H1 H2)
    as ((analyses & _ & Ha & _) & Hstat).
  destruct (Hstat H3) as (entries & _ & Hs & _).
  split; assumption.
Defined.

Lemma sum_from_overflows (rows : table) (acc : Z) :
  0 <= acc <= INT64_MAX ->
  forallb (fun r => match volume r with
                    | Some v => 0 <=? v
                    | None => true
                    end) rows = true ->
  INT64_MAX < acc + volume_total rows ->
  sum_from acc (map volume rows) = Raise OperationalError.
Proof.
  revert acc.
  induction rows as [|r rest IH]; intros acc Hacc Hall Hbig;
    cbn [map sum_from volume_total fold_right forallb] in *.
  - lia.
  - fold (volume_total rest) in *. apply andb_true_iff in Hall.
    destruct Hall as [Hr Hrest].
    destruct (volume r) as [v|]; [|apply IH; assumption].
    apply Z.leb_le in Hr.
    destruct (fits_int64 (acc + v)) eqn:Hfit; [|reflexivity].
    apply IH; [|exact Hrest | lia].
    unfold fits_int64 in Hfit. apply andb_true_iff in Hfit.
    destruct Hfit as [_ Hmax]. apply Z.leb_le in Hmax. lia.
Qed.

(** X22: when the volumes of a listed ticker are non-negative and their total
    exceeds the greatest SQLite INTEGER, [SUM(volume)] overflows: the
    ticker's statistics raise [OperationalError] and
    [get_database_statistics] returns [False], although every record may be
    a valid price record; [analyze_database], which does not sum volumes,
    still returns [True] on a valid store. *)
Theorem volume_overflow_fails (db : table) (now : datetime) (t : option string) :
  In t (distinct_tickers db) ->
  forallb (fun r => match volume r with
                    | Some v => 0 <=? v
                    | None => true
                    end) (where_ticker t db) = true ->
  INT64_MAX < volume_total (where_ticker t db) ->
  ticker_statistics db now t = Raise OperationalError /\
  get_database_statistics (Ok db) now = false /\
  (valid_store db = true -> valid_now now = true ->
   AnalyzeDb.analyze_database (Ok db) now = true).
Proof.
  intros Hin Hall Hbig.
  assert (Hraise : ticker_statistics db now t = Raise OperationalError).
  { unfold ticker_statistics, SUM_volume.
    rewrite (sum_from_overflows (where_ticker t db) 0);
      [reflexivity | unfold INT64_MAX; lia | exact Hall | lia]. }
  split; [exact Hraise|]. split.
  - unfold get_database_statistics, statistics_body. cbn [bind].
    destruct (database_summary db now); cbn [bind]; [|reflexivity].
    eapply Coverage.for_each_raises; eassumption.
  - intros Hs Hnow.
    destruct (valid_store_analyses db now Hs Hnow) as (analyses & Ha & _).
    unfold AnalyzeDb.analyze_database. rewrite Ha. reflexivity.
Qed.

Lemma volume_overflow_fails_witness :
  (In (Some "XYZ"%string) (distinct_tickers Samples.heavy_db) /\
   INT64_MAX < volume_total (where_ticker (Some "XYZ"%string) Samples.heavy_db) /\
   valid_store Samples.heavy_db = true /\ valid_now Samples.today = true) /\
  get_database_statistics (Ok Samples.heavy_db) Samples.today = false /\
  AnalyzeDb.analyze_database (Ok Samples.heavy_db) Samples.today = true.
Proof.
  assert (H1 : valid_store Samples.heavy_db = true) by (vm_compute; reflexivity).
  assert (H2 : valid_now Samples.today = true) by (vm_compute; reflexivity).
  assert (H3 : In (Some "XYZ"%string) (distinct_tickers Samples.heavy_db))
    by (left; reflexivity).
  assert (H4 : INT64_MAX
               < volume_total (where_ticker (Some "XYZ"%string) Samples.heavy_db))
    by (vm_compute; reflexivity).
  split; [repeat split; assumption|].
  destruct (volume_overflow_fails Samples.heavy_db Samples.today
              (Some "XYZ"%string) H3) as (_ & Hs & Ha).
  - vm_compute. reflexivity.
  - exact H4.
  - split; [exact Hs | exact (Ha H1 H2)].
Defined.

Lemma agg_text_all_null (f : option string -> string -> option string)
  (acc : option string) (vals : list (option string)) :
  (forall v, In v vals -> v = None) -> agg_text f acc vals = acc.
Proof.
  induction vals as [|v rest IH]; intros H; [reflexivity|].
  rewrite (H v (or_introl eq_refl)). cbn [agg_text]. apply IH.
  intros x Hx. apply H. right. exact Hx.
Qed.

(** X11: when no record carries a date - in particular on an empty store -
    [get_database_statistics] returns [False]: the summary asks for the age of
    the oldest record and [MIN(date)] is NULL.  It also returns [False] when
    the store cannot be read.  On the empty store the loop of
    [analyze_database] has nothing to do and raises nothing. *)
Theorem undated_store_fails (db : table) (now : datetime) :
  ((forall r, In r db -> date r = None) ->
   statistics_body (Ok db) now = Raise TypeError /\
   get_database_statistics (Ok db) now = false) /\
  (forall e, get_database_statistics (Raise e) now = false) /\
  AnalyzeDb.analysis_body (Ok []) now = Ok [].
Proof.
  split; [|split; reflexivity].
  intros Hall.
  assert (Hmin : MIN_date db = None).
  { unfold MIN_date. apply agg_text_all_null. intros v Hv.
    apply in_map_iff in Hv. destruct Hv as (r & <- & Hr). auto. }
  assert (Hbody : statistics_body (Ok db) now = Raise TypeError).
  { unfold statistics_body, database_summary. cbn [bind]. rewrite Hmin.
    reflexivity. }
  split; [exact Hbody|]. unfold get_database_statistics. rewrite Hbody.
  reflexivity.
Qed.

Lemma undated_store_fails_witness :
  (forall r, In r (@nil row) -> date r = None) /\
  get_database_statistics (Ok []) Samples.today = false.
Proof.
  assert (H : forall r, In r (@nil row) -> date r = None) by (intros r []).
  split; [exact H|].
  exact (proj2 (proj1 (undated_store_fails [] Samples.today) H)).
Defined.

End StoreFacts.

(* ================================================================== *)
(** ** Records without a date *)

Module UndatedFacts.
Import Float64 Datetime DatetimeFacts Sql SqlFacts OrderFacts DistinctFacts.
Import ExpectedFacts DbStats ReportFacts StoreReports.

Lemma history_dates_dated (rows : table) :
  (exists v, In (Some v) (map date rows)) ->
  (forall s, In (Some s) (map date rows) -> iso_date s = true) ->
  exists f l df dl, history_dates rows f l df dl.
Proof.
  intros Hsome Hiso.
  destruct (MIN_date_spec rows Hsome) as (f & Hmin & Hfin & Hfle).
  destruct (MAX_date_spec rows Hsome) as (l & Hmax & Hlin & Hlge).
  destruct (iso_date_parse f (Hiso f Hfin)) as (df & Pf & Vf & _).
  destruct (iso_date_parse l (Hiso l Hlin)) as (dl & Pl & Vl & _).
  exists f, l, df, dl.
  assert (Hbetween : forall s ds, In (Some s) (map date rows) ->
            strptime (Some s) = Ok ds ->
            toordinal df <= toordinal ds <= toordinal dl).
  { intros s ds Hin Ps. split.
    - apply (iso_leb_toordinal f s); auto.
    - apply (iso_leb_toordinal s l); auto. }
  pose proof (Hbetween l dl Hlin Pl) as [Hfl _].
  pose proof (toordinal_bounds df Vf). pose proof (toordinal_bounds dl Vl).
  constructor; auto. unfold sub_days, MAXORDINAL in *. lia.
Qed.

Lemma format_float_not_null {A : Type} (col : row -> option A) (rows : table) :
  negb (agg_is_null col rows) = true -> format_float col rows = Ok tt.
Proof.
  unfold format_float. destruct (agg_is_null col rows); [discriminate|reflexivity].
Qed.

Lemma dated_history_fields (t : option string) (db : table) :
  dated_history t db = true ->
  let rows := where_ticker t db in
  (exists v, In (Some v) (map date rows)) /\
  (forall s, In (Some s) (map date rows) -> iso_date s = true) /\
  format_float close rows = Ok tt /\ format_float high rows = Ok tt /\
  format_float low rows = Ok tt /\ format_float volume rows = Ok tt.
Proof.
  intros H. cbv zeta. unfold dated_history in H.
  set (rows := where_ticker t db) in *.
  repeat (apply andb_true_iff in H; destruct H as [H ?]).
  split; [|split; [|repeat split; apply format_float_not_null; assumption]].
  - apply existsb_exists in H. destruct H as (r & Hr & Hd).
    destruct (date r) as [v|] eqn:E; [|discriminate].
    exists v. rewrite <- E. apply in_map. exact Hr.
  - intros s Hs. apply in_map_iff in Hs. destruct Hs as (r & Hr & Hin).
    match goal with
    | Hf : forallb _ rows = true |- _ =>
        rewrite forallb_forall in Hf; specialize (Hf r Hin); rewrite Hr in Hf;
        exact Hf
    end.
Qed.

(** X12: [get_database_statistics] tolerates records without a date: when
    some record of the ticker has a date, the dates present are ISO days,
    close, high, low and volume each have a value in some record, and the
    volumes can be summed (so that [SUM(volume)] does not overflow), the
    entry is produced; its first and last dates are the least and greatest dates
    present, and its record count counts all the ticker's records, dated or
    not. *)
Theorem undated_records_tolerated
  (db : table) (now : datetime) (t : option string) :
  dated_history t db = true -> volumes_fit t db = true ->
  valid_now now = true ->
  exists e df dl,
    ticker_statistics db now t = Ok e /\
    history_dates (where_ticker t db) (first_date e) (last_date e) df dl /\
    date_range_days e = toordinal dl - toordinal df /\
    expected_trading_days e = date_range_days e * 252 / 365 /\
    record_count e = count (where_ticker t db).
Proof.
  intros Hd Hfit Hnow.
  destruct (dated_history_fields t db Hd) as (Hsome & Hiso & Hc & Hh & Hl & Hv).
  destruct (history_dates_dated _ Hsome Hiso) as (f & l & df & dl & H).
  destruct (expected_of_exact (sub_days dl df)) as (y & Hy & Hexp).
  { pose proof (hd_span _ _ _ _ _ H). lia. }
  destruct (SUM_volume_fits t db Hfit) as [total Hsum].
  eexists. exists df, dl. split.
  - unfold ticker_statistics. rewrite Hsum. cbn [bind].
    rewrite (hd_min _ _ _ _ _ H), (hd_max _ _ _ _ _ H).
    rewrite (hd_first_parse _ _ _ _ _ H), (hd_last_parse _ _ _ _ _ H).
    cbn [bind]. rewrite Hy. cbn [bind]. rewrite Hexp, completeness_of_ok.
    cbn [bind]. rewrite (three_years_ago_ok now Hnow), (ytd_ok now Hnow).
    cbn [bind]. rewrite Hc, Hh, Hl, Hv. cbn [bind]. reflexivity.
  - cbn [first_date last_date date_range_days expected_trading_days record_count].
    split; [exact H|]. repeat split; reflexivity.
Qed.

Lemma undated_records_tolerated_witness :
  (dated_history (Some "XYZ"%string) Samples.undated_db = true /\
   volumes_fit (Some "XYZ"%string) Samples.undated_db = true /\
   valid_now Samples.today = true) /\
  exists e,
    ticker_statistics Samples.undated_db Samples.today (Some "XYZ"%string) = Ok e /\
    record_count e = 4.
Proof.
  assert (H1 : dated_history (Some "XYZ"%string) Samples.undated_db = true)
    by (vm_compute; reflexivity).
  assert (H2 : valid_now Samples.today = true) by (vm_compute; reflexivity).
  assert (H3 : volumes_fit (Some "XYZ"%string) Samples.undated_db = true)
    by (vm_compute; reflexivity).
  split; [repeat split; assumption|].
  destruct (undated_records_tolerated Samples.undated_db Samples.today
              (Some "XYZ"%string) H1 H3 H2) as (e & df & dl & He & _ & _ & _ & Hc).
  exists e. split; [exact He | rewrite Hc; reflexivity].
Defined.

Lemma sql_le_null_first (a : option string) : sql_le a None = true -> a = None.
Proof. destruct a; [discriminate | reflexivity]. Qed.

(** X13: [analyze_database] does not tolerate them: if one record of a ticker
    has a NULL date, [ORDER BY date ASC] puts it first, the earliest date is
    [None], and the ticker's analysis raises [TypeError]; the script returns
    [False]. *)
Theorem undated_record_breaks_analysis
  (db : table) (now : datetime) (t : option string) (r : row) :
  In r (where_ticker t db) -> date r = None ->
  AnalyzeDb.ticker_analysis db now t = Raise TypeError /\
  AnalyzeDb.analyze_database (Ok db) now = false.
Proof.
  intros Hr Hnone.
  assert (Hne : where_ticker t db <> []) by (intros E; rewrite E in Hr; destruct Hr).
  assert (Hraise : AnalyzeDb.ticker_analysis db now t = Raise TypeError).
  { unfold AnalyzeDb.ticker_analysis, AnalyzeDb.fetchone_date.
    destruct (order_by_ASC_head _ Hne) as (h & -> & _ & Hmin).
    destruct (order_by_DESC_head _ Hne) as (h' & -> & _).
    specialize (Hmin r Hr). rewrite Hnone in Hmin.
    apply sql_le_null_first in Hmin. rewrite Hmin. reflexivity. }
  split; [exact Hraise|].
  unfold AnalyzeDb.analyze_database, AnalyzeDb.analysis_body. cbn [bind].
  apply (Coverage.for_each_raises _ _ t TypeError); [|exact Hraise].
  unfold where_ticker in Hr. apply filter_In in Hr. destruct Hr as [Hin Heq].
  apply CleanupFacts.sql_eq_true in Heq. destruct Heq as (s & Hs & ->).
  apply distinct_tickers_In. rewrite <- Hs. apply in_map. exact Hin.
Qed.

Lemma undated_record_breaks_analysis_witness :
  (exists r, In r (where_ticker (Some "XYZ"%string) Samples.undated_db)
             /\ date r = None) /\
  AnalyzeDb.analyze_database (Ok Samples.undated_db) Samples.today = false.
Proof.
  set (r := mkRow (Some "XYZ"%string) None (Some (10 # 1)) (Some (12 # 1))
              (Some (9 # 1)) (Some (11 # 1)) (Some 1000)).
  assert (Hin : In r (where_ticker (Some "XYZ"%string) Samples.undated_db))
    by (left; reflexivity).
  assert (Hd : date r = None) by reflexivity.
  split; [exists r; split; assumption|].
  exact (proj2 (undated_record_breaks_analysis Samples.undated_db Samples.today
                  (Some "XYZ"%string) r Hin Hd)).
Defined.

End UndatedFacts.

(* ================================================================== *)
(** ** [fromordinal] inverts [toordinal]; the date filters count days *)

Module CalendarFacts.
Import Datetime DatetimeFacts Sql SqlFacts OrderFacts Calendar.
Import DbStats ReportFacts.

Lemma all_from_spec (n : nat) (o : Z) (p : Z -> bool) :
  all_from n o p = true ->
  forall x, o <= x < o + Z.of_nat n -> p x = true.
Proof.
  revert o. induction n as [|n IH]; intros o H x Hx; [lia|].
  cbn [all_from] in H. apply andb_true_iff in H. destruct H as [Ho Hrest].
  destruct (Z.eq_dec x o) as [-> | Hne]; [exact Ho|].
  apply (IH (o + 1) Hrest). lia.
Qed.

(** One whole 400-year cycle, day by day. *)
Lemma roundtrip_cycle (o : Z) : 1 <= o <= 146097 -> roundtrip_ok o = true.
Proof.
  intros Ho.
  apply (all_from_spec (Z.to_nat 146097) 1 roundtrip_ok);
    [vm_cast_no_check (eq_refl true) | lia].
Qed.

Lemma is_leap_shift (y : Z) : is_leap (y + 400) = is_leap y.
Proof.
  unfold is_leap.
  replace ((y + 400) mod 4) with (y mod 4)
    by (replace (y + 400) with (y + 100 * 4) by lia; rewrite Z.mod_add by lia;
        reflexivity).
  replace ((y + 400) mod 100) with (y mod 100)
    by (replace (y + 400) with (y + 4 * 100) by lia; rewrite Z.mod_add by lia;
        reflexivity).
  replace ((y + 400) mod 400) with (y mod 400)
    by (replace (y + 400) with (y + 1 * 400) by lia; rewrite Z.mod_add by lia;
        reflexivity).
  reflexivity.
Qed.

Lemma days_before_year_shift (y : Z) :
  days_before_year (y + 400) = days_before_year y + 146097.
Proof.
  unfold days_before_year. Z.div_mod_to_equations. lia.
Qed.

Lemma ymd2ord_shift (y m d : Z) :
  ymd2ord (y + 400) m d = ymd2ord y m d + 146097.
Proof.
  unfold ymd2ord, days_before_month.
  rewrite days_before_year_shift, is_leap_shift. lia.
Qed.

Lemma days_in_month_shift (y m : Z) :
  days_in_month (y + 400) m = days_in_month y m.
Proof. unfold days_in_month. rewrite is_leap_shift. reflexivity. Qed.

Lemma ord2ymd_shift (o : Z) :
  ord2ymd (o + 146097) =
  mkDate (year (ord2ymd o) + 400) (month (ord2ymd o)) (day (ord2ymd o)).
Proof.
  unfold ord2ymd, DI400Y.
  replace (o + 146097 - 1) with (o - 1 + 1 * 146097) by lia.
  rewrite Z.div_add, Z.mod_add by lia. cbv zeta.
  set (n := (o - 1) mod 146097).
  destruct ((n mod DI100Y mod DI4Y / 365 =? 4) || (n / DI100Y =? 4));
    [cbn [year month day]; f_equal; lia|].
  match goal with
  | |- (if ?c then _ else _) = _ => destruct c
  end; cbn [year month day]; f_equal; lia.
Qed.

Lemma valid_date_intro (y m d : Z) :
  1 <= y <= 9999 -> 1 <= m <= 12 -> 1 <= d <= days_in_month y m ->
  valid_date (mkDate y m d) = true.
Proof.
  intros Hy Hm Hd. unfold valid_date, check_date_fields, MINYEAR, MAXYEAR.
  cbn [year month day].
  replace (1 <=? y) with true by (symmetry; apply Z.leb_le; lia).
  replace (y <=? 9999) with true by (symmetry; apply Z.leb_le; lia).
  replace (1 <=? m) with true by (symmetry; apply Z.leb_le; lia).
  replace (m <=? 12) with true by (symmetry; apply Z.leb_le; lia).
  replace (1 <=? d) with true by (symmetry; apply Z.leb_le; lia).
  replace (d <=? days_in_month y m) with true by (symmetry; apply Z.leb_le; lia).
  reflexivity.
Qed.

Lemma roundtrip_step (o : Z) :
  valid_date (ord2ymd o) = true -> toordinal (ord2ymd o) = o ->
  o + 146097 <= MAXORDINAL ->
  valid_date (ord2ymd (o + 146097)) = true /\
  toordinal (ord2ymd (o + 146097)) = o + 146097.
Proof.
  rewrite ord2ymd_shift. destruct (ord2ymd o) as [y m d].
  cbn [year month day]. intros Hv He Hmax.
  destruct (valid_date_fields _ Hv) as (Hy & Hm & Hd).
  cbn [year month day] in Hy, Hm, Hd.
  unfold toordinal in *. cbn [year month day] in *.
  pose proof (ymd2ord_shift y m d) as Hs.
  split; [|lia].
  apply valid_date_intro; [| exact Hm | rewrite days_in_month_shift; exact Hd].
  split; [lia|].
  destruct (Z_le_gt_dec (y + 400) 9999) as [Hle | Hgt]; [exact Hle | exfalso].
  pose proof (days_before_year_mono 10000 (y + 400) ltac:(lia)) as Hmono.
  replace (days_before_year 10000) with 3652059 in Hmono by reflexivity.
  rewrite <- (days_in_month_shift y m) in Hd.
  pose proof (day_of_year_bounds (y + 400) m d Hm Hd) as Hdoy.
  unfold ymd2ord in Hs at 1. unfold MAXORDINAL in Hmax. lia.
Qed.

Lemma roundtrip_cycles (q : nat) (r : Z) :
  1 <= r <= 146097 -> r + 146097 * Z.of_nat q <= MAXORDINAL ->
  valid_date (ord2ymd (r + 146097 * Z.of_nat q)) = true /\
  toordinal (ord2ymd (r + 146097 * Z.of_nat q)) = r + 146097 * Z.of_nat q.
Proof.
  intros Hr. induction q as [|q IH]; intros Hmax.
  - replace (r + 146097 * Z.of_nat 0) with r by lia.
    pose proof (roundtrip_cycle r Hr) as H. unfold roundtrip_ok in H.
    apply andb_true_iff in H. destruct H as [Hv He].
    apply Z.eqb_eq in He. auto.
  - destruct IH as [Hv He]; [lia|].
    replace (r + 146097 * Z.of_nat (S q))
      with (r + 146097 * Z.of_nat q + 146097) by lia.
    apply roundtrip_step; [exact Hv | exact He | lia].
Qed.

(** [date.fromordinal] gives a valid date with the ordinal asked for. *)
Lemma ord2ymd_toordinal (o : Z) :
  1 <= o <= MAXORDINAL ->
  valid_date (ord2ymd o) = true /\ toordinal (ord2ymd o) = o.
Proof.
  intros Ho.
  pose proof (Z.div_mod (o - 1) 146097 ltac:(lia)) as Hdm.
  pose proof (Z.mod_pos_bound (o - 1) 146097 ltac:(lia)) as Hr.
  assert (Hq : 0 <= (o - 1) / 146097) by (apply Z.div_pos; lia).
  pose proof (roundtrip_cycles (Z.to_nat ((o - 1) / 146097))
                ((o - 1) mod 146097 + 1) ltac:(lia)) as H.
  replace ((o - 1) mod 146097 + 1
           + 146097 * Z.of_nat (Z.to_nat ((o - 1) / 146097))) with o in H by lia.
  apply H. lia.
Qed.

Lemma cmp_antisym (a b : datetime) : cmp b a = CompOpp (cmp a b).
Proof.
  unfold cmp.
  rewrite (Z.compare_antisym (year a) (year b)),
          (Z.compare_antisym (month a) (month b)),
          (Z.compare_antisym (day a) (day b)).
  destruct (year a ?= year b); cbn; try reflexivity.
  destruct (month a ?= month b); reflexivity.
Qed.

(** On valid dates the order of the ISO strings is the order of the days,
    in both directions. *)
Lemma isoformat_leb_iff (a b : datetime) :
  valid_date a = true -> valid_date b = true ->
  (String.leb (isoformat a) (isoformat b) = true <-> toordinal a <= toordinal b).
Proof.
  intros Ha Hb. split; [apply toordinal_le; assumption|].
  intros Hle. unfold String.leb. rewrite isoformat_compare by assumption.
  destruct (cmp a b) eqn:E; try reflexivity. exfalso.
  assert (Hlt : cmp b a = Lt) by (rewrite cmp_antisym, E; reflexivity).
  pose proof (toordinal_lt b a Hb Ha Hlt). lia.
Qed.

Lemma filter_andb {A : Type} (f g : A -> bool) (l : list A) :
  filter (fun x => f x && g x) l = filter g (filter f l).
Proof.
  induction l as [|a l IH]; cbn; [reflexivity|].
  destruct (f a); cbn; [|exact IH]. destruct (g a); rewrite IH; reflexivity.
Qed.

Lemma filter_ext_rows (f g : row -> bool) (l : table) :
  (forall r, In r l -> f r = g r) -> filter f l = filter g l.
Proof.
  induction l as [|a l IH]; cbn; intros H; [reflexivity|].
  rewrite (H a (or_introl eq_refl)), IH; [reflexivity|].
  intros r Hr. apply H. right. exact Hr.
Qed.

Lemma where_since_as_filter (t since : option string) (db : table) :
  where_ticker_since t since db
  = filter (fun r => sql_ge (date r) since) (where_ticker t db).
Proof. unfold where_ticker_since, where_ticker. apply filter_andb. Qed.

(** The string filter [date >= c] selects the records dated on day [c] or
    later, when the records are valid and [c] is written in ISO form. *)
Lemma since_counts_days (t : option string) (db : table) (c : datetime) :
  valid_date c = true ->
  (forall r, In r (where_ticker t db) -> valid_row r = true) ->
  count (where_ticker_since t (Some (isoformat c)) db)
  = count (filter (dated_from (toordinal c)) (where_ticker t db)).
Proof.
  intros Hc Hvalid. rewrite where_since_as_filter. f_equal.
  apply filter_ext_rows. intros r Hr.
  destruct (valid_row_fields r (Hvalid r Hr)) as (_ & s & Hs & Hiso).
  destruct (iso_date_parse s Hiso) as (ds & Ps & Vs & Fs).
  unfold dated_from. rewrite Hs, Ps. cbn [sql_ge]. rewrite <- Fs.
  destruct (String.leb (isoformat c) (isoformat ds)) eqn:E.
  - apply (isoformat_leb_iff c ds Hc Vs) in E. symmetry. apply Z.leb_le. exact E.
  - symmetry. apply Z.leb_gt.
    destruct (Z_le_gt_dec (toordinal c) (toordinal ds)) as [Hle | Hgt]; [|lia].
    apply (isoformat_leb_iff c ds Hc Vs) in Hle. congruence.
Qed.

Lemma january_first (now : datetime) :
  valid_date now = true ->
  valid_date (mkDate (year now) 1 1) = true /\
  toordinal (mkDate (year now) 1 1) <= toordinal now
  /\ toordinal now <= toordinal (mkDate (year now) 1 1) + 365.
Proof.
  intros Hv. destruct (valid_date_fields now Hv) as (Hy & Hm & Hd).
  split.
  - apply valid_date_intro; try lia. unfold days_in_month. cbn. lia.
  - pose proof (day_of_year_bounds _ _ _ Hm Hd) as Hdoy.
    unfold toordinal, ymd2ord, days_before_month. cbn [year month day].
    cbn [DAYS_BEFORE_MONTH Z.ltb Z.compare Pos.compare Pos.compare_cont andb].
    unfold days_before_month in Hdoy. destruct (is_leap (year now)); lia.
Qed.

(** X14: on a valid history whose volumes can be summed (so that
    [SUM(volume)] does not overflow), with a current date of year 1003 or
    later, the three-year count is the number of the ticker's records dated on or after
    the day 1095 days before the current date, and the year-to-date count is
    the number dated on or after January 1 of the current year; records dated
    after the current date are counted as well. *)
Theorem counts_are_day_counts (db : table) (now : datetime) (t : option string) :
  valid_history t db = true -> volumes_fit t db = true ->
  valid_now now = true -> 1003 <= year now ->
  exists e a,
    ticker_statistics db now t = Ok e /\
    AnalyzeDb.ticker_analysis db now t = Ok a /\
    recent_count e
    = count (filter (dated_from (toordinal now - 1095)) (where_ticker t db)) /\
    ytd_count e
    = count (filter (dated_from (toordinal (mkDate (year now) 1 1)))
                    (where_ticker t db)) /\
    AnalyzeDb.recent_count a = recent_count e.
Proof.
  intros Hhist Hfit Hnow Hyear.
  destruct (ticker_statistics_valid db now t Hhist Hfit Hnow)
    as (f & l & df & dl & y & H & _ & He).
  pose proof (ticker_analysis_valid db now t f l df dl Hhist Hnow H) as Ha.
  destruct (valid_history_rows t db Hhist) as [_ Hvalid].
  destruct (valid_now_fields now Hnow) as [Hv Ho].
  pose proof (toordinal_bounds now Hv) as Hb.
  destruct (ord2ymd_toordinal (toordinal now - 3 * 365)) as [Hv3 Ho3];
    [unfold MAXORDINAL in *; lia|].
  destruct (january_first now Hv) as (Hvj & _).
  eexists. eexists. split; [exact He|]. split; [exact Ha|].
  cbn [recent_count ytd_count AnalyzeDb.recent_count]. unfold strftime.
  rewrite (since_counts_days t db _ Hv3 Hvalid), Ho3.
  rewrite (since_counts_days t db _ Hvj Hvalid).
  repeat split; reflexivity.
Qed.

Lemma counts_are_day_counts_witness :
  (valid_history (Some "XYZ"%string) Samples.xyz_db = true /\
   volumes_fit (Some "XYZ"%string) Samples.xyz_db = true /\
   valid_now Samples.today = true /\ 1003 <= year Samples.today) /\
  exists e,
    ticker_statistics Samples.xyz_db Samples.today (Some "XYZ"%string) = Ok e /\
    recent_count e = 3 /\ ytd_count e = 3.
Proof.
  assert (H1 : valid_history (Some "XYZ"%string) Samples.xyz_db = true)
    by (vm_compute; reflexivity).
  assert (H2 : valid_now Samples.today = true) by (vm_compute; reflexivity).
  assert (H3 : 1003 <= year Samples.today) by (cbn; lia).
  assert (H4 : volumes_fit (Some "XYZ"%string) Samples.xyz_db = true)
    by (vm_compute; reflexivity).
  split; [repeat split; assumption|].
  destruct (counts_are_day_counts Samples.xyz_db Samples.today
              (Some "XYZ"%string) H1 H4 H2 H3) as (e & a & He & _ & Hr & Hy & _).
  exists e. split; [exact He|].
  split; [rewrite Hr | rewrite Hy]; vm_compute; reflexivity.
Defined.

Lemma count_filter_mono (f g : row -> bool) (l : table) :
  (forall r, f r = true -> g r = true) ->
  count (filter f l) <= count (filter g l).
Proof.
  intros H. unfold count. apply Nat2Z.inj_le.
  induction l as [|a l IH]; cbn; [lia|].
  destruct (f a) eqn:Ef.
  - rewrite (H a Ef). cbn [List.length]. lia.
  - destruct (g a); cbn [List.length]; lia.
Qed.

(** X15: for a current date of year 1003 or later, the year-to-date count of
    an entry of [get_database_statistics] never exceeds its three-year count,
    whatever the store holds: January 1 of the current year is later than the
    day 1095 days ago. *)
Theorem ytd_within_recent
  (db : table) (now : datetime) (t : option string) (e : ticker_entry) :
  valid_now now = true -> 1003 <= year now ->
  ticker_statistics db now t = Ok e ->
  ytd_count e <= recent_count e.
Proof.
  intros Hnow Hyear He.
  destruct (valid_now_fields now Hnow) as [Hv Ho].
  pose proof (toordinal_bounds now Hv) as Hb.
  destruct (ord2ymd_toordinal (toordinal now - 3 * 365)) as [Hv3 Ho3];
    [unfold MAXORDINAL in *; lia|].
  destruct (january_first now Hv) as (Hvj & Hj1 & Hj2).
  assert (Hle : String.leb (isoformat (ord2ymd (toordinal now - 3 * 365)))
                  (isoformat (mkDate (year now) 1 1)) = true).
  { apply isoformat_leb_iff; [assumption | assumption | lia]. }
  unfold ticker_statistics in He.
  rewrite (three_years_ago_ok now Hnow), (ytd_ok now Hnow) in He.
  do 5 Coverage.ok_step He. cbn [bind] in He. do 4 Coverage.ok_step He.
  injection He as <-. cbn [ytd_count recent_count]. unfold strftime.
  rewrite !where_since_as_filter. apply count_filter_mono.
  intros r Hr. destruct (date r) as [s|]; [|discriminate].
  cbn [sql_ge] in *. eapply string_leb_trans; [exact Hle | exact Hr].
Qed.

Lemma ytd_within_recent_witness :
  (valid_now Samples.today = true /\ 1003 <= year Samples.today) /\
  exists e,
    ticker_statistics Samples.xyz_db Samples.today (Some "XYZ"%string) = Ok e /\
    ytd_count e <= recent_count e.
Proof.
  assert (H2 : valid_now Samples.today = true) by (vm_compute; reflexivity).
  assert (H3 : 1003 <= year Samples.today) by (cbn; lia).
  split; [split; assumption|].
  destruct (ticker_statistics Samples.xyz_db Samples.today (Some "XYZ"%string))
    as [e|x] eqn:E; [|vm_compute in E; discriminate E].
  exists e. split; [reflexivity|].
  exact (ytd_within_recent Samples.xyz_db Samples.today (Some "XYZ"%string) e
           H2 H3 E).
Defined.

End CalendarFacts.

(* ================================================================== *)
(** ** The client's configuration and the API test *)

Module ApiClientFacts.
Import FetchData FetchAccept ApiClient ClientSamples.

Lemma and_then_returns {A B : Type} (o : outcome A) (k : A -> outcome B) (b : B) :
  and_then o k = Returns b -> exists a, o = Returns a /\ k a = Returns b.
Proof.
  destruct o as [a|e]; cbn; [eauto | discriminate].
Qed.

Lemma dict_get_defined (key : string) (members : list (string * json)) :
  (exists v, dict_get key members = Some v) <-> In key (map fst members).
Proof.
  induction members as [|[k x] rest IH]; cbn [dict_get map fst In].
  - split; [intros [v H]; discriminate | intros []].
  - destruct (dict_get key rest) as [v'|] eqn:E.
    + split; [intros _; right; apply IH; eauto | intros _; eauto].
    + destruct (String.eqb key k) eqn:Ek.
      * apply String.eqb_eq in Ek. subst k.
        split; [intros _; left; reflexivity | eauto].
      * split; [intros [v H]; discriminate|].
        intros [H|H].
        -- subst k. rewrite String.eqb_refl in Ek. discriminate.
        -- apply IH in H. destruct H as [v H]. discriminate.
Qed.

Lemma contains_object (key : string) (members : list (string * json)) (b : bool) :
  contains key (JObject members) = Returns b ->
  b = true <-> In key (map fst members).
Proof.
  unfold contains. cbn [py_in]. intros [= <-].
  destruct (existsb _ members) eqn:E.
  - split; [intros _ | reflexivity].
    destruct (in_dec string_dec key (map fst members)) as [Hin|Hnot];
      [exact Hin|].
    apply FetchExactFacts.existsb_key_false in Hnot. congruence.
  - split; [discriminate|]. intros Hin.
    rewrite (FetchDataFacts.existsb_key _ _ Hin) in E. discriminate.
Qed.

Lemma subscript_object (key : string) (members : list (string * json)) (x : json) :
  dict_get key members = Some x -> subscript (JObject members) key = Returns x.
Proof.
  intros H. unfold subscript. rewrite H. reflexivity.
Qed.

Lemma subscript_returns (v : json) (key : string) (x : json) :
  subscript v key = Returns x <->
  exists members, v = JObject members /\ dict_get key members = Some x.
Proof.
  split.
  - destruct v as [| b | q | s | items | members]; cbn [subscript];
      try discriminate.
    destruct (dict_get key members) as [y|] eqn:E; [|discriminate].
    intros [= <-]. eauto.
  - intros (members & -> & H). apply subscript_object. exact H.
Qed.

Lemma init_returns (fs : filesystem) (path : option string) (i : instance) :
  init fs None path = Returns i <->
  exists config api_keys section,
    fs (match path with None => default_config_path | Some p => p end)
      = Some (JObject config) /\
    dict_get "api_keys" config = Some api_keys /\
    dict_get "alpha_vantage" config = Some section /\
    subscript api_keys "alpha_vantage" = Returns (self_api_key i) /\
    subscript section "base_url" = Returns (self_base_url i) /\
    subscript section "output_format" = Returns (self_output_format i) /\
    subscript section "max_calls_per_minute" = Returns (self_rate_limit i).
Proof.
  unfold init. cbv zeta.
  set (p := match path with None => default_config_path | Some q => q end).
  split.
  - intros E.
    apply and_then_returns in E. destruct E as (config & Hload & E).
    apply and_then_returns in E. destruct E as (api_keys & Hkeys & E).
    apply and_then_returns in E. destruct E as (key & Hkey & E).
    apply and_then_returns in E. destruct E as (s1 & Hs1 & E).
    apply and_then_returns in E. destruct E as (base & Hbase & E).
    apply and_then_returns in E. destruct E as (s2 & Hs2 & E).
    apply and_then_returns in E. destruct E as (fmt & Hfmt & E).
    apply and_then_returns in E. destruct E as (s3 & Hs3 & E).
    apply and_then_returns in E. destruct E as (rate & Hrate & E).
    injection E as <-. cbn [self_api_key self_base_url self_output_format
                            self_rate_limit].
    unfold load_yaml_config in Hload.
    destruct (fs p) as [doc|] eqn:Hfs; [|discriminate].
    injection Hload as ->.
    apply subscript_returns in Hkeys. destruct Hkeys as (cfg & -> & Hkeys).
    apply subscript_returns in Hs1. destruct Hs1 as (cfg1 & [= <-] & Hs1).
    apply subscript_returns in Hs2. destruct Hs2 as (cfg2 & [= <-] & Hs2).
    apply subscript_returns in Hs3. destruct Hs3 as (cfg3 & [= <-] & Hs3).
    assert (s2 = s1) by congruence. assert (s3 = s1) by congruence.
    subst s2 s3.
    exists cfg, api_keys, s1. repeat split; assumption.
  - intros (config & api_keys & section & Hfs & Hkeys & Hsec & Hkey & Hbase
            & Hfmt & Hrate).
    unfold load_yaml_config. rewrite Hfs. cbn [and_then].
    rewrite (subscript_object _ _ _ Hkeys). cbn [and_then].
    rewrite Hkey. cbn [and_then].
    rewrite (subscript_object _ _ _ Hsec). cbn [and_then].
    rewrite Hbase. cbn [and_then]. rewrite Hfmt. cbn [and_then].
    rewrite Hrate. cbn [and_then].
    destruct i; reflexivity.
Qed.

Lemma test_true (fs : filesystem) (fetch : instance -> string -> option json)
  (save : json -> outcome unit) (ticker : string) :
  test_alpha_vantage_api fs fetch save ticker = true <->
  exists client members first x rest day,
    init fs None None = Returns client /\
    fetch client ticker = Some (JObject members) /\
    dict_get Time_Series members = Some (JObject ((first, x) :: rest)) /\
    dict_get first ((first, x) :: rest) = Some (JObject day) /\
    Forall (fun field => In field (map fst day)) day_fields /\
    save (JObject members) = Returns tt.
Proof.
  unfold test_alpha_vantage_api. split.
  - destruct (test_body fs fetch save ticker) as [b|e] eqn:E; [|discriminate].
    intros ->. unfold test_body in E.
    apply and_then_returns in E. destruct E as (client & Hinit & E).
    destruct (fetch client ticker) as [data|] eqn:Hf; [|discriminate].
    apply and_then_returns in E. destruct E as (present & Hc & E).
    destruct present; cbn [negb] in E; [|discriminate].
    apply and_then_returns in E. destruct E as (ts & Hts & E).
    apply and_then_returns in E. destruct E as (latest & Hlatest & E).
    apply and_then_returns in E. destruct E as (ldata & Hldata & E).
    apply and_then_returns in E. destruct E as (v1 & H1 & E).
    apply and_then_returns in E. destruct E as (v2 & H2 & E).
    apply and_then_returns in E. destruct E as (v3 & H3 & E).
    apply and_then_returns in E. destruct E as (v4 & H4 & E).
    apply and_then_returns in E. destruct E as (v5 & H5 & E).
    apply and_then_returns in E. destruct E as (u & Hs & _).
    apply subscript_returns in Hts. destruct Hts as (members & -> & Hts).
    destruct ts as [| b | q | s | items | series]; try discriminate.
    destruct series as [|[first x] rest]; [discriminate|].
    injection Hlatest as <-.
    apply subscript_returns in Hldata.
    destruct Hldata as (series & [= <-] & Hldata).
    apply subscript_returns in H1. destruct H1 as (day & -> & H1).
    apply subscript_returns in H2. destruct H2 as (d2 & [= <-] & H2).
    apply subscript_returns in H3. destruct H3 as (d3 & [= <-] & H3).
    apply subscript_returns in H4. destruct H4 as (d4 & [= <-] & H4).
    apply subscript_returns in H5. destruct H5 as (d5 & [= <-] & H5).
    exists client, members, first, x, rest, day.
    repeat split; try assumption.
    + unfold day_fields.
      repeat (constructor; [apply dict_get_defined; eauto|]). constructor.
    + destruct u. exact Hs.
  - intros (client & members & first & x & rest & day & Hinit & Hf & Hts
            & Hday & Hall & Hs).
    unfold test_body. rewrite Hinit. cbn [and_then]. rewrite Hf.
    destruct (contains Time_Series (JObject members)) as [present|e] eqn:Hc;
      [|discriminate Hc].
    assert (Hp : present = true).
    { apply (contains_object _ _ _ Hc). apply dict_get_defined. eauto. }
    subst present. cbn [and_then negb].
    rewrite (subscript_object _ _ _ Hts). cbn [and_then first_key].
    rewrite (subscript_object _ _ _ Hday). cbn [and_then].
    unfold day_fields in Hall.
    repeat match goal with
           | H : Forall _ (_ :: _) |- _ => inversion H; subst; clear H
           end.
    repeat match goal with
           | H : In ?k (map fst day) |- _ =>
               apply dict_get_defined in H; destruct H as [? H];
               rewrite (subscript_object _ _ _ H); cbn [and_then]; clear H
           end.
    rewrite Hs. reflexivity.
Qed.

Lemma method_data (net : network) (self : AlphaVantageAPI)
  (symbol outputsize : string) (data : json) :
  get_daily_time_series net self symbol outputsize = Ok (Some data) <->
  fetch_body net self symbol outputsize = Ok (Some data).
Proof.
  unfold get_daily_time_series.
  destruct (fetch_body net self symbol outputsize) as [v|e].
  - reflexivity.
  - destruct e; split; discriminate.
Qed.

(** X16: without an explicit key, [AlphaVantageAPI.__init__] returns exactly
    when the configuration file loads to a mapping that has the sections
    [api_keys] and [alpha_vantage], the first with the entry [alpha_vantage]
    and the second with [base_url], [output_format] and
    [max_calls_per_minute]; the four attributes are then those entries,
    whatever their types.  An unreadable or empty file, or a configuration
    without one of the three settings, makes the constructor raise even when
    the API key itself is present. *)
Theorem init_from_config (fs : filesystem) (path : option string) (i : instance) :
  init fs None path = Returns i <->
  exists config api_keys section,
    fs (match path with None => default_config_path | Some p => p end)
      = Some (JObject config) /\
    dict_get "api_keys" config = Some api_keys /\
    dict_get "alpha_vantage" config = Some section /\
    subscript api_keys "alpha_vantage" = Returns (self_api_key i) /\
    subscript section "base_url" = Returns (self_base_url i) /\
    subscript section "output_format" = Returns (self_output_format i) /\
    subscript section "max_calls_per_minute" = Returns (self_rate_limit i).
Proof.
  exact (init_returns fs path i).
Qed.

(** X17: [test_alpha_vantage_api] returns [True] exactly when the client is
    built from the default configuration file, the fetch returns a mapping
    whose ['Time Series (Daily)'] entry is a non-empty mapping, the entry of
    its first key is a mapping with the five fields ['1. open'] to
    ['5. volume'], and the sample file is written.  Every other run, an
    exception included, returns [False]. *)
Theorem test_alpha_vantage_api_true (fs : filesystem)
  (fetch : instance -> string -> option json)
  (save : json -> outcome unit) (ticker : string) :
  test_alpha_vantage_api fs fetch save ticker = true <->
  exists client members first x rest day,
    init fs None None = Returns client /\
    fetch client ticker = Some (JObject members) /\
    dict_get Time_Series members = Some (JObject ((first, x) :: rest)) /\
    dict_get first ((first, x) :: rest) = Some (JObject day) /\
    Forall (fun field => In field (map fst day)) day_fields /\
    save (JObject members) = Returns tt.
Proof.
  exact (test_true fs fetch save ticker).
Qed.

(** X18: the test over a network.  When the configured attributes are
    strings, so that the request is defined, and the fetch is the method
    [get_daily_time_series], the test returns [True] exactly when the reply
    to the compact daily request has a status outside 400..599 and a JSON
    mapping as body, without the key ['Error Message'] and with a daily
    series as in X17, and the sample file is written. *)
Theorem test_over_network (fs : filesystem) (net : network)
  (fetch : instance -> string -> option json)
  (save : json -> outcome unit) (ticker : string)
  (client : instance) (rq : request) :
  init fs None None = Returns client ->
  request_of client ticker "compact" = Some rq ->
  fetch_over net client ticker = Some (fetch client ticker) ->
  test_alpha_vantage_api fs fetch save ticker = true <->
  exists status members first x rest day,
    net rq = Response status (Some (JObject members)) /\
    ~ (400 <= status < 600) /\
    ~ In Error_Message (map fst members) /\
    dict_get Time_Series members = Some (JObject ((first, x) :: rest)) /\
    dict_get first ((first, x) :: rest) = Some (JObject day) /\
    Forall (fun field => In field (map fst day)) day_fields /\
    save (JObject members) = Returns tt.
Proof.
  intros Hinit Hrq Hfetch.
  unfold request_of in Hrq. unfold fetch_over in Hfetch.
  destruct (self_api_key client) as [| | | k | |]; try discriminate.
  destruct (self_base_url client) as [| | | u | |]; try discriminate.
  destruct (self_output_format client) as [| | | f | |]; try discriminate.
  injection Hrq as <-.
  destruct (get_daily_time_series net (mkClient k u f 0) ticker "compact")
    as [v|e] eqn:G; [|discriminate].
  injection Hfetch as Hfetch.
  rewrite test_true. split.
  - intros (client' & members & first & x & rest & day & Hinit' & Hf & Hts
            & Hday & Hall & Hs).
    assert (client' = client) by congruence. subst client'.
    rewrite Hf in Hfetch. subst v.
    apply method_data in G. apply FetchExactFacts.fetch_body_data in G.
    destruct G as (status & Hnet & Hst & Hacc).
    exists status, members, first, x, rest, day.
    repeat split; assumption.
  - intros (status & members & first & x & rest & day & Hnet & Hst & Hno
            & Hts & Hday & Hall & Hs).
    exists client, members, first, x, rest, day.
    repeat split; try assumption.
    rewrite <- Hfetch.
    assert (G' : get_daily_time_series net (mkClient k u f 0) ticker "compact"
                 = Ok (Some (JObject members))).
    { apply method_data. apply FetchExactFacts.fetch_body_data.
      exists status. repeat split; assumption. }
    congruence.
Qed.

Lemma test_over_network_witness :
  test_alpha_vantage_api demo_fs demo_fetch demo_save "AAPL" = true <->
  exists status members first x rest day,
    demo_net (build_request
                (mkClient "KEY" "https://www.alphavantage.co/query" "json" 0)
                "AAPL" "compact")
      = Response status (Some (JObject members)) /\
    ~ (400 <= status < 600) /\
    ~ In Error_Message (map fst members) /\
    dict_get Time_Series members = Some (JObject ((first, x) :: rest)) /\
    dict_get first ((first, x) :: rest) = Some (JObject day) /\
    Forall (fun field => In field (map fst day)) day_fields /\
    demo_save (JObject members) = Returns tt.
Proof.
  apply (test_over_network demo_fs demo_net demo_fetch demo_save "AAPL"
           (mkInstance (JString "KEY")
              (JString "https://www.alphavantage.co/query")
              (JString "json") (JNumber (5 # 1))));
    reflexivity.
Defined.

End ApiClientFacts.

(* ================================================================== *)
(** ** The logger set-up *)

Module LoggerFacts.
Import Logger.

Lemma rstrip_empty (s : string) :
  rstrip s = EmptyString <-> all_sep s = true.
Proof.
  induction s as [|c r IH]; cbn [rstrip all_sep].
  - split; reflexivity.
  - destruct (rstrip r) as [|c' r'] eqn:E.
    + destruct (Ascii.eqb c sep); cbn [andb].
      * split; [intros _; apply IH; reflexivity | reflexivity].
      * split; discriminate.
    + split; [discriminate|]. intros H. apply andb_true_iff in H.
      destruct H as [_ H]. apply IH in H. discriminate.
Qed.

Lemma cut_none (p : string) : cut p = None <-> has_sep p = false.
Proof.
  induction p as [|c r IH]; cbn [cut has_sep].
  - split; reflexivity.
  - destruct (cut r) as [h|] eqn:E.
    + split; [discriminate|]. intros H. apply orb_false_iff in H.
      destruct H as [_ H]. apply IH in H. discriminate.
    + assert (Hr : has_sep r = false) by (apply IH; reflexivity).
      rewrite Hr, orb_false_r.
      destruct (Ascii.eqb c sep); split; congruence.
Qed.

Lemma cut_nonempty (p h : string) : cut p = Some h -> h <> EmptyString.
Proof.
  destruct p as [|c r]; cbn [cut]; [discriminate|].
  destruct (cut r); [intros [= <-]; discriminate|].
  destruct (Ascii.eqb c sep); [intros [= <-]; discriminate | discriminate].
Qed.

Lemma dirname_empty (p : string) :
  dirname p = EmptyString <-> has_sep p = false.
Proof.
  rewrite <- cut_none. unfold dirname.
  destruct (cut p) as [h|] eqn:E.
  - split; [|discriminate]. intros H. exfalso.
    apply (cut_nonempty _ _ E).
    destruct (negb (String.eqb h "") && negb (all_sep h)) eqn:C;
      [|exact H].
    apply andb_true_iff in C. destruct C as [_ C].
    apply rstrip_empty in H. rewrite H in C. discriminate.
  - cbn. split; reflexivity.
Qed.

Lemma update_same (reg : registry) (key : string) (st : logger_state) :
  update reg key st key = st.
Proof.
  unfold update. rewrite String.eqb_refl. reflexivity.
Qed.

Lemma update_other (reg : registry) (key k : string) (st : logger_state) :
  k <> key -> update reg key st k = reg k.
Proof.
  intros H. unfold update. apply String.eqb_neq in H. rewrite H. reflexivity.
Qed.

Lemma setup_success (os : os_answers) (reg : registry)
  (name log_file : string) (lvl : Z) :
  has_sep log_file = true ->
  makedirs_ok os (dirname log_file) = true ->
  open_ok os log_file = true ->
  setup_logger os reg name log_file lvl =
  (addHandler
     (addHandler (setLevel reg (getLogger name) lvl) (getLogger name)
        (FileHandler log_file FORMAT))
     (getLogger name) (StreamHandler FORMAT),
   inl (getLogger name)).
Proof.
  intros Hsep Hdir Hopen. unfold setup_logger, makedirs, open_log. cbv zeta.
  destruct (String.eqb (dirname log_file) "") eqn:E.
  - apply String.eqb_eq in E. apply dirname_empty in E. congruence.
  - rewrite Hdir, Hopen. reflexivity.
Qed.

Lemma handlers_after_success (os : os_answers) (reg : registry)
  (name log_file : string) (lvl : Z) :
  has_sep log_file = true ->
  makedirs_ok os (dirname log_file) = true ->
  open_ok os log_file = true ->
  handlers (fst (setup_logger os reg name log_file lvl) (getLogger name)) =
  handlers (reg (getLogger name))
    ++ [FileHandler log_file FORMAT; StreamHandler FORMAT].
Proof.
  intros Hsep Hdir Hopen.
  rewrite (setup_success os reg name log_file lvl Hsep Hdir Hopen).
  cbn [fst]. unfold addHandler, setLevel.
  repeat (rewrite update_same; cbn [handlers level]).
  rewrite <- app_assoc. reflexivity.
Qed.

(** X19: what one call of [setup_logger] does.  It returns the logger exactly
    when the log file's path has a directory part, that directory can be
    created or exists, and the file can be opened; it raises otherwise.  In
    both cases the logger's level is set and no other logger is touched; on
    success a file handler and a console handler are appended after the
    handlers the logger already had, on failure the handlers stay as they
    were. *)
Theorem setup_logger_effect (os : os_answers) (reg : registry)
  (name log_file : string) (lvl : Z) :
  let key := getLogger name in
  let reg' := fst (setup_logger os reg name log_file lvl) in
  let outcome := snd (setup_logger os reg name log_file lvl) in
  (forall k, k <> key -> reg' k = reg k) /\
  level (reg' key) = lvl /\
  (outcome = inl key <->
   has_sep log_file = true /\
   makedirs_ok os (dirname log_file) = true /\
   open_ok os log_file = true) /\
  (outcome = inl key ->
   handlers (reg' key) =
   handlers (reg key) ++ [FileHandler log_file FORMAT; StreamHandler FORMAT]) /\
  (outcome <> inl key ->
   (exists e, outcome = inr e) /\ handlers (reg' key) = handlers (reg key)).
Proof.
  cbv zeta.
  assert (Hiff : snd (setup_logger os reg name log_file lvl)
                 = inl (getLogger name) <->
                 has_sep log_file = true /\
                 makedirs_ok os (dirname log_file) = true /\
                 open_ok os log_file = true).
  { split.
    - unfold setup_logger, makedirs, open_log. cbv zeta.
      destruct (String.eqb (dirname log_file) "") eqn:E; [discriminate|].
      destruct (makedirs_ok os (dirname log_file)); [|discriminate].
      destruct (open_ok os log_file); [|discriminate].
      intros _. repeat split.
      destruct (has_sep log_file) eqn:Hs; [reflexivity|].
      apply dirname_empty in Hs. rewrite Hs in E. discriminate.
    - intros (Hsep & Hdir & Hopen).
      rewrite (setup_success os reg name log_file lvl Hsep Hdir Hopen).
      reflexivity. }
  split; [|split; [|split; [exact Hiff | split]]].
  - intros k Hk. unfold setup_logger, makedirs, open_log. cbv zeta.
    destruct (String.eqb (dirname log_file) "");
      [cbn [fst]; unfold setLevel; apply update_other; exact Hk|].
    destruct (makedirs_ok os (dirname log_file));
      [|cbn [fst]; unfold setLevel; apply update_other; exact Hk].
    destruct (open_ok os log_file);
      [|cbn [fst]; unfold setLevel; apply update_other; exact Hk].
    cbn [fst]. unfold addHandler, setLevel.
    repeat (rewrite update_other by exact Hk). reflexivity.
  - unfold setup_logger, makedirs, open_log. cbv zeta.
    destruct (String.eqb (dirname log_file) "");
      [cbn [fst]; unfold setLevel; rewrite update_same; reflexivity|].
    destruct (makedirs_ok os (dirname log_file));
      [|cbn [fst]; unfold setLevel; rewrite update_same; reflexivity].
    destruct (open_ok os log_file);
      [|cbn [fst]; unfold setLevel; rewrite update_same; reflexivity].
    cbn [fst]. unfold addHandler, setLevel.
    repeat (rewrite update_same; cbn [handlers level]). reflexivity.
  - intros Hok. apply Hiff in Hok. destruct Hok as (Hsep & Hdir & Hopen).
    apply handlers_after_success; assumption.
  - unfold setup_logger, makedirs, open_log. cbv zeta.
    destruct (String.eqb (dirname log_file) "");
      [intros _; cbn [fst snd]; unfold setLevel; rewrite update_same;
       split; [eauto | reflexivity]|].
    destruct (makedirs_ok os (dirname log_file));
      [|intros _; cbn [fst snd]; unfold setLevel; rewrite update_same;
        split; [eauto | reflexivity]].
    destruct (open_ok os log_file);
      [|intros _; cbn [fst snd]; unfold setLevel; rewrite update_same;
        split; [eauto | reflexivity]].
    cbn [snd]. intros H. exfalso. apply H. reflexivity.
Qed.

(** X20: a log file given by a bare file name, without any [/], has the
    empty directory name, and creating that directory fails: [setup_logger]
    raises [FileNotFoundError] whatever the operating system would answer,
    after the level was set and before any handler is added. *)
Theorem bare_log_file_name_fails (os : os_answers) (reg : registry)
  (name log_file : string) (lvl : Z) :
  has_sep log_file = false ->
  snd (setup_logger os reg name log_file lvl) = inr FileNotFoundError /\
  level (fst (setup_logger os reg name log_file lvl) (getLogger name)) = lvl /\
  handlers (fst (setup_logger os reg name log_file lvl) (getLogger name)) =
  handlers (reg (getLogger name)).
Proof.
  intros Hsep. apply dirname_empty in Hsep.
  unfold setup_logger, makedirs. cbv zeta. rewrite Hsep.
  cbn [String.eqb fst snd]. unfold setLevel. rewrite update_same.
  repeat split.
Qed.

Lemma bare_log_file_name_fails_witness :
  snd (setup_logger friendly_os initial default_name "pipeline.log" INFO)
    = inr FileNotFoundError /\
  level (fst (setup_logger friendly_os initial default_name "pipeline.log" INFO)
           (getLogger default_name)) = INFO /\
  handlers (fst (setup_logger friendly_os initial default_name "pipeline.log" INFO)
              (getLogger default_name)) =
  handlers (initial (getLogger default_name)).
Proof.
  apply (bare_log_file_name_fails friendly_os initial default_name
           "pipeline.log" INFO).
  reflexivity.
Defined.

(** X21: [setup_logger] is not idempotent.  Each successful call appends a
    further pair of handlers, so after [n] calls with the same arguments the
    logger carries [n] more file handlers and [n] more console handlers than
    before, and each record is written that many times. *)
Theorem handlers_accumulate (n : nat) (os : os_answers) (reg : registry)
  (name log_file : string) (lvl : Z) :
  has_sep log_file = true ->
  makedirs_ok os (dirname log_file) = true ->
  open_ok os log_file = true ->
  handlers (setup_again n os reg name log_file lvl (getLogger name)) =
  handlers (reg (getLogger name))
    ++ List.concat
         (repeat [FileHandler log_file FORMAT; StreamHandler FORMAT] n).
Proof.
  intros Hsep Hdir Hopen. revert reg.
  induction n as [|m IH]; intros reg; cbn [setup_again repeat List.concat].
  - rewrite app_nil_r. reflexivity.
  - rewrite IH.
    rewrite (handlers_after_success os reg name log_file lvl Hsep Hdir Hopen).
    rewrite <- app_assoc. reflexivity.
Qed.

Lemma handlers_accumulate_witness :
  handlers (setup_again 2 friendly_os initial default_name default_log_file INFO
              (getLogger default_name)) =
  handlers (initial (getLogger default_name))
    ++ List.concat
         (repeat [FileHandler default_log_file FORMAT; StreamHandler FORMAT] 2).
Proof.
  apply (handlers_accumulate 2 friendly_os initial default_name
           default_log_file INFO); reflexivity.
Defined.

End LoggerFacts.
